(** * A model of generate_report.py (TRX test results to an HTML report)

    The script is modelled function by function.  Text is modelled as
    Stdlib strings of 8-bit characters; character classes ([\d], [\s],
    [str.strip], [int()], [float()]) are modelled on their ASCII members.
    A Python [float] is modelled by its exact value as a rational number,
    every arithmetic operation and every conversion being rounded to
    binary64 (round to nearest, ties to even) by [round64q]; infinities and
    NaN are separate constructors.  The sign of a floating-point zero is
    not modelled. *)

From Stdlib Require Import String Ascii List Bool ZArith QArith Qround Qabs Qpower Lqa Lia.
From Stdlib Require Import Permutation Sorted.
From Stdlib Require Import DecimalString.
Import ListNotations.
Open Scope string_scope.

(* ------------------------------------------------------------------ *)
(** ** Characters and strings *)

Definition chr (n : nat) : ascii := ascii_of_nat n.

Definition is_digit (c : ascii) : bool :=
  let n := nat_of_ascii c in (48 <=? n)%nat && (n <=? 57)%nat.

Definition digit_val (c : ascii) : Z := Z.of_nat (nat_of_ascii c - 48).

(** Whitespace as CPython's [Py_UNICODE_ISSPACE] on the ASCII range:
    tab, newline, vertical tab, form feed, carriage return, the four
    separators 0x1c..0x1f and space. *)
Definition is_space (c : ascii) : bool :=
  let n := nat_of_ascii c in
  ((9 <=? n) && (n <=? 13))%nat || ((28 <=? n) && (n <=? 32))%nat.

Definition lower (c : ascii) : ascii :=
  let n := nat_of_ascii c in
  if ((65 <=? n) && (n <=? 90))%nat then chr (n + 32) else c.

Definition chars (s : string) : list ascii := list_ascii_of_string s.
Definition str (l : list ascii) : string := string_of_list_ascii l.

Fixpoint drop_while (p : ascii -> bool) (l : list ascii) : list ascii :=
  match l with
  | c :: r => if p c then drop_while p r else l
  | [] => []
  end.

(** [str.strip()] *)
Definition strip (l : list ascii) : list ascii :=
  rev (drop_while is_space (rev (drop_while is_space l))).

(** [str.split(sep)] for a one-character separator. *)
Fixpoint split_on (sep : ascii) (l : list ascii) : list (list ascii) :=
  match l with
  | [] => [[]]
  | c :: r =>
      if Ascii.eqb c sep then [] :: split_on sep r
      else match split_on sep r with
           | w :: ws => (c :: w) :: ws
           | [] => [[c]]
           end
  end.

(** Decimal rendering of an integer, as [str(n)] / [f"{n}"]. *)
Definition Z_str (z : Z) : string := NilEmpty.string_of_int (Z.to_int z).

Fixpoint repeat_char (c : ascii) (n : nat) : string :=
  match n with O => EmptyString | S k => String c (repeat_char c k) end.

(** Zero padding to a minimum width, after the sign, as the [0] flag of
    the format mini-language does. *)
Definition zpad (w : nat) (s : string) : string :=
  match s with
  | String "-" r => "-" ++ repeat_char "0" (w - 1 - String.length r) ++ r
  | _ => repeat_char "0" (w - String.length s) ++ s
  end.

(** [f"{n:02d}"] *)
Definition fmt_02d (z : Z) : string := zpad 2 (Z_str z).

(* ------------------------------------------------------------------ *)
(** ** Binary64 *)

Definition qltb (a b : Q) : bool := negb (Qle_bool b a).

Definition pow2 (k : Z) : Q :=
  if (0 <=? k)%Z then inject_Z (2 ^ k) else 1 # Z.to_pos (2 ^ (- k)).

(** [floor (log2 q)] for [q > 0]. *)
Definition flog2 (q : Q) : Z :=
  let k := (Z.log2 (Qnum q) - Z.log2 (Zpos (Qden q)))%Z in
  if Qle_bool (pow2 k) q then k else (k - 1)%Z.

(** Rounding to an integer, ties to even. *)
Definition rne (q : Q) : Z :=
  let f := Qfloor q in
  let r := q - inject_Z f in
  if qltb r (1 # 2) then f
  else if qltb (1 # 2) r then (f + 1)%Z
  else if Z.even f then f else (f + 1)%Z.

(** Rounding of an exact value to the nearest binary64 value (53-bit
    significand, least exponent -1074), ties to even.  Overflow is
    handled by the callers. *)
Definition round64q (q : Q) : Q :=
  if Qeq_bool q 0 then 0 else
  let a := Qabs q in
  let e := Z.max (-1074) (flog2 a - 52) in
  let r := inject_Z (rne (a / pow2 e)) * pow2 e in
  if qltb q 0 then - r else r.

Definition max_float_bound : Q := inject_Z (2 ^ 1024).

Inductive pyfloat :=
| Fin (q : Q)
| PInf (neg : bool)
| PNaN.

(** A rounded result: values whose magnitude rounds to [2^1024] or more
    become infinities. *)
Definition round64 (q : Q) : pyfloat :=
  let r := round64q q in
  if Qle_bool max_float_bound (Qabs r) then PInf (qltb q 0) else Fin r.

(** [float(int)] raises OverflowError when the integer is too large. *)
Definition float_of_int (z : Z) : option Q :=
  match round64 (inject_Z z) with Fin r => Some r | _ => None end.

(** [a + b] on floats. *)
Definition fadd (a b : pyfloat) : pyfloat :=
  match a, b with
  | Fin x, Fin y => round64 (x + y)
  | PNaN, _ | _, PNaN => PNaN
  | PInf s, PInf t => if Bool.eqb s t then PInf s else PNaN
  | PInf s, Fin _ | Fin _, PInf s => PInf s
  end.

(** [int + float]: the integer is converted first. *)
Definition add_int_float (z : Z) (b : pyfloat) : option pyfloat :=
  match float_of_int z with
  | Some x => Some (fadd (Fin x) b)
  | None => None
  end.

(** Comparisons: every comparison with NaN is false. *)
Definition fge (a : pyfloat) (c : Q) : bool :=
  match a with
  | Fin x => Qle_bool c x
  | PInf s => negb s
  | PNaN => false
  end.

Definition fgtb (a b : pyfloat) : bool :=
  match a, b with
  | Fin x, Fin y => qltb y x
  | PInf false, Fin _ | PInf false, PInf true | Fin _, PInf true => true
  | _, _ => false
  end.

(** [format(x, ".{d}f")]: exact value rounded half to even at [d]
    decimals; the sign is that of the value. *)
Definition fmt_fixed (d : nat) (q : Q) : string :=
  let a := Qabs q in
  let p := (10 ^ Z.of_nat d)%Z in
  let n := rne (a * inject_Z p) in
  let ip := Z_str (n / p) in
  let sg := if qltb q 0 then "-" else "" in
  match d with
  | O => sg ++ ip
  | S _ => sg ++ ip ++ "." ++ zpad d (Z_str (n mod p))
  end.

Definition fmt_float (d : nat) (x : pyfloat) : string :=
  match x with
  | Fin q => fmt_fixed d q
  | PInf false => "inf"
  | PInf true => "-inf"
  | PNaN => "nan"
  end.

Definition fneg (a : pyfloat) : pyfloat :=
  match a with
  | Fin x => Fin (- x)
  | PInf s => PInf (negb s)
  | PNaN => PNaN
  end.

(** [a - b] on floats. *)
Definition fsub (a b : pyfloat) : pyfloat := fadd a (fneg b).

Definition qtrunc (q : Q) : Z :=
  if qltb q 0 then (- Qfloor (- q))%Z else Qfloor q.

(** [x // w] for a float [x] and a positive divisor [w], following
    CPython's [float_floor_div]: [mod = fmod(x, w)] (exact),
    [div = (x - mod) / w], corrected when [mod] and [w] differ in sign,
    then rounded to the nearest integer at or below it. *)
Definition floordiv (x : pyfloat) (w : Q) : pyfloat :=
  match x with
  | Fin vx =>
      let md := vx - w * inject_Z (qtrunc (vx / w)) in
      let dv := round64q (round64q (vx - md) / w) in
      let dv := if negb (Qeq_bool md 0) && qltb md 0
                then round64q (dv - 1) else dv in
      if Qeq_bool dv 0 then Fin 0 else
      let fl := Qfloor dv in
      if qltb (1 # 2) (round64q (dv - inject_Z fl))
      then Fin (inject_Z (fl + 1)) else Fin (inject_Z fl)
  | _ => PNaN (* fmod of an infinity is NaN *)
  end.

(** [int(x)] of a float: NaN and infinities raise. *)
Definition int_of_float (x : pyfloat) : option Z :=
  match x with Fin q => Some (qtrunc q) | _ => None end.

(** [x - n] for a float and an int. *)
Definition sub_float_int (x : pyfloat) (n : Z) : option pyfloat :=
  match float_of_int n with
  | Some y => Some (fsub x (Fin y))
  | None => None
  end.

Notation "'let*' x := a 'in' b" :=
  (match a with Some x => b | None => None end)
  (at level 200, x name, a at level 100, b at level 200).

(* ------------------------------------------------------------------ *)
(** ** [int()] and [float()] on strings *)

(** A digit sequence with single underscores between digits
    (PEP 515): value, number of digits, rest of the input. *)
Fixpoint digits_rest (l : list ascii) (v : Z) (n : nat)
  : Z * nat * list ascii :=
  match l with
  | c :: r =>
      if is_digit c then digits_rest r (v * 10 + digit_val c) (S n)
      else if Ascii.eqb c "_" then
        match r with
        | d :: r' => if is_digit d then digits_rest r' (v * 10 + digit_val d) (S n)
                     else (v, n, l)
        | [] => (v, n, l)
        end
      else (v, n, l)
  | [] => (v, n, [])
  end.

Definition digitpart (l : list ascii) : option (Z * nat * list ascii) :=
  match l with
  | d :: r => if is_digit d then Some (digits_rest r (digit_val d) 1) else None
  | [] => None
  end.

Definition take_sign (l : list ascii) : Z * list ascii :=
  match l with
  | "+"%char :: r => (1%Z, r)
  | "-"%char :: r => ((-1)%Z, r)
  | _ => (1%Z, l)
  end.

(** [int(s)] in base 10. *)
Definition py_int (l : list ascii) : option Z :=
  let '(sg, body) := take_sign (strip l) in
  match digitpart body with
  | Some (v, _, []) => Some (sg * v)%Z
  | _ => None
  end.

Definition lowers (l : list ascii) : list ascii := map lower l.

Definition digitpart_opt (l : list ascii) : Z * nat * list ascii :=
  match digitpart l with Some r => r | None => (0%Z, O, l) end.

(** The exponent of a float literal, if any. *)
Definition exponent_part (l : list ascii) : option (Z * list ascii) :=
  match l with
  | c :: r =>
      if Ascii.eqb (lower c) "e" then
        let '(sg, r') := take_sign r in
        match digitpart r' with
        | Some (v, _, rest) => Some (sg * v, rest)%Z
        | None => None
        end
      else Some (0%Z, l)
  | [] => Some (0%Z, [])
  end.

(** [float(s)]: decimal literals (correctly rounded, overflowing to an
    infinity), and the spellings of infinity and NaN. *)
Definition py_float (l : list ascii) : option pyfloat :=
  let '(sg, body) := take_sign (strip l) in
  let neg := (sg <? 0)%Z in
  let lb := str (lowers body) in
  if (lb =? "inf") || (lb =? "infinity") then Some (PInf neg)
  else if lb =? "nan" then Some PNaN
  else
    let '(iv, ni, r1) := digitpart_opt body in
    let '(fv, nf, r2) :=
      match r1 with
      | "."%char :: r => digitpart_opt r
      | _ => (0%Z, O, r1)
      end in
    let has_dot := match r1 with "."%char :: _ => true | _ => false end in
    if (ni =? 0)%nat && (nf =? 0)%nat then None
    else if negb has_dot && negb (nf =? 0)%nat then None
    else
      match exponent_part r2 with
      | Some (ex, []) =>
          let mant := (iv * 10 ^ Z.of_nat nf + fv)%Z in
          let e := (ex - Z.of_nat nf)%Z in
          let v := if (0 <=? e)%Z then inject_Z (mant * 10 ^ e)
                   else mant # Z.to_pos (10 ^ (- e)) in
          Some (round64 (inject_Z sg * v))
      | _ => None
      end.

(* ------------------------------------------------------------------ *)
(** ** [parse_duration] and [fmt_dur] *)

(** [parse_duration]: [parts = dur_str.split(":")],
    [h, m = int(parts[0]), int(parts[1])], [s = float(parts[2])],
    [h * 3600 + m * 60 + s]. *)
Definition parse_duration (dur_str : string) : option pyfloat :=
  let parts := split_on ":" (chars dur_str) in
  let* p0 := nth_error parts 0 in
  let* p1 := nth_error parts 1 in
  let* p2 := nth_error parts 2 in
  let* h := py_int p0 in
  let* m := py_int p1 in
  let* s := py_float p2 in
  add_int_float (h * 3600 + m * 60)%Z s.

(** [fmt_dur] *)
Definition fmt_dur (seconds : pyfloat) : option string :=
  if fge seconds 3600 then
    let* h := int_of_float (floordiv seconds 3600) in
    let* remainder := sub_float_int seconds (h * 3600)%Z in
    let* m := int_of_float (floordiv remainder 60) in
    let* s := sub_float_int remainder (m * 60)%Z in
    Some (Z_str h ++ "h " ++ fmt_02d m ++ "m " ++ zpad 5 (fmt_float 2 s) ++ "s")
  else if fge seconds 60 then
    let* m := int_of_float (floordiv seconds 60) in
    let* s := sub_float_int seconds (m * 60)%Z in
    Some (Z_str m ++ "m " ++ zpad 5 (fmt_float 2 s) ++ "s")
  else Some (fmt_float 2 seconds ++ "s").

Definition lit_float (s : string) : pyfloat :=
  match py_float (chars s) with Some x => x | None => PNaN end.

(* ------------------------------------------------------------------ *)
(** ** [parse_iso_datetime] *)

Definition is_sign (c : ascii) : bool := Ascii.eqb c "+" || Ascii.eqb c "-".
Definition nl : ascii := chr 10.

(** [s[:-k]] and [s[-k:]] for [k <= len(s)]. *)
Definition drop_last (k : nat) (l : list ascii) : list ascii :=
  firstn (length l - k) l.
Definition take_last (k : nat) (l : list ascii) : list ascii :=
  skipn (length l - k) l.

(** [re.search(r'[+-]\d{2}:\d{2}$', s)]: the pattern ends at the end of
    the string or just before a final newline (the meaning of [$]).  The
    reversed string is inspected. *)
Definition tz_tail (r : list ascii) : bool :=
  match r with
  | d4 :: d3 :: c :: d2 :: d1 :: sg :: _ =>
      is_sign sg && is_digit d1 && is_digit d2 && Ascii.eqb c ":"
      && is_digit d3 && is_digit d4
  | _ => false
  end.

Definition tz_colon_search (s : list ascii) : bool :=
  let r := rev s in
  tz_tail r || match r with c :: r' => Ascii.eqb c nl && tz_tail r' | [] => false end.

Fixpoint take_while (p : ascii -> bool) (l : list ascii) : list ascii :=
  match l with
  | c :: r => if p c then c :: take_while p r else []
  | [] => []
  end.

(** [re.match(r'(.+\.\d{6})\d*([+-]\d{4})$', s)], returning the two
    groups.  Everything after the dot of group 1 is digits and the
    offset, so at most one dot can start the [\.\d{6}] part: the one
    just before the run of digits that precedes the offset.  The match is
    read off the reversed string: an optional final newline (for [$]),
    four digits and a sign, the digit run (at least six digits, the first
    six belonging to group 1), the dot, and a non-empty prefix without
    newlines (for [.+]). *)
Definition frac_match (s : list ascii) : option (list ascii * list ascii) :=
  let r := rev s in
  let core := match r with c :: r' => if Ascii.eqb c nl then r' else r | [] => r end in
  match core with
  | d4 :: d3 :: d2 :: d1 :: sg :: rest =>
      if is_sign sg && is_digit d1 && is_digit d2 && is_digit d3 && is_digit d4 then
        let run := take_while is_digit rest in
        let after := drop_while is_digit rest in
        match after with
        | c :: pre =>
            if Ascii.eqb c "." && (6 <=? length run)%nat && negb (length pre =? 0)%nat
               && forallb (fun x => negb (Ascii.eqb x nl)) pre
            then Some ((rev pre ++ ["."%char] ++ firstn 6 (rev run))%list, [sg; d1; d2; d3; d4])
            else None
        | [] => None
        end
      else None
  | _ => None
  end.

(** The normalisation steps of [parse_iso_datetime], before [strptime]. *)
Definition normalize_ts (s0 : list ascii) : list ascii :=
  let s1 := if tz_colon_search s0 then (drop_last 3 s0 ++ take_last 2 s0)%list else s0 in
  match frac_match s1 with
  | Some (g1, g2) => (g1 ++ g2)%list
  | None => s1
  end.

(** *** A matcher for the regular expression [strptime] compiles.

    [M A] lists the matches of a pattern at the start of the input, in
    the order the backtracking regex engine tries them, with the rest of
    the input; [re.match] returns the first one. *)
Definition M (A : Type) := list ascii -> list (A * list ascii).

Definition mret {A} (a : A) : M A := fun s => [(a, s)].
Definition mfail {A} : M A := fun _ => [].
Definition mbind {A B} (p : M A) (f : A -> M B) : M B :=
  fun s => flat_map (fun '(a, r) => f a r) (p s).
Definition malt {A} (p q : M A) : M A := fun s => (p s ++ q s)%list.
Definition msat (p : ascii -> bool) : M ascii :=
  fun s => match s with c :: r => if p c then [(c, r)] else [] | [] => [] end.

Definition crange (lo hi : nat) (c : ascii) : bool :=
  let n := nat_of_ascii c in (lo <=? n)%nat && (n <=? hi)%nat.
Definition ceq (x : ascii) (c : ascii) : bool := Ascii.eqb c x.
(** A letter under [re.IGNORECASE]. *)
Definition cieq (x : ascii) (c : ascii) : bool := Ascii.eqb (lower c) (lower x).

(** Concatenation of the matched texts of a sequence of patterns. *)
Fixpoint mseq (ps : list (M (list ascii))) : M (list ascii) :=
  match ps with
  | [] => mret []
  | p :: ps' => mbind p (fun a => mbind (mseq ps') (fun b => mret (a ++ b)%list))
  end.

Definition one (p : ascii -> bool) : M (list ascii) := mbind (msat p) (fun c => mret [c]).
Definition dgt : M (list ascii) := one is_digit.
Definition malts {A} (ps : list (M A)) : M A := fold_right malt mfail ps.
(** [p?], greedy *)
Definition mopt (p : M (list ascii)) : M (list ascii) := malt p (mret []).

(** [p{lo,n}], greedy *)
Fixpoint mrep (n lo : nat) (p : M (list ascii)) : M (list ascii) :=
  match n with
  | O => if (lo =? 0)%nat then mret [] else mfail
  | S n' => malt (mseq [p; mrep n' (lo - 1) p])
                 (if (lo =? 0)%nat then mret [] else mfail)
  end.

(** The directives of [_strptime.TimeRE]. *)
Definition re_Y := mseq [dgt; dgt; dgt; dgt].
Definition re_m := malts [mseq [one (ceq "1"); one (crange 48 50)];
                          mseq [one (ceq "0"); one (crange 49 57)];
                          one (crange 49 57)].
Definition re_d := malts [mseq [one (ceq "3"); one (crange 48 49)];
                          mseq [one (crange 49 50); dgt];
                          mseq [one (ceq "0"); one (crange 49 57)];
                          one (crange 49 57);
                          mseq [one (ceq " "); one (crange 49 57)]].
Definition re_H := malts [mseq [one (ceq "2"); one (crange 48 51)];
                          mseq [one (crange 48 49); dgt];
                          dgt].
Definition re_M := malts [mseq [one (crange 48 53); dgt]; dgt].
Definition re_S := malts [mseq [one (ceq "6"); one (crange 48 49)];
                          mseq [one (crange 48 53); dgt];
                          dgt].
Definition re_f := mrep 6 1 dgt.
Definition re_z :=
  malt (mseq [one is_sign; dgt; dgt; mopt (one (ceq ":")); one (crange 48 53); dgt;
              mopt (mseq [mopt (one (ceq ":")); one (crange 48 53); dgt;
                          mopt (mseq [one (ceq "."); mrep 6 1 dgt])])])
       (one (cieq "Z")).

Record groups := { gY : list ascii; gm : list ascii; gd : list ascii;
                   gH : list ascii; gM : list ascii; gS : list ascii;
                   gf : list ascii; gz : list ascii }.

(** The compiled form of ["%Y-%m-%dT%H:%M:%S.%f%z"] (with
    [re.IGNORECASE]). *)
Definition re_format : M groups :=
  mbind re_Y (fun y => mbind (one (ceq "-")) (fun _ =>
  mbind re_m (fun mo => mbind (one (ceq "-")) (fun _ =>
  mbind re_d (fun d => mbind (one (cieq "T")) (fun _ =>
  mbind re_H (fun h => mbind (one (ceq ":")) (fun _ =>
  mbind re_M (fun mi => mbind (one (ceq ":")) (fun _ =>
  mbind re_S (fun se => mbind (one (ceq ".")) (fun _ =>
  mbind re_f (fun f => mbind re_z (fun z =>
  mret {| gY := y; gm := mo; gd := d; gH := h; gM := mi; gS := se;
          gf := f; gz := z |})))))))))))))).

(** The first match of [re_format], which must consume the whole input
    (otherwise "unconverted data remains"). *)
Definition re_full_match (s : list ascii) : option groups :=
  match re_format s with
  | (g, []) :: _ => Some g
  | _ => None
  end.

(** [s[i:j]] *)
Definition slice (i j : nat) (l : list ascii) : list ascii := firstn (j - i) (skipn i l).

Definition zeros (n : nat) : list ascii := repeat "0"%char n.

(** The [%z] conversion of [_strptime]: offset seconds and microseconds. *)
Definition tz_offset (z : list ascii) : option (Z * Z) :=
  if list_eq_dec ascii_dec z ["Z"%char] then Some (0%Z, 0%Z) else
  let* c3 := nth_error z 3 in
  let* z1 :=
    if Ascii.eqb c3 ":" then
      let z' := (firstn 3 z ++ skipn 4 z)%list in
      if (5 <? length z')%nat then
        match nth_error z' 5 with
        | Some c5 => if Ascii.eqb c5 ":" then Some (firstn 5 z' ++ skipn 6 z')%list
                     else None (* "Inconsistent use of :" *)
        | None => None
        end
      else Some z'
    else Some z in
  let* hours := py_int (slice 1 3 z1) in
  let* minutes := py_int (slice 3 5 z1) in
  let* seconds := (match slice 5 7 z1 with [] => Some 0%Z | sl => py_int sl end) in
  let gmtoff := (hours * 3600 + minutes * 60 + seconds)%Z in
  let rem := skipn 8 z1 in
  let* frac := py_int (rem ++ zeros (6 - length rem))%list in
  match z1 with
  | "-"%char :: _ => Some (- gmtoff, - frac)%Z
  | _ => Some (gmtoff, frac)
  end.

(** An aware [datetime]; [offset_us] is its UTC offset in microseconds. *)
Record datetime := {
  year : Z; month : Z; day : Z; hour : Z; minute : Z; second : Z;
  microsecond : Z; offset_us : Z }.

Definition is_leap (y : Z) : bool :=
  (y mod 4 =? 0)%Z && (negb (y mod 100 =? 0)%Z || (y mod 400 =? 0)%Z).

Definition days_in_month (y m : Z) : Z :=
  match m with
  | 2%Z => if is_leap y then 29 else 28
  | 4%Z | 6%Z | 9%Z | 11%Z => 30
  | _ => 31
  end.

Definition in_range (lo x hi : Z) : bool := (lo <=? x)%Z && (x <=? hi)%Z.

(** [datetime.strptime(s, "%Y-%m-%dT%H:%M:%S.%f%z")]: regex match,
    conversion of the groups, then the range checks of [date],
    [timezone] (strictly within one day) and [datetime]. *)
Definition strptime_iso (s : list ascii) : option datetime :=
  let* g := re_full_match s in
  let* y := py_int (gY g) in
  let* mo := py_int (gm g) in
  let* d := py_int (gd g) in
  let* h := py_int (gH g) in
  let* mi := py_int (gM g) in
  let* se := py_int (gS g) in
  let* fr := py_int (gf g ++ zeros (6 - length (gf g)))%list in
  let* offs := tz_offset (gz g) in
  let off_us := (fst offs * 1000000 + snd offs)%Z in
  if in_range 1 y 9999 && in_range 1 mo 12 && in_range 1 d (days_in_month y mo)
     && (Z.abs off_us <? 86400 * 1000000)%Z
     && in_range 0 h 23 && in_range 0 mi 59 && in_range 0 se 59
     && in_range 0 fr 999999
  then Some {| year := y; month := mo; day := d; hour := h; minute := mi;
               second := se; microsecond := fr; offset_us := off_us |}
  else None.

(** [parse_iso_datetime] *)
Definition parse_iso_datetime (s : string) : option datetime :=
  strptime_iso (normalize_ts (chars s)).

(** The absolute instant of an aware datetime: microseconds since
    0001-01-01T00:00:00 UTC (proleptic Gregorian calendar). *)
Definition days_before_year (y : Z) : Z :=
  let y1 := (y - 1)%Z in (y1 * 365 + y1 / 4 - y1 / 100 + y1 / 400)%Z.

Fixpoint days_before_month_aux (y : Z) (k : nat) : Z :=
  match k with
  | O => 0
  | S k' => (days_before_month_aux y k' + days_in_month y (Z.of_nat k))%Z
  end.

Definition ordinal (y m d : Z) : Z :=
  (days_before_year y + days_before_month_aux y (Z.to_nat (m - 1)) + d)%Z.

Definition instant (t : datetime) : Z :=
  (((ordinal (year t) (month t) (day t) - 1) * 86400
    + hour t * 3600 + minute t * 60 + second t) * 1000000
   + microsecond t - offset_us t)%Z.

(* ------------------------------------------------------------------ *)
(** ** Test results *)

(** [Test]: [class_name] and [method_name] come from splitting the full
    name at its last dot ([str.rfind]). *)
Record Test := {
  full_name : string; class_name : string; method_name : string;
  outcome : string; duration_sec : pyfloat; description : string;
  stdout : string }.

Definition is_dot (c : ascii) : bool := Ascii.eqb c ".".

Definition rsplit_dot (l : list ascii) : list ascii * list ascii :=
  if existsb is_dot l then
    let r := rev l in
    (rev (tl (drop_while (fun c => negb (is_dot c)) r)),
     rev (take_while (fun c => negb (is_dot c)) r))
  else ([], l).

Definition mk_Test (full outcome : string) (dur : pyfloat) (desc out : string) : Test :=
  let '(c, m) := rsplit_dot (chars full) in
  {| full_name := full; class_name := str c; method_name := str m;
     outcome := outcome; duration_sec := dur; description := desc;
     stdout := out |}.

(** A [UnitTestResult] element: its attributes, and the text of its
    [Output/StdOut] child ([None] when the child or its text is absent). *)
Record result_el := { r_attrs : list (string * string); r_stdout : option string }.

(** [el.get(key, default)] *)
Fixpoint attr_get (attrs : list (string * string)) (k : string) : option string :=
  match attrs with
  | [] => None
  | (k', v) :: r => if String.eqb k k' then Some v else attr_get r k
  end.

Definition get_default (attrs : list (string * string)) (k d : string) : string :=
  match attr_get attrs k with Some v => v | None => d end.

(** [dict.get(key, "")] on a table given as a list of entries. *)
Definition table_get (tbl : list (string * string)) (k : string) : string :=
  get_default tbl k "".

(** [TEST_DESCRIPTIONS] (method name to description). *)
Definition TEST_DESCRIPTIONS : list (string * string) := [
  ("TokenRefresh_WithValidRefreshToken_IssuesNewAccessToken",
   "Registers, logs in, then uses the refresh token to obtain a new access token. Confirms a fresh access token is issued.");
  ("UserProfile_WhenAuthenticated_ReturnsUserDetails",
   "Registers and logs in a user, then retrieves the profile using the access token. Verifies the returned data matches the registered user.");
  ("Login_WithValidCredentials_ReturnsAuthenticationTokens",
   "Registers a user, then logs in with the same credentials. Verifies both an access token and a refresh token are returned.");
  ("Registration_WithValidCredentials_CreatesUserAccount",
   "Registers a new user with a valid email, matching passwords and full name. Verifies the account is created and the returned profile data matches the input.");
  ("Login_WithInvalidCredentials_DeniesAccess",
   "Attempts login with a non-existent email and incorrect password. Confirms access is denied.");
  ("Registration_WithMismatchedPasswords_RejectsRequest",
   "Submits a registration where password and confirmation do not match. Confirms the request is rejected before any account is created.");
  ("Registration_WithMissingRequiredFields_RejectsRequest",
   "Sends a registration payload that omits first name and last name. Confirms the API rejects the request for missing required fields.");
  ("Registration_WithWeakPassword_RejectsRequest",
   "Attempts registration with a very short password. Confirms the API enforces minimum password complexity and rejects the request.");
  ("Login_WithMissingPassword_RejectsRequest",
   "Sends a login request containing only an email with no password. Confirms the API rejects the incomplete request.");
  ("UserProfile_WhenUnauthenticated_DeniesAccess",
   "Requests the current-user profile without any authorization header. Confirms the endpoint is protected and access is denied.");
  ("TestDetails_WithNonExistentSlug_ReturnsNotFound",
   "Requests details for a slug that does not exist in the system. Confirms a not-found response is returned.");
  ("TestDeletion_WithValidSlug_RemovesTestCompletely",
   "Creates a test, deletes it, then attempts to fetch it again. Confirms the test is fully removed and no longer accessible.");
  ("QuestionAddition_WithValidData_AddsQuestionToTest",
   "Creates a test, then adds a multiple-choice question with three answer options (one correct). Verifies the question, its type and all answers are stored correctly.");
  ("TestListing_AsAuthor_ReturnsOwnTests",
   "Creates a test, then lists all tests for the authenticated author. Confirms the new test appears in the results.");
  ("TestDetails_WithValidSlug_ReturnsTestData",
   "Creates a test, then fetches it by its slug. Verifies the returned slug and title match the created test.");
  ("TestUpdate_WithValidData_UpdatesTestSuccessfully",
   "Creates a test, then updates its title, description, visibility and max attempts. Verifies every changed field is reflected in the response.");
  ("TestCreation_WithMissingTitle_RejectsRequest",
   "Submits a test creation request with an empty title. Confirms the API rejects it because title is required.");
  ("TestCreation_WithValidData_CreatesTestSuccessfully",
   "Creates a quiz with title, description, visibility, time limit, max attempts and show-answers flag. Verifies all fields are stored correctly and an auto-generated slug is present.");
  ("TestCreation_WhenUnauthenticated_DeniesAccess",
   "Attempts to create a test without an auth token. Confirms the endpoint rejects unauthenticated requests.");
  ("QuestionUpdate_WithValidData_UpdatesQuestionSuccessfully",
   "Creates a test with one question, then updates the question text and replaces the entire answer set. Verifies the new question text is stored.");
  ("QuestionDeletion_VerifyRemoval_QuestionNoLongerInTest",
   "Creates and deletes a question, then re-fetches the parent test. Confirms the deleted question no longer appears in the question list.");
  ("QuestionUpdate_WithNonExistentId_ReturnsNotFound",
   "Attempts to update a question using an ID that does not exist. Confirms a not-found response is returned.");
  ("QuestionReorder_WithValidOrder_ReordersSuccessfully",
   "Creates three questions, then posts a reorder request that reverses their sequence. Confirms the API accepts the new ordering.");
  ("QuestionDeletion_WithValidId_RemovesQuestion",
   "Creates a question, then deletes it by ID. Confirms the deletion is acknowledged.");
  ("QuestionCreation_MultiSelectType_CreatesWithMultipleCorrectAnswers",
   "Creates a multi-select question with four options, two of which are marked correct. Verifies the question type and that both correct answers are stored.");
  ("AttemptSubmission_AllWrongAnswers_ScoresZeroMarks",
   "Same flow as the full-marks test but every saved answer is incorrect. Confirms the score is 0% and no answers are marked correct.");
  ("ResultsRetrieval_AsAuthor_ReturnsAllSubmissions",
   "Completes an attempt, then the test author retrieves the results list. Confirms the list is non-empty and contains the expected submission.");
  ("AttemptStart_AsAnonymousUser_CreatesAttemptSuccessfully",
   "Creates a test and starts an anonymous attempt with a display name. Verifies a new attempt is created and an attempt ID is returned.");
  ("TestAccess_PublicTest_AllowsAnonymousAccess",
   "Creates a public test with a question, then fetches it via the anonymous take endpoint. Verifies the test content is accessible without authentication.");
  ("AttemptSubmission_AllCorrectAnswers_ScoresFullMarks",
   "Runs the full attempt flow: start, save all correct answers as draft, submit. Then fetches results as the author and confirms the score is 100%.");
  ("PasswordVerification_WithCorrectPassword_GrantsAccess",
   "Creates a password-protected test, then submits the correct password to the verification endpoint. Confirms access is granted and a token is issued.");
  ("PasswordVerification_WithWrongPassword_DeniesAccess",
   "Submits an incorrect password to the verification endpoint of a protected test. Confirms the request is rejected.");
  ("TestAccess_PasswordProtected_BlocksWithoutPassword",
   "Creates a password-protected test, then tries to access it without providing the password. Confirms access is blocked and a password-required flag is returned.");
  ("AttemptSubmission_AlreadySubmitted_PreventsDoubleSubmission",
   "Completes and submits an attempt, then immediately tries to submit it a second time. Confirms the duplicate submission is blocked.");
  ("DraftSave_WithValidAnswers_SavesDraftSuccessfully",
   "Starts an attempt, then saves an answer for the first question as a draft. Confirms the draft is accepted.");
  ("CompanyTestCreation_WithValidData_CreatesTestInCompany",
   "Creates a company, then creates a test scoped to that company. Verifies the test is created with the expected title.");
  ("CompanyTestListing_AsAdmin_ReturnsCompanyTests",
   "Creates a company and requests the list of tests scoped to it. Confirms the endpoint responds successfully.");
  ("CompanyDetails_AsAdmin_ReturnsCompanyData",
   "Creates a company and fetches it by ID. Verifies the returned record matches the created company.");
  ("CompanyCreation_WithValidData_CreatesCompanySuccessfully",
   "Creates a company with a unique name. Verifies the company is created and appears in the company list with a valid ID.");
  ("CompanyDeletion_AsAdmin_RemovesCompanyCompletely",
   "Creates a company, deletes it, then confirms a subsequent fetch returns not found — the company is fully removed.");
  ("MemberListing_NewCompany_CreatorIsOnlyAdmin",
   "Creates a company and lists its members. Confirms there is exactly one member — the creator — and they hold the admin role.");
  ("CompanyListing_AfterCreation_IncludesNewCompany",
   "Creates a company, then lists all companies. Confirms the newly created company is included.");
  ("CompanyUpdate_WithValidData_UpdatesCompanySuccessfully",
   "Creates a company, updates its name, then verifies the new name is stored.");
  ("CompanyCreation_WhenUnauthenticated_DeniesAccess",
   "Tries to create a company without an auth token. Confirms unauthenticated requests are rejected.");
  ("InviteCreation_DuplicatePendingInvite_RejectsRequest",
   "Sends two invites to the same email for the same company. Confirms the second request is rejected because a pending invite already exists.");
  ("InviteAcceptance_WithValidToken_AddsUserToCompany",
   "Full invite flow: admin creates the invite, the invitee logs in and accepts it, then the admin lists members and confirms the invitee has joined.");
  ("InviteListing_WithPendingInvites_ReturnsPendingInvites",
   "Creates an invite, then lists all invites for the company. Confirms the pending invite for the expected email is present.");
  ("InviteCreation_WithValidEmail_SendsInviteSuccessfully",
   "An admin creates a company and sends an invite to a registered user. Verifies the invite is created with the correct email, role and a valid token.");
  ("FolderCreation_WithParent_CreatesNestedFolderStructure",
   "Creates a parent folder, then a child folder that references the parent. Verifies the child's parent field correctly points to the parent folder.");
  ("FolderListing_AfterCreation_IncludesNewFolder",
   "Creates a folder, then lists all folders for the company. Confirms the new folder is present.");
  ("FolderDeletion_WithValidId_RemovesFolder",
   "Creates a folder, then deletes it. Confirms the deletion is acknowledged.");
  ("FolderUpdate_WithNewName_RenamesFolderSuccessfully",
   "Creates a folder, renames it, then verifies the updated name is stored.");
  ("FolderCreation_TopLevel_CreatesFolderSuccessfully",
   "Creates a top-level folder inside a company. Verifies it is created and appears in the folder list with no parent.");
  ("Analytics_AsNonAuthor_DeniesAccessToOtherUsersTest",
   "One user creates a test, a different authenticated user tries to access its analytics. Confirms access is denied (the API may hide existence entirely).");
  ("Analytics_AfterSubmission_ReflectsAttemptData",
   "Creates a test, runs one full attempt (draft + submit), then fetches analytics. Confirms the stats reflect the submission.");
  ("Analytics_NoSubmissions_ReturnsZeroStats",
   "Creates a test with a question but no submissions. Fetches analytics and confirms total attempts is zero.");
  ("Analytics_WhenUnauthenticated_DeniesAccess",
   "Creates a test, removes the auth token, then tries to access analytics. Confirms the endpoint is protected.");
  ("Authentication_InvalidToken_DeniesAccess",
   "Attempts to access a protected endpoint with an invalid token. Confirms the request is denied.");
  ("Authentication_MalformedToken_DeniesAccess",
   "Sends a malformed authentication token. Confirms the API rejects it and denies access.");
  ("Authentication_NoToken_DeniesProtectedEndpoints",
   "Tries to access protected endpoints without any token. Confirms all require authentication.");
  ("Authorization_UserCannotAccessOtherCompaniesData",
   "Ensures a user from one company cannot view data belonging to a different company.");
  ("Authorization_UserCannotAccessOtherUsersTestResults",
   "Attempts to access another user's test results. Confirms proper ownership enforcement.");
  ("Authorization_UserCannotAccessOtherUsersTests",
   "Verifies a user cannot view or access tests created by other users without permission.");
  ("Authorization_UserCannotDeleteOtherUsersTests",
   "Attempts to delete a test owned by another user. Confirms deletion is blocked.");
  ("Authorization_UserCannotUpdateOtherUsersTests",
   "Tries to modify a test created by another user. Confirms updates are denied.");
  ("DataExposure_CorrectAnswers_NotExposedBeforeSubmission",
   "Fetches test questions before submitting. Confirms correct answers are not leaked in the response.");
  ("DataExposure_DetailedErrorMessages_DoNotLeakSensitiveInfo",
   "Triggers various errors and inspects messages. Confirms no sensitive data like stack traces or internal paths are exposed.");
  ("DataExposure_PasswordNotReturned_InProfileEndpoint",
   "Retrieves the user profile. Confirms the password field is never included in the response.");
  ("InputValidation_ExtremelyLongEmail_IsRejected",
   "Submits registration with an excessively long email address. Confirms the API validates input length.");
  ("InputValidation_NegativeMaxAttempts_IsRejected",
   "Attempts to create a test with negative max attempts. Confirms validation rejects invalid values.");
  ("InputValidation_OversizedPayload_IsRejected",
   "Sends a request with an extremely large payload. Confirms the API enforces size limits.");
  ("InputValidation_SQLInjectionInTestTitle_IsSanitized",
   "Submits a test title containing SQL injection patterns. Confirms input is sanitized and does not cause database errors.");
  ("InputValidation_XSSInQuestionText_IsSanitized",
   "Creates a question with XSS payloads in the text. Confirms the content is properly escaped.");
  ("DataConsistency_AttemptCountAccurate_AfterMultipleSubmissions",
   "Submits multiple attempts and verifies the analytics accurately reflect the total count.");
  ("DataConsistency_ConcurrentAttempts_AllScoredCorrectly",
   "Simulates concurrent test submissions and confirms all scores are calculated correctly without race conditions.");
  ("DataConsistency_DraftSaveDoesNotAffectFinalScore",
   "Saves multiple draft answers, then submits. Confirms only submitted answers affect the final score.");
  ("DataConsistency_QuestionOrderChange_DoesNotCorruptAttempts",
   "Reorders questions in a test, then verifies existing attempts remain intact and uncorrupted.");
  ("DataConsistency_QuestionUpdate_DoesNotAffectSubmittedAttempts",
   "Modifies a question after attempts are submitted. Confirms historical submissions are not altered.");
  ("DataConsistency_ScoreRemainsConstant_AcrossMultipleFetches",
   "Fetches the same result multiple times. Confirms the score is consistent across all requests.");
  ("Immutability_SubmittedAttempts_CannotBeModified",
   "Attempts to update a submitted attempt. Confirms the API prevents modification of finalized submissions.");
  ("Immutability_TestDeletion_PreservesSubmittedResults",
   "Deletes a test that has submitted results. Confirms the results data is preserved or handled appropriately.");
  ("ScoringAccuracy_AllQuestionsCorrect_Scores100Percent",
   "Answers all questions correctly. Confirms the score is exactly 100%.");
  ("ScoringAccuracy_AllQuestionsSkipped_Scores0Percent",
   "Submits an attempt without answering any questions. Confirms the score is 0%.");
  ("ScoringAccuracy_AllQuestionsWrong_Scores0Percent",
   "Answers all questions incorrectly. Confirms the score is 0%.");
  ("ScoringAccuracy_HalfCorrect_Scores50Percent",
   "Answers half the questions correctly. Confirms the score is 50%.");
  ("ScoringAccuracy_MultiSelectPartialAnswer_ScoreIsValidPercentage",
   "Partially answers a multi-select question. Confirms partial credit is awarded appropriately.");
  ("ScoringAccuracy_SingleQuestionTest_ScoresCorrectly",
   "Creates a single-question test and verifies scoring works correctly for the simplest case.");
  ("CompanyInvite_InvalidRoleValue_ShouldFail",
   "Attempts to create an invite with an invalid role value. Confirms the request is rejected.");
  ("CreateQuestion_EmptyQuestionText_ShouldFail",
   "Tries to create a question with empty text. Confirms the API requires question text.");
  ("CreateQuestion_InvalidQuestionType_ShouldFail",
   "Submits a question with an unsupported or invalid type. Confirms validation rejects it.");
  ("CreateQuestion_NoAnswers_ShouldFail",
   "Creates a question without any answer options. Confirms at least one answer is required.");
  ("CreateQuestion_NoCorrectAnswer_ShouldFail",
   "Creates a question where no answer is marked correct. Confirms at least one correct answer is required.");
  ("CreateTest_EmptyPassword_ShouldWork",
   "Creates a password-protected test with an empty password. Confirms empty passwords are allowed or handled gracefully.");
  ("CreateTest_InvalidVisibilityValue_ShouldFail",
   "Submits a test with an invalid visibility setting. Confirms the API validates visibility values.");
  ("CreateTest_NegativeMaxAttempts_ShouldFail",
   "Attempts to create a test with a negative max attempts value. Confirms validation rejects it.");
  ("CreateTest_NegativeTimeLimit_ShouldFail",
   "Tries to set a negative time limit for a test. Confirms negative values are rejected.");
  ("CreateTest_NullDescription_ShouldWork",
   "Creates a test with a null description field. Confirms null descriptions are handled properly.");
  ("CreateTest_SpecialCharactersInTitle_ShouldWork",
   "Creates a test with special characters in the title. Confirms they are handled correctly.");
  ("CreateTest_UnicodeCharactersInTitle_ShouldWork",
   "Creates a test with Unicode characters in the title. Confirms international characters are supported.");
  ("CreateTest_VeryLargeTimeLimit_ShouldHandleGracefully",
   "Submits a test with an extremely large time limit. Confirms the API handles edge values appropriately.");
  ("CreateTest_VeryLongPassword_ShouldHandleGracefully",
   "Creates a test with an extremely long password. Confirms the API handles long input gracefully.");
  ("CreateTest_VeryLongTitle_ShouldHandleGracefully",
   "Submits a test with a very long title. Confirms length limits are enforced or handled.");
  ("CreateTest_WhitespaceOnlyTitle_ShouldFail",
   "Attempts to create a test with only whitespace in the title. Confirms validation rejects it.");
  ("CreateTest_ZeroMaxAttempts_ShouldFail",
   "Tries to set max attempts to zero. Confirms zero is rejected as invalid.");
  ("CreateTest_ZeroTimeLimit_ShouldBeAllowed",
   "Creates a test with zero time limit (untimed). Confirms zero is accepted to mean no time limit.");
  ("GetTest_InvalidSlugFormat_Returns404",
   "Requests a test with a malformed slug. Confirms a 404 response.");
  ("GetTest_NonExistentSlug_Returns404",
   "Attempts to fetch a test that doesn't exist. Confirms a 404 response.");
  ("GetTest_VeryLongSlug_ShouldHandleGracefully",
   "Requests a test with an extremely long slug. Confirms the API handles it without errors.");
  ("Register_EmailWithDots_ShouldWork",
   "Registers with an email containing dots. Confirms dot notation in emails is supported.");
  ("Register_EmailWithPlus_ShouldWork",
   "Registers with an email containing a plus sign. Confirms plus-addressing is supported.");
  ("Register_EmailWithSubdomain_ShouldWork",
   "Registers with an email from a subdomain. Confirms various email formats are accepted.");
  ("Register_VeryLongEmail_ShouldHandleGracefully",
   "Attempts registration with an extremely long email address. Confirms length validation.");
  ("SaveAnswers_EmptyAnswersList_ShouldWork",
   "Saves a draft with an empty answers array. Confirms empty drafts are handled gracefully.");
  ("SubmitAttempt_NoAnswersSaved_ShouldScoreZero",
   "Submits an attempt without saving any answers. Confirms the score is 0%.");
  ("DeleteCompanyTest_AsAdmin_RemovesTestSuccessfully",
   "Admin user deletes a company-scoped test. Confirms successful deletion.");
  ("DeleteCompanyTest_AsNonMember_DeniesAccess",
   "Non-member attempts to delete a company test. Confirms access is denied.");
  ("GetCompanyTestDetail_AsMember_ReturnsTestData",
   "Company member fetches a company test. Confirms access is granted.");
  ("GetCompanyTestDetail_AsNonMember_DeniesAccess",
   "Non-member tries to view a company test. Confirms access is denied.");
  ("GetPublicTests_LinkOnlyTest_DoesNotAppearInList",
   "Creates a link-only test and fetches public tests list. Confirms link-only tests are excluded.");
  ("GetPublicTests_PublicTest_AppearsInList",
   "Creates a public test. Confirms it appears in the public tests listing.");
  ("GetPublicTests_Unauthenticated_Returns200",
   "Fetches public tests without authentication. Confirms the endpoint is publicly accessible.");
  ("GetQuestion_WithNonExistentId_ReturnsNotFound",
   "Requests a question by a non-existent ID. Confirms a 404 response.");
  ("GetQuestion_WithValidId_ReturnsQuestionData",
   "Fetches a question by valid ID. Confirms the question data is returned.");
  ("GetResultDetail_ByAuthor_ReturnsDetailedBreakdown",
   "Test author fetches detailed results. Confirms full breakdown is provided.");
  ("GetResultDetail_ByNonAuthor_DeniesAccess",
   "Non-author attempts to view detailed results. Confirms access is denied.");
  ("PatchCompanyTest_AsAdmin_UpdatesTestSuccessfully",
   "Admin user patches a company test. Confirms the update is successful.");
  ("PatchCompanyTest_AsNonMember_DeniesAccess",
   "Non-member attempts to patch a company test. Confirms access is denied.");
  ("RemoveMember_AsAdmin_RemovesMemberSuccessfully",
   "Admin removes a member from the company. Confirms the member is removed.");
  ("RemoveMember_LastAdmin_DeniesRemoval",
   "Attempts to remove the last admin from a company. Confirms the operation is blocked.");
  ("UpdateMemberRole_AsAdmin_ChangesRoleSuccessfully",
   "Admin changes a member's role. Confirms the role is updated.");
  ("UpdateMemberRole_ByNonAdmin_DeniesAccess",
   "Non-admin tries to change member roles. Confirms access is denied.");
  ("PatchCompany_ByNonMember_DeniesAccess",
   "Non-member attempts to patch company details. Confirms access is denied.");
  ("PatchCompany_Name_UpdatesNameSuccessfully",
   "Patches only the company name. Confirms the name is updated and other fields remain unchanged.");
  ("PatchFolder_MoveToParent_UpdatesParentSuccessfully",
   "Moves a folder to a different parent. Confirms the parent reference is updated.");
  ("PatchFolder_Name_UpdatesNameSuccessfully",
   "Patches only the folder name. Confirms the name is updated.");
  ("PatchProfile_BothNames_UpdatesBothFields",
   "Patches both first and last name. Confirms both fields are updated.");
  ("PatchProfile_FirstNameOnly_UpdatesFirstNamePreservesLastName",
   "Patches only first name. Confirms last name is preserved unchanged.");
  ("PatchProfile_LastNameOnly_UpdatesLastNamePreservesFirstName",
   "Patches only last name. Confirms first name is preserved unchanged.");
  ("PatchProfile_Unauthenticated_DeniesAccess",
   "Attempts to patch profile without authentication. Confirms access is denied.");
  ("PatchQuestion_ByNonOwner_DeniesAccess",
   "Non-owner tries to patch a question. Confirms access is denied.");
  ("PatchQuestion_TextOnly_UpdatesTextPreservesAnswers",
   "Patches only the question text. Confirms answers remain unchanged.");
  ("PatchTest_ByNonOwner_DeniesAccess",
   "Non-owner attempts to patch a test. Confirms access is denied.");
  ("PatchTest_TitleOnly_UpdatesTitlePreservesOtherFields",
   "Patches only the test title. Confirms all other fields remain unchanged.");
  ("PatchTest_Unauthenticated_DeniesAccess",
   "Attempts to patch a test without authentication. Confirms access is denied.");
  ("PatchTest_VisibilityOnly_UpdatesVisibilityPreservesTitle",
   "Patches only the visibility. Confirms title and other fields are preserved.");
  ("Latency_CreateTest_RespondsFast",
   "Creates a test and measures response time. Confirms it meets the SLA threshold.");
  ("Latency_GetAnalytics_RespondsFast",
   "Fetches analytics and measures latency. Confirms response time is within acceptable limits.");
  ("Latency_GetProfile_RespondsFast",
   "Retrieves user profile and verifies fast response time.");
  ("Latency_GetResults_RespondsFast",
   "Fetches test results and measures latency. Confirms it meets performance requirements.");
  ("Latency_GetTakeEndpoint_RespondsFast",
   "Accesses the take test endpoint and verifies response time is fast.");
  ("Latency_GetTestDetail_RespondsFast",
   "Fetches test details and confirms latency is within SLA.");
  ("Latency_ListTests_RespondsFast",
   "Lists all tests and measures response time. Confirms it meets performance standards.");
  ("Latency_Login_RespondsFast",
   "Performs login and verifies the response time is acceptable.");
  ("Latency_StartAttempt_RespondsFast",
   "Starts a test attempt and confirms fast response time.");
  ("Latency_SubmitAttempt_RespondsFast",
   "Submits a test attempt and measures latency. Confirms it meets SLA requirements.");
  ("Schema_AnalyticsResponse_HasRequiredFields",
   "Fetches analytics and validates the response schema contains all required fields.");
  ("Schema_AttemptResponse_HasRequiredFields",
   "Creates an attempt and validates the response includes all expected fields.");
  ("Schema_CompanyResponse_HasRequiredFields",
   "Fetches company data and confirms the schema matches expectations.");
  ("Schema_LoginResponse_HasRequiredFieldsOnly",
   "Performs login and validates the response contains required fields without leaking extra data.");
  ("Schema_QuestionResponse_HasRequiredFields",
   "Fetches question data and confirms the schema is correct.");
  ("Schema_ResultResponse_HasRequiredFields",
   "Retrieves results and validates all required fields are present.");
  ("Schema_TakeTestResponse_DoesNotLeakCorrectAnswers",
   "Fetches test via take endpoint and confirms correct answers are not exposed.");
  ("Schema_TestResponse_HasRequiredFields",
   "Fetches test details and validates the response schema.");
  ("Schema_UserResponse_HasRequiredFieldsOnly",
   "Retrieves user data and confirms only expected fields are returned without sensitive data leaks.");
  ("StressTest_ConcurrentTestCreations_HandlesLoad",
   "Simulates many users creating tests concurrently. Confirms the system handles the load.");
  ("StressTest_ConcurrentTestRetrieval_HandlesReadLoad",
   "Simulates concurrent test retrievals. Confirms read performance under high load.");
  ("StressTest_ConcurrentTestSubmissions_HandlesLoad",
   "Simulates many concurrent test submissions. Confirms the system remains stable.");
  ("StressTest_ConcurrentUserRegistrations_HandlesLoad",
   "Simulates high registration volume. Confirms the system handles concurrent user creation.");
  ("StressTest_MassQuestionCreation_HandlesLargeTests",
   "Creates a test with a very large number of questions. Confirms the system handles large datasets.");
  ("AccountCleanup_AllTrackedAccounts_DeletesSuccessfully",
   "Deletes all tracked test accounts. Confirms cleanup is successful.");
  ("AccountCleanup_WithCascadeData_DeletesEverything",
   "Deletes an account with associated data. Confirms cascade deletion works correctly.");
  ("Backend_BulkCleanupEndpoint_IfImplemented",
   "Tests the bulk cleanup endpoint if available in the backend.");
  ("Diagnostic_VerifyDeleteEndpoint_Works",
   "Verifies the delete endpoint is functioning correctly for diagnostic purposes.");
  ("ManualCleanup_AnalyzeTestData",
   "Analyzes test data for manual cleanup. Reports on data requiring cleanup.");
  ("ManualCleanup_DeleteAllTestData",
   "Deletes all test data for cleanup purposes. Confirms deletion is complete.");
  ("ManualCleanup_DeleteOldTestData_7Days",
   "Removes test data older than 7 days. Confirms old data is cleaned up.");
  ("ManualCleanup_DryRun",
   "Runs cleanup in dry-run mode. Reports what would be deleted without making changes.");
  ("Manual_CleanupAllTrackedAccounts",
   "Manually triggers cleanup of all tracked accounts.");
  ("Manual_CleanupOldAccounts",
   "Manually removes old test accounts created during testing.");
  ("Manual_CleanupPersistentUserTests_ByPattern",
   "Cleans up tests matching specific patterns. Confirms targeted cleanup works.");
  ("CompleteTestAuthorJourney_RegisterLoginCreateTestAddQuestionsPublish",
   "Tests complete test author journey from registration to publishing. Registers a new user, logs in, creates a test with 3 questions, and verifies the test is publicly accessible to anonymous users.");
  ("AuthorStudentLifecycle_AuthorCreatesStudentTakesAuthorViewsAnalytics",
   "Tests multi-user lifecycle with author and student interactions. Author creates a test, student takes it and submits an attempt, then author views analytics to confirm the attempt is recorded.");
  ("CompanyWorkflow_AdminCreatesInvitesMemberTakesTest",
   "Tests complete company collaboration workflow. Admin creates a company, creates a company test with questions, invites a member, member accepts and takes the test, then admin views analytics showing the member's attempt.");
  ("CrossCompanySecurity_UserBCannotAccessUserACompany",
   "Tests security boundaries between companies. User A creates a company and test, User B (not a member) attempts to access the company and test analytics, confirming both are properly denied.");
  ("PermissionFlow_StudentCannotCreateCompanyTests",
   "Tests role-based permission enforcement. Admin creates a company and invites a student, student accepts the invite, then attempts to create a company test and is properly denied due to insufficient permissions.")
].

(** [CLASS_DESCRIPTIONS] (class name to description). *)
Definition CLASS_DESCRIPTIONS : list (string * string) := [
  ("TestIT.ApiTests.Tests.AuthenticationTests",
   "Registration, login, token refresh and profile retrieval — covers the full authentication lifecycle and input-validation edge cases.");
  ("TestIT.ApiTests.Tests.TestsManagementTests",
   "CRUD operations on quizzes: create, list, fetch by slug, update, delete and add questions — plus auth-enforcement checks.");
  ("TestIT.ApiTests.Tests.QuestionManagementTests",
   "Editing, deleting and reordering questions within a test, including multi-select question creation.");
  ("TestIT.ApiTests.Tests.TestTakingTests",
   "The end-to-end test-taking flow: public and password-protected access, attempt lifecycle, draft saving, scoring and results retrieval.");
  ("TestIT.ApiTests.Tests.CompanyTests",
   "Company CRUD, member listing, company-scoped test listing and creation — plus an unauthenticated-access check.");
  ("TestIT.ApiTests.Tests.InviteTests",
   "Invite lifecycle: creation, duplicate detection, listing and the full accept flow that converts a pending invite into membership.");
  ("TestIT.ApiTests.Tests.FolderTests",
   "Folder CRUD within a company, including nested parent-child folder creation.");
  ("TestIT.ApiTests.Tests.AnalyticsTests",
   "Per-test analytics: empty-state reporting, post-submission stats and access-control enforcement.");
  ("TestIT.ApiTests.Tests.SecurityTests",
   "Input validation, SQL injection prevention, XSS protection, and authentication/authorization enforcement.");
  ("TestIT.ApiTests.Tests.DataIntegrityTests",
   "Scoring accuracy, immutability checks, and data consistency validation.");
  ("TestIT.ApiTests.Tests.EdgeCaseTests",
   "Boundary value testing, malformed input handling, and edge case scenarios.");
  ("TestIT.ApiTests.Tests.CoverageTests",
   "API surface area validation and authorization checks across endpoints.");
  ("TestIT.ApiTests.Tests.PatchTests",
   "PATCH endpoint testing for partial updates and field modifications.");
  ("TestIT.ApiTests.Tests.PerformanceTests",
   "Response latency SLA tests measuring API performance across different operation types.");
  ("TestIT.ApiTests.Tests.SchemaValidationTests",
   "API contract validation ensuring correct field types and absence of sensitive data leaks.");
  ("TestIT.ApiTests.Tests.StressTests",
   "Load testing and concurrency validation under high request volumes.")
].

(** One iteration of the loop over [root.findall(".//ns:UnitTestResult")]. *)
Definition parse_result (r : result_el) : option Test :=
  let out := match r_stdout r with
             | Some t => if String.eqb t "" then "" else str (strip (chars t))
             | None => ""
             end in
  let full_test_name := get_default (r_attrs r) "testName" "" in
  let method_name := snd (rsplit_dot (chars full_test_name)) in
  let test_description := table_get TEST_DESCRIPTIONS (str method_name) in
  let* dur := parse_duration (get_default (r_attrs r) "duration" "00:00:00.0000000") in
  Some (mk_Test full_test_name (get_default (r_attrs r) "outcome" "Unknown")
                dur test_description out).

Fixpoint parse_results (rs : list result_el) : option (list Test) :=
  match rs with
  | [] => Some []
  | r :: rs' =>
      let* t := parse_result r in
      let* ts := parse_results rs' in
      Some (t :: ts)
  end.

(* ------------------------------------------------------------------ *)
(** ** Grouping and ordering of classes

    An [OrderedDict] is an association list in insertion order. *)
Definition odict (V : Type) := list (string * V).

Fixpoint od_get {V} (k : string) (d : odict V) : option V :=
  match d with
  | [] => None
  | (k', v) :: r => if String.eqb k k' then Some v else od_get k r
  end.

Definition od_mem {V} (k : string) (d : odict V) : bool :=
  match od_get k d with Some _ => true | None => false end.

(** [d[k] = v]: an existing key keeps its position. *)
Fixpoint od_set {V} (k : string) (v : V) (d : odict V) : odict V :=
  match d with
  | [] => [(k, v)]
  | (k', v') :: r => if String.eqb k k' then (k', v) :: r else (k', v') :: od_set k v r
  end.

(** [d.setdefault(k, []).append(t)] *)
Fixpoint od_append (k : string) (t : Test) (d : odict (list Test)) : odict (list Test) :=
  match d with
  | [] => [(k, [t])]
  | (k', ts) :: r =>
      if String.eqb k k' then (k', (ts ++ [t])%list) :: r else (k', ts) :: od_append k t r
  end.

(** [for t in tests: classes.setdefault(t.class_name, []).append(t)] *)
Definition group_classes (tests : list Test) : odict (list Test) :=
  fold_left (fun d t => od_append (class_name t) t d) tests [].

Definition CLASS_ORDER : list string := [
  "TestIT.ApiTests.Tests.AuthenticationTests";
  "TestIT.ApiTests.Tests.TestsManagementTests";
  "TestIT.ApiTests.Tests.QuestionManagementTests";
  "TestIT.ApiTests.Tests.TestTakingTests";
  "TestIT.ApiTests.Tests.CompanyTests";
  "TestIT.ApiTests.Tests.InviteTests";
  "TestIT.ApiTests.Tests.FolderTests";
  "TestIT.ApiTests.Tests.AnalyticsTests";
  "TestIT.ApiTests.Tests.SecurityTests";
  "TestIT.ApiTests.Tests.DataIntegrityTests";
  "TestIT.ApiTests.Tests.EdgeCaseTests";
  "TestIT.ApiTests.Tests.CoverageTests";
  "TestIT.ApiTests.Tests.PatchTests";
  "TestIT.ApiTests.Tests.PerformanceTests";
  "TestIT.ApiTests.Tests.SchemaValidationTests";
  "TestIT.ApiTests.Tests.StressTests";
  "TestIT.ApiTests.Tests.CleanupTests"].

(** The two loops building [sorted_classes]. *)
Definition sort_classes (classes : odict (list Test)) : odict (list Test) :=
  let sorted1 :=
    fold_left (fun acc c => match od_get c classes with
                            | Some ts => od_set c ts acc
                            | None => acc
                            end) CLASS_ORDER [] in
  fold_left (fun acc '(c, ts) => if od_mem c acc then acc else od_set c ts acc)
            classes sorted1.

(** [classes] after sorting, the order in which sections are rendered. *)
Definition ordered_classes (tests : list Test) : odict (list Test) :=
  sort_classes (group_classes tests).

(* ------------------------------------------------------------------ *)
(** ** Counters and overall statistics *)

Record counters := { total_tests : Z; passed : Z; failed : Z; errors : Z; skipped : Z }.

Definition parse_counters (attrs : list (string * string)) : option counters :=
  let* t := py_int (chars (get_default attrs "total" "0")) in
  let* p := py_int (chars (get_default attrs "passed" "0")) in
  let* f := py_int (chars (get_default attrs "failed" "0")) in
  let* e := py_int (chars (get_default attrs "error" "0")) in
  let* s := py_int (chars (get_default attrs "notExecuted" "0")) in
  Some {| total_tests := t; passed := p; failed := f; errors := e; skipped := s |}.

(** [int / int] is correctly rounded; a result too large for a float
    raises OverflowError. *)
Definition int_truediv (a b : Z) : option Q :=
  match round64 (inject_Z a / inject_Z b) with Fin r => Some r | _ => None end.

(** [float * int] *)
Definition fmul_int (x : Q) (n : Z) : pyfloat := round64 (x * inject_Z n).

(** [pass_rate = (passed / total_tests * 100) if total_tests else 0.0] *)
Definition pass_rate (c : counters) : option pyfloat :=
  if (total_tests c =? 0)%Z then Some (Fin 0)
  else let* r := int_truediv (passed c) (total_tests c) in
       Some (fmul_int r 100).

(** [all_passed = (failed + errors) == 0] *)
Definition all_passed (c : counters) : bool := (failed c + errors c =? 0)%Z.

Definition C_GREEN_BG := "#2e7d32".
Definition C_RED_BG := "#c62828".

(** [summary_bg = C_GREEN_BG if all_passed else C_RED_BG] *)
Definition summary_bg (c : counters) : string :=
  if all_passed c then C_GREEN_BG else C_RED_BG.

(* ------------------------------------------------------------------ *)
(** ** HTML generation *)

(** The literal parts of the script's f-strings are written with [`]
    for a double quote and [~] for a newline (neither character occurs in
    the script); [dq] restores them. *)
Fixpoint dq (s : string) : string :=
  match s with
  | EmptyString => EmptyString
  | String c r =>
      String (if Ascii.eqb c "`" then chr 34 else if Ascii.eqb c "~" then nl else c)
             (dq r)
  end.

(** [html.escape(s)] (with [quote=True]). *)
Definition escape_char (c : ascii) : string :=
  if Ascii.eqb c "&" then "&amp;"
  else if Ascii.eqb c "<" then "&lt;"
  else if Ascii.eqb c ">" then "&gt;"
  else if Ascii.eqb c (chr 34) then "&quot;"
  else if Ascii.eqb c "'" then "&#x27;"
  else String c EmptyString.

Fixpoint html_escape (s : string) : string :=
  match s with
  | EmptyString => EmptyString
  | String c r => escape_char c ++ html_escape r
  end.

Definition CLASS_PREFIX := "TestIT.ApiTests.Tests.".

(** [short_class] *)
Definition short_class (name : string) : string :=
  if String.prefix CLASS_PREFIX name
  then substring (String.length CLASS_PREFIX) (String.length name) name
  else name.

Definition C_BG := "#eef0f3".
Definition C_WHITE := "#ffffff".
Definition C_TEXT := "#333".
Definition C_TEXT_LIGHT := "#777".
Definition C_BORDER := "#ddd".
Definition C_HEADER_BG := "#1a237e".
Definition C_GREEN_TEXT := "#1e8449".
Definition C_RED_TEXT := "#c0392b".
Definition C_ACCENT := "#1565c0".

(** [sum(...)] of floats, starting from the integer [0]. *)
Definition fsum (xs : list pyfloat) : pyfloat := fold_left fadd xs (Fin 0).

(** [x / n] for a float and a positive int. *)
Definition fdiv_int (x : pyfloat) (n : Z) : option pyfloat :=
  let* d := float_of_int n in
  Some (match x with
        | Fin q => round64 (q / d)
        | PInf s => PInf s
        | PNaN => PNaN
        end).

(** [sorted(test_list, key=lambda x: x.method_name)]: a stable sort. *)
Fixpoint insert_by_method (t : Test) (l : list Test) : list Test :=
  match l with
  | [] => [t]
  | u :: r => if String.ltb (method_name t) (method_name u) then t :: l
              else u :: insert_by_method t r
  end.

Definition sort_by_method (l : list Test) : list Test :=
  fold_right insert_by_method [] (rev l).

Definition is_passed (t : Test) : bool := String.eqb (outcome t) "Passed".

(** One test row of [class_table] (row [i] of class [class_index]). *)
Definition test_row (class_index : Z) (i : Z) (t : Test) : option string :=
  let* dur := fmt_dur (duration_sec t) in
  Some (String.concat "" [
    dq "<tr><td style=`padding:10px 14px 4px;vertical-align:top;`><div style=`font-weight:600;`><span style=`color:#546e7a;font-size:13px;margin-right:8px;`>";
    Z_str class_index; dq "."; Z_str i; dq "</span>";
    html_escape (method_name t); dq "</div>";
    (if String.eqb (description t) "" then ""
     else String.concat "" [
       dq "<div style=`font-size:13px;color:#666;margin-top:3px;`>";
       html_escape (description t); dq "</div>"]);
    dq "</td><td style=`padding:10px 14px 4px;vertical-align:top;font-weight:600;color:";
    (if is_passed t then C_GREEN_BG else C_RED_BG);
    dq ";white-space:nowrap;`>";
    html_escape (outcome t);
    dq "</td><td style=`padding:10px 14px 4px;vertical-align:top;text-align:right;color:#555;white-space:nowrap;`>";
    dur; dq "</td></tr>~";
    (if String.eqb (stdout t) "" then ""
     else String.concat "" [
       dq "<tr><td colspan=`3` style=`padding:0 14px 10px;`><details><summary style=`cursor:pointer;font-size:12px;color:#1565c0;font-weight:600;margin-top:4px;`>&#9654; Execution Log</summary><pre style=`margin:6px 0 0;padding:10px 14px;background:#f4f6f8;border:1px solid #dde1e6;border-radius:4px;font-size:11.5px;color:#37474f;line-height:1.8;overflow-x:auto;white-space:pre-wrap;`>";
       html_escape (stdout t); dq "</pre></details></td></tr>"])]).

Fixpoint test_rows (class_index : Z) (i : Z) (l : list Test) : option string :=
  match l with
  | [] => Some ""
  | t :: r =>
      let* row := test_row class_index i t in
      let* rest := test_rows class_index (i + 1) r in
      Some (row ++ rest)
  end.

(** [class_table] *)
Definition class_table (class_index : Z) (class_name : string) (test_list : list Test)
  : option string :=
  let short := html_escape (short_class class_name) in
  let count := Z.of_nat (length test_list) in
  let passed_count := Z.of_nat (length (filter is_passed test_list)) in
  let total_d := fsum (map duration_sec test_list) in
  let* rows := test_rows class_index 1 (sort_by_method test_list) in
  let* total_s := fmt_dur total_d in
  let class_desc := table_get CLASS_DESCRIPTIONS class_name in
  Some (String.concat "" [
    dq "<details style=`margin-bottom:10px;border:1px solid "; C_BORDER;
    dq ";border-radius:6px;overflow:hidden;`>~<summary style=`cursor:pointer;background:#f5f5f5;padding:12px 16px;font-weight:600;font-size:15px;display:flex;justify-content:space-between;align-items:center;list-style:none;-webkit-appearance:none;`>~  <span>&#9654; <span style=`color:#546e7a;`>";
    Z_str class_index; dq ".</span> "; short;
    dq "</span>~  <span style=`font-weight:400;color:"; C_TEXT_LIGHT;
    dq ";font-size:13px;`>"; Z_str passed_count; dq "/"; Z_str count;
    dq " &nbsp;|&nbsp; "; total_s; dq "</span>~</summary>~";
    (if String.eqb class_desc "" then ""
     else String.concat "" [
       dq "<div style=`padding:10px 16px 4px;background:#fff;border-bottom:1px solid #eee;`>~  <p style=`margin:0;font-size:13px;color:#555;font-style:italic;`>";
       class_desc; dq "</p>~</div>~"]);
    dq "<table style=`width:100%;border-collapse:collapse;`>~<thead><tr style=`background:#fafafa;border-bottom:2px solid #e8e8e8;`>~  <th style=`padding:8px 14px;text-align:left;font-size:12px;color:#888;font-weight:600;text-transform:uppercase;letter-spacing:.5px;`>Test</th>~  <th style=`padding:8px 14px;text-align:left;font-size:12px;color:#888;font-weight:600;text-transform:uppercase;letter-spacing:.5px;`>Result</th>~  <th style=`padding:8px 14px;text-align:right;font-size:12px;color:#888;font-weight:600;text-transform:uppercase;letter-spacing:.5px;`>Duration</th>~</tr></thead>~<tbody>~";
    rows; dq "</tbody>~</table>~</details>~"]).

(** [stat_card] *)
Definition stat_card (label value sub accent_color : string) : string :=
  String.concat "" [
    dq "<div style=`background:"; C_WHITE; dq ";border:1px solid "; C_BORDER;
    dq ";border-radius:10px;padding:18px 20px;flex:1 1 140px;max-width:240px;text-align:center;box-shadow:0 1px 3px rgba(0,0,0,0.06);`>~  <div style=`font-size:11px;text-transform:uppercase;letter-spacing:1px;color:";
    C_TEXT_LIGHT; dq ";margin-bottom:6px;`>"; label;
    dq "</div>~  <div style=`font-size:26px;font-weight:700;color:"; accent_color;
    dq ";`>"; value; dq "</div>~";
    (if String.eqb sub "" then ""
     else String.concat "" [
       dq "  <div style=`font-size:12px;color:"; C_TEXT_LIGHT; dq ";margin-top:4px;`>";
       sub; dq "</div>~"]);
    dq "</div>~"].

(** [max(tests, key=...)] keeps the first maximum ([>]);
    [min(tests, key=...)] the first minimum ([<]). *)
Definition max_by_duration (l : list Test) : option Test :=
  match l with
  | [] => None
  | t :: r => Some (fold_left (fun m u => if fgtb (duration_sec u) (duration_sec m) then u else m) r t)
  end.

Definition min_by_duration (l : list Test) : option Test :=
  match l with
  | [] => None
  | t :: r => Some (fold_left (fun m u => if fgtb (duration_sec m) (duration_sec u) then u else m) r t)
  end.

(** [dt.strftime("%Y-%m-%d %H:%M:%S")] on the datetime's own fields
    (glibc prints [%Y] without padding). *)
Definition strftime_ymd_hms (t : datetime) : string :=
  String.concat "" [Z_str (year t); "-"; fmt_02d (month t); "-"; fmt_02d (day t); " ";
                    fmt_02d (hour t); ":"; fmt_02d (minute t); ":"; fmt_02d (second t)].

(** [(b - a).total_seconds()] for aware datetimes. *)
Definition total_seconds_between (a b : datetime) : option pyfloat :=
  let* q := int_truediv (instant b - instant a) 1000000 in Some (Fin q).

Fixpoint class_tables (idx : Z) (cls : odict (list Test)) : option string :=
  match cls with
  | [] => Some ""
  | (c, ts) :: r =>
      let* s := class_table idx c ts in
      let* rest := class_tables (idx + 1) r in
      Some (s ++ rest)
  end.

(** A TRX document after XML parsing: the attributes of the [Times]
    element and of the first [Counters] element ([None] when the element
    is missing) and the [UnitTestResult] elements in document order. *)
Record trx := {
  times_el : option (list (string * string));
  counters_el : option (list (string * string));
  results : list result_el }.

(** The module body from [tree = ET.parse(TRX_PATH)] to [html_doc]: the
    report, or [None] when an exception escapes. *)
Definition html_doc (doc : trx) : option string :=
  let* times := times_el doc in
  let* start_s := attr_get times "start" in
  let* run_start := parse_iso_datetime start_s in
  let* finish_s := attr_get times "finish" in
  let* run_finish := parse_iso_datetime finish_s in
  let* run_duration_sec := total_seconds_between run_start run_finish in
  let* cattrs := counters_el doc in
  let* c := parse_counters cattrs in
  let* tests := parse_results (results doc) in
  let classes := ordered_classes tests in
  let* rate := pass_rate c in
  let slowest := max_by_duration tests in
  let fastest := min_by_duration tests in
  let* avg_dur := (match tests with
                   | [] => Some (Fin 0)
                   | _ => fdiv_int (fsum (map duration_sec tests)) (Z.of_nat (length tests))
                   end) in
  let* s_total := fmt_dur run_duration_sec in
  let* avg_per_test := (if (0 <? total_tests c)%Z then fdiv_int run_duration_sec (total_tests c)
                        else Some (Fin 0)) in
  let* s_avg_test := fmt_dur avg_per_test in
  let* s_classes := class_tables 1 classes in
  let* slow_val := (match slowest with Some t => fmt_dur (duration_sec t) | None => Some "—" end) in
  let slow_sub := match slowest with Some t => html_escape (method_name t) | None => "" end in
  let* fast_val := (match fastest with Some t => fmt_dur (duration_sec t) | None => Some "—" end) in
  let fast_sub := match fastest with Some t => html_escape (method_name t) | None => "" end in
  let* s_avg := fmt_dur avg_dur in
  Some (String.concat "" [
    dq "<!DOCTYPE html>~<html lang=`en`>~<head>~<meta charset=`utf-8` />~<meta name=`viewport` content=`width=device-width, initial-scale=1` />~<title>TestIT API Tests &#8212; Test Report</title>~<style>~  /* reset details/summary arrow across browsers */~  details > summary::-webkit-details-marker { display:none; }~  details > summary { list-style:none; }~  details[open] > summary > span:first-child { }~</style>~</head>~<body style=`margin:0;padding:0;background:";
    C_BG;
    dq ";font-family:'Segoe UI',system-ui,Arial,sans-serif;color:";
    C_TEXT;
    dq ";`>~~<!-- ============================================================~     HEADER (DARK BLUE)~     ============================================================ -->~<div style=`background:";
    C_HEADER_BG;
    dq ";color:#fff;padding:26px 40px 22px;`>~  <h1 style=`margin:0 0 6px;font-size:22px;font-weight:600;letter-spacing:.3px;`>~    TestIT API Tests &#8212; Test Report~  </h1>~  <p style=`margin:0;font-size:13px;opacity:.7;`>~    Started: ";
    strftime_ymd_hms run_start;
    dq " &nbsp;|&nbsp; Finished: ";
    strftime_ymd_hms run_finish;
    dq "~  </p>~</div>~~<!-- ============================================================~     SUMMARY BAR (GREEN/RED)~     ============================================================ -->~<div style=`background:";
    summary_bg c;
    dq ";color:#fff;padding:18px 40px;display:flex;gap:52px;flex-wrap:wrap;align-items:center;`>~  <div style=`text-align:center;`>~    <div style=`font-size:38px;font-weight:700;line-height:1;`>";
    Z_str (passed c);
    dq "/";
    Z_str (total_tests c);
    dq "</div>~    <div style=`font-size:12px;opacity:.85;margin-top:2px;text-transform:uppercase;letter-spacing:.8px;`>Tests Passed</div>~  </div>~  <div style=`text-align:center;`>~    <div style=`font-size:38px;font-weight:700;line-height:1;`>";
    fmt_float 0 rate;
    dq "%</div>~    <div style=`font-size:12px;opacity:.85;margin-top:2px;text-transform:uppercase;letter-spacing:.8px;`>Pass Rate</div>~  </div>~  <div style=`text-align:center;`>~    <div style=`font-size:38px;font-weight:700;line-height:1;`>";
    s_total;
    dq "</div>~    <div style=`font-size:12px;opacity:.85;margin-top:2px;text-transform:uppercase;letter-spacing:.8px;`>Total Duration</div>~  </div>~  <div style=`text-align:center;`>~    <div style=`font-size:38px;font-weight:700;line-height:1;`>";
    s_avg_test;
    dq "</div>~    <div style=`font-size:12px;opacity:.85;margin-top:2px;text-transform:uppercase;letter-spacing:.8px;`>Avg / Test</div>~  </div>~</div>~~<!-- ============================================================~     BODY / PER-CLASS BREAKDOWN~     ============================================================ -->~<div style=`max-width:960px;margin:30px auto;padding:0 20px;`>~  <h2 style=`font-size:17px;color:";
    C_HEADER_BG;
    dq ";margin-bottom:14px;`>~    Test Classes~  </h2>~  ";
    s_classes;
    dq "~</div>~~<!-- ============================================================~     OVERALL STATS~     ============================================================ -->~<div style=`max-width:960px;margin:32px auto 40px;padding:0 24px;`>~  <h2 style=`font-size:18px;font-weight:600;color:";
    C_TEXT;
    dq ";margin:0 0 16px;`>~    Overall Stats~  </h2>~  <div style=`display:flex;gap:16px;flex-wrap:wrap;`>~    ";
    stat_card "Slowest Test" slow_val slow_sub C_RED_TEXT;
    dq "~    ";
    stat_card "Fastest Test" fast_val fast_sub C_GREEN_TEXT;
    dq "~    ";
    stat_card "Avg Duration" s_avg ("across " ++ Z_str (Z.of_nat (length tests)) ++ " tests") C_ACCENT;
    dq "~  </div>~</div>~~<!-- ============================================================~     FOOTER~     ============================================================ -->~<div style=`border-top:1px solid ";
    C_BORDER;
    dq ";padding:16px 0;text-align:center;`>~  <span style=`font-size:12px;color:";
    C_TEXT_LIGHT;
    dq ";`>~    Report auto-generated &middot; source: results.trx~  </span>~</div>~~</body>~</html>~"]).

(* ------------------------------------------------------------------ *)
(** ** Command line *)

Definition DEFAULT_TRX_PATH := "/home/kolev95/examtest1/TestIT.ApiTests/results.trx".
Definition DEFAULT_HTML_PATH := "/home/kolev95/examtest1/TestIT.ApiTests/test-report.html".

(** [TRX_PATH, HTML_PATH] from [sys.argv] (program name first). *)
Definition paths (argv : list string) : string * string :=
  if (3 <=? length argv)%nat
  then (nth 1 argv "", nth 2 argv "")
  else (DEFAULT_TRX_PATH, DEFAULT_HTML_PATH).

(* ------------------------------------------------------------------ *)
(** ** Further code of the script *)

(** The method name as the results loop computes it for the description
    lookup: the last piece of [full_test_name.split] at the dots when the
    name contains a dot, the whole name otherwise. *)
Definition loop_method_name (l : list ascii) : list ascii :=
  if existsb is_dot l then last (split_on "." l) [] else l.

(** [outcome_badge] (defined by the script, not called by it): the
    outcome [Passed] is shown as is in green, any other outcome escaped
    in red. *)
Definition outcome_badge (outcome : string) : string :=
  if String.eqb outcome "Passed"
  then String.concat "" [dq "<span style=`font-weight:600;color:"; C_GREEN_BG; dq ";`>"; outcome; "</span>"]
  else String.concat "" [dq "<span style=`font-weight:600;color:"; C_RED_BG; dq ";`>"; html_escape outcome; "</span>"].

(* ================================================================== *)
(** * Predicates used in the statements *)

(** [q] is the value of a finite binary64 number, that is of a Python
    float: an integer of at most 53 bits times a power of two between
    [2^-1074] and [2^971]. *)
Definition is_double (q : Q) : Prop :=
  exists k e, (Z.abs k < 2 ^ 53)%Z /\ (-1074 <= e <= 971)%Z /\ (q == inject_Z k * pow2 e)%Q.

(** How [int(counters.get(k, "0"))] reads the attribute [k]: a
    missing attribute gives 0, a present one its integer value. *)
Definition counted (attrs : list (string * string)) (k : string) (n : Z) : Prop :=
  match attr_get attrs k with
  | None => n = 0%Z
  | Some v => py_int (chars v) = Some n
  end.

(** A test belongs to class [c]. *)
Definition of_class (c : string) (t : Test) : bool := String.eqb (class_name t) c.

(** The order of [sorted(..., key=lambda x: x.method_name)] on two tests. *)
Definition method_le (a b : Test) : Prop := String.leb (method_name a) (method_name b) = true.

Definition all_digits (l : list ascii) : bool := forallb is_digit l.

(** A duration field made of decimal digits only. *)
Definition unsigned_int_field (l : list ascii) : bool :=
  negb (Nat.eqb (length l) 0) && all_digits l.

(** A seconds field made of digits, optionally followed by a dot and
    more digits. *)
Definition unsigned_dec_field (l : list ascii) : bool :=
  negb (Nat.eqb (length (take_while is_digit l)) 0) &&
  match drop_while is_digit l with
  | [] => true
  | "."%char :: b => all_digits b
  | _ => false
  end.

(** A duration attribute whose first three colon-separated fields are
    unsigned numerals, as in ["00:00:00.0000000"]. *)
Definition unsigned_fields (s : string) : bool :=
  match split_on ":" (chars s) with
  | p0 :: p1 :: p2 :: _ =>
      unsigned_int_field p0 && unsigned_int_field p1 && unsigned_dec_field p2
  | _ => false
  end.

(** The text has a dot immediately followed by a digit, the start of a
    fractional-seconds part. *)
Fixpoint has_dot_digit (l : list ascii) : bool :=
  match l with
  | x :: ((y :: _) as t) => (Ascii.eqb x "." && is_digit y) || has_dot_digit t
  | _ => false
  end.

(** The matches of a pattern each consume a prefix of the input. *)
Definition consumes_prefix {A} (p : M A) : Prop :=
  forall s a r, In (a, r) (p s) -> exists pre, s = (pre ++ r)%list.

(** The end of a digit run for [int()] and [float()]: nothing, or a
    character that is neither a digit nor an underscore. *)
Definition stop (t : list ascii) : Prop :=
  match t with c :: _ => is_digit c = false /\ Ascii.eqb c "_" = false | [] => True end.

(** A float [x] with [x >= 0]. *)
Definition nnf (x : pyfloat) : Prop :=
  match x with Fin r => (0 <= r)%Q | PInf false => True | _ => False end.

(** Membership of a name in a list of names ([name in names]). *)
Definition mem (x : string) (l : list string) : bool := existsb (String.eqb x) l.

(** Modelled from the spec: the distinct names of [l] "in the order they
    were first encountered": each name is kept at its first occurrence and
    its later occurrences are dropped. *)
Fixpoint first_seen (l : list string) : list string :=
  match l with
  | [] => []
  | x :: r => x :: filter (fun y => negb (String.eqb y x)) (first_seen r)
  end.

(** One step of collecting distinct names in order: [x] is appended
    unless it is already there. *)
Definition add_new (ks : list string) (x : string) : list string :=
  if mem x ks then ks else (ks ++ [x])%list.

(** The opening of a script element, in lower case. *)
Definition script_tag : list ascii := chars "<script".

(** [p] is a prefix of [l] up to letter case. *)
Fixpoint ci_prefix (p l : list ascii) : bool :=
  match p, l with
  | [], _ => true
  | c :: p', d :: l' => Ascii.eqb (lower d) c && ci_prefix p' l'
  | _ :: _, [] => false
  end.

(** The text contains ["<script"] in any letter case, the start of a
    script element. *)
Fixpoint contains_script (l : list ascii) : bool :=
  match l with
  | [] => false
  | _ :: r => ci_prefix script_tag l || contains_script r
  end.

(** A scanner for ["<script"]: state [k < 7] counts the characters of
    the tag just read, state [7] means the tag has been seen. *)
Definition scan_step (k : nat) (c : ascii) : nat :=
  if (k =? 7)%nat then 7
  else if Ascii.eqb c "<" then 1
  else if (1 <=? k)%nat && Ascii.eqb (lower c) (nth k script_tag " "%char) then S k
  else 0.

Definition scan (k : nat) (l : list ascii) : nat := fold_left scan_step l k.

(** A text that leaves the scanner in its initial state. *)
Definition good (s : string) : Prop := scan 0 (chars s) = 0%nat.

(** A text without any ['<']. *)
Definition no_lt (s : string) : bool := forallb (fun c => negb (Ascii.eqb c "<")) (chars s).

(** The characters that [html.escape] replaces, apart from [&]: those
    that open or close a tag or an attribute value. *)
Definition markup_char (c : ascii) : bool :=
  Ascii.eqb c "<" || Ascii.eqb c ">" || Ascii.eqb c (chr 34) || Ascii.eqb c "'".

(* ================================================================== *)
(** * Sample inputs *)

(** A counters block with one not-executed test and nothing else. *)
Definition counters_with_skipped : counters :=
  {| total_tests := 1; passed := 0; failed := 0; errors := 0; skipped := 1 |}.

(** A result entry whose outcome is not one of the four usual ones. *)
Definition inconclusive_result : result_el :=
  {| r_attrs := [("testName", "Suite.Case"); ("outcome", "Inconclusive")];
     r_stdout := None |}.

(** A result entry whose duration has a sign. *)
Definition negative_duration_result : result_el :=
  {| r_attrs := [("testName", "Suite.Case"); ("outcome", "Passed");
                 ("duration", "-1:00:00")];
     r_stdout := None |}.

(** A result entry with an ordinary duration. *)
Definition plain_result : result_el :=
  {| r_attrs := [("testName", "Suite.Case"); ("outcome", "Passed");
                 ("duration", "00:01:02.5")];
     r_stdout := None |}.

(** A counters block with no passed test. *)
Definition counters_none_passed : counters :=
  {| total_tests := 5; passed := 0; failed := 5; errors := 0; skipped := 0 |}.

(** An inconsistent counters block: more passed tests than tests. *)
Definition counters_overfull : counters :=
  {| total_tests := 1; passed := 2; failed := 0; errors := 0; skipped := 0 |}.

(** A run with one test whose name and output carry a script element. *)
Definition script_doc : trx :=
  {| times_el := Some [("start", "2024-01-15T10:30:00.1234567+02:00");
                       ("finish", "2024-01-15T10:31:00.1234567+02:00")];
     counters_el := Some [("total", "1"); ("passed", "1")];
     results := [{| r_attrs := [("testName", "Suite.<script>alert(1)</script>");
                                ("outcome", "Passed"); ("duration", "00:00:01.5")];
                    r_stdout := Some "<SCRIPT>x</SCRIPT>" |}] |}.

(** A result entry whose log has surrounding blanks. *)
Definition logged_result : result_el :=
  {| r_attrs := [("testName", "Suite.Case"); ("outcome", "Passed");
                 ("duration", "00:00:01.5")];
     r_stdout := Some "  log line  " |}.

(** A result entry without a duration attribute. *)
Definition undated_result : result_el :=
  {| r_attrs := [("testName", "Suite.Case"); ("outcome", "Failed")];
     r_stdout := None |}.

(** A result entry whose duration is an infinite number of seconds. *)
Definition infinite_result : result_el :=
  {| r_attrs := [("testName", "Suite.Case"); ("outcome", "Passed");
                 ("duration", "0:0:inf")];
     r_stdout := None |}.

(** A complete document whose only result has an infinite duration. *)
Definition infinite_doc : trx :=
  {| times_el := Some [("start", "2024-01-15T10:30:00.0000000+02:00");
                       ("finish", "2024-01-15T10:31:00.0000000+02:00")];
     counters_el := Some [("total", "1"); ("passed", "1")];
     results := [infinite_result] |}.

(** Three tests, the last two equally slow. *)
Definition timed_tests : list Test :=
  [mk_Test "Suite.Fast" "Passed" (Fin 1) "" "";
   mk_Test "Suite.Slow" "Passed" (Fin 5) "" "";
   mk_Test "Suite.Also" "Passed" (Fin 5) "" ""].

(** A counters block whose total is not a number. *)
Definition bad_counters : list (string * string) := [("total", "abc"); ("passed", "1")].

(** A counters block without its [notExecuted] attribute. *)
Definition partial_counters : list (string * string) :=
  [("total", "3"); ("passed", "2"); ("failed", "1"); ("error", "0")].

(* ================================================================== *)
(** * Properties *)

(* ------------------------------------------------------------------ *)
(** ** Command line *)

(** Claim C9: with fewer than two positional arguments ([sys.argv] has
    fewer than three entries), both paths are the built-in defaults; a
    single argument does not override the input path. *)
Theorem paths_defaults_below_two_args :
  forall (prog : string) (args : list string),
    (length args < 2)%nat ->
    paths (prog :: args) = (DEFAULT_TRX_PATH, DEFAULT_HTML_PATH).
Proof.
  intros prog args Hlen. unfold paths. simpl length.
  destruct (Nat.leb_spec 3 (S (length args))) as [H | H]; [lia | reflexivity].
Qed.

Lemma paths_defaults_below_two_args_witness :
  (length ["results.trx"] < 2)%nat /\
  paths ["generate_report.py"; "results.trx"] = (DEFAULT_TRX_PATH, DEFAULT_HTML_PATH).
Proof.
  split; [simpl; lia | apply paths_defaults_below_two_args; simpl; lia].
Defined.

(* ------------------------------------------------------------------ *)
(** ** Summary colour *)

(** Claim C2 fails: a run with a not-executed test and no failure or
    error gets the green summary although not every non-Passed count is
    zero. *)
Lemma summary_bg_ignores_skipped :
  ~ (forall c : counters,
        summary_bg c = C_GREEN_BG <->
        (failed c = 0 /\ errors c = 0 /\ skipped c = 0)%Z).
Proof.
  intros H. destruct (H counters_with_skipped) as [H1 _].
  assert (Hg : summary_bg counters_with_skipped = C_GREEN_BG) by reflexivity.
  destruct (H1 Hg) as [_ [_ Hs]]. discriminate Hs.
Qed.

(** Claim C2 as the code has it: the summary is green exactly when
    [failed + error = 0], red otherwise; for non-negative counters this
    is "failed and error are both zero"; the notExecuted count plays no
    part. *)
Theorem summary_bg_spec :
  forall c : counters,
    (summary_bg c = C_GREEN_BG <-> (failed c + errors c = 0)%Z) /\
    (summary_bg c = C_RED_BG <-> (failed c + errors c <> 0)%Z) /\
    ((0 <= failed c)%Z -> (0 <= errors c)%Z ->
       summary_bg c = C_GREEN_BG <-> (failed c = 0 /\ errors c = 0)%Z) /\
    (forall s, summary_bg {| total_tests := total_tests c; passed := passed c;
                             failed := failed c; errors := errors c;
                             skipped := s |} = summary_bg c).
Proof.
  intros c. unfold summary_bg, all_passed; simpl.
  destruct (Z.eqb_spec (failed c + errors c) 0) as [E | E];
    repeat split; intros; try reflexivity; try discriminate; try lia.
Qed.

Lemma summary_bg_spec_witness :
  summary_bg {| total_tests := 3; passed := 3; failed := 0; errors := 0; skipped := 0 |}
  = C_GREEN_BG.
Proof.
  apply (proj1 (proj2 (proj2 (summary_bg_spec
    {| total_tests := 3; passed := 3; failed := 0; errors := 0; skipped := 0 |})))
    ltac:(simpl; lia) ltac:(simpl; lia)).
  simpl; lia.
Defined.

(* ------------------------------------------------------------------ *)
(** ** Outcome strings *)

(** Claim C3 fails: an unrecognised outcome string is kept as it is. *)
Lemma unrecognised_outcome_kept :
  ~ (forall (r : result_el) (t : Test) (o : string),
        attr_get (r_attrs r) "outcome" = Some o ->
        o <> "Passed" -> o <> "Failed" -> o <> "Error" -> o <> "NotExecuted" ->
        parse_result r = Some t -> outcome t = "Unknown").
Proof.
  intros H.
  assert (E : outcome (match parse_result inconclusive_result with
                       | Some t => t | None => mk_Test "" "" PNaN "" "" end)
              = "Inconclusive") by (vm_compute; reflexivity).
  rewrite (H inconclusive_result _ "Inconclusive") in E;
    [discriminate | reflexivity | discriminate .. | vm_compute; reflexivity].
Qed.

(** Claim C3 as the code has it: the outcome attribute is stored
    verbatim, and "Unknown" only when the attribute is absent; the
    outcome never makes an entry fail (only its duration can). *)
Theorem parse_result_outcome :
  forall r : result_el,
    option_map outcome (parse_result r) =
    option_map (fun _ => match attr_get (r_attrs r) "outcome" with
                         | Some o => o | None => "Unknown" end)
               (parse_duration (get_default (r_attrs r) "duration" "00:00:00.0000000")).
Proof.
  intros r. unfold parse_result, get_default at 3.
  destruct (parse_duration _); simpl; [|reflexivity].
  unfold mk_Test. destruct (rsplit_dot _). reflexivity.
Qed.

(* ------------------------------------------------------------------ *)
(** ** Rounding *)

Section Rounding.
Local Open Scope Q_scope.

Lemma pow2_Qpower k : pow2 k == (2 # 1) ^ k.
Proof.
  unfold pow2. destruct (Z.leb_spec 0 k) as [H|H].
  - apply Zpower_Qpower; lia.
  - assert (Hp : (0 < 2 ^ (- k))%Z) by (apply Z.pow_pos_nonneg; lia).
    replace k with (- (- k))%Z at 2 by lia.
    rewrite Qpower_opp. rewrite <- (Zpower_Qpower 2 (- k)) by lia.
    destruct (2 ^ (- k))%Z eqn:E; try lia. simpl. reflexivity.
Qed.

Lemma pow2_pos k : 0 < pow2 k.
Proof. rewrite pow2_Qpower. apply Qpower_0_lt. reflexivity. Qed.

Lemma pow2_add a b : pow2 (a + b) == pow2 a * pow2 b.
Proof. rewrite !pow2_Qpower. apply Qpower_plus. discriminate. Qed.

Lemma pow2_le a b : (a <= b)%Z -> pow2 a <= pow2 b.
Proof. intros H. rewrite !pow2_Qpower. apply Qpower_le_compat_l; [lia | discriminate]. Qed.

Lemma pow2_nonneg_Z k : (0 <= k)%Z -> pow2 k = inject_Z (2 ^ k).
Proof. intros H. unfold pow2. destruct (Z.leb_spec 0 k); [reflexivity | lia]. Qed.

Lemma flog2_lower q : 0 < q -> pow2 (flog2 q) <= q.
Proof.
  intros Hq. unfold flog2.
  destruct (Qle_bool (pow2 _) q) eqn:E; [apply Qle_bool_iff; exact E|].
  destruct q as [n d]. simpl Qnum; simpl Qden.
  assert (Hn : (0 < n)%Z).
  { unfold Qlt in Hq; simpl in Hq; lia. }
  set (a := Z.log2 n). set (b := Z.log2 (Z.pos d)).
  destruct (Z.log2_spec n Hn) as [Ha1 _].
  destruct (Z.log2_spec (Z.pos d) ltac:(lia)) as [_ Hb2].
  fold a in Ha1. fold b in Hb2.
  assert (Ha0 : (0 <= a)%Z) by (apply Z.log2_nonneg).
  assert (Hb0 : (0 <= b)%Z) by (apply Z.log2_nonneg).
  rewrite Qmake_Qdiv. apply Qle_shift_div_l; [reflexivity|].
  apply Qle_trans with (pow2 (a - b - 1) * pow2 (Z.succ b)).
  - apply Qmult_le_l; [apply pow2_pos|].
    rewrite pow2_nonneg_Z by lia. rewrite <- Zle_Qle. lia.
  - rewrite <- pow2_add. replace (a - b - 1 + Z.succ b)%Z with a by lia.
    rewrite pow2_nonneg_Z by lia. rewrite <- Zle_Qle. exact Ha1.
Qed.

Lemma qltb_iff a b : qltb a b = true <-> a < b.
Proof.
  unfold qltb. rewrite negb_true_iff. split.
  - intros H. apply Qnot_le_lt. intros H'. apply Qle_bool_iff in H'. congruence.
  - intros H. destruct (Qle_bool b a) eqn:E; [|reflexivity].
    apply Qle_bool_iff in E. exfalso. apply (Qlt_not_le _ _ H E).
Qed.

Lemma qltb_false a b : qltb a b = false <-> b <= a.
Proof.
  unfold qltb. rewrite negb_false_iff. apply Qle_bool_iff.
Qed.

Lemma rne_cases x : rne x = Qfloor x \/ rne x = (Qfloor x + 1)%Z.
Proof.
  unfold rne. destruct (qltb _ _); [auto|]. destruct (qltb _ _); [auto|].
  destruct (Z.even _); auto.
Qed.

Lemma rne_bounds x : x - 1 <= inject_Z (rne x) /\ inject_Z (rne x) <= x + 1.
Proof.
  pose proof (Qfloor_le x). pose proof (Qlt_floor x).
  rewrite inject_Z_plus in H0.
  change (inject_Z 1) with 1 in H0.
  destruct (rne_cases x) as [E|E]; rewrite E; [|rewrite inject_Z_plus; change (inject_Z 1) with 1]; split; lra.
Qed.

Lemma rne_nonneg x : 0 <= x -> (0 <= rne x)%Z.
Proof.
  intros H. assert (0 <= Qfloor x)%Z.
  { change 0%Z with (Qfloor (inject_Z 0)). apply Qfloor_resp_le. exact H. }
  destruct (rne_cases x); lia.
Qed.

Lemma rne_le_int x k : x <= inject_Z k -> (rne x <= k)%Z.
Proof.
  intros H. assert (Hf : (Qfloor x <= k)%Z).
  { rewrite <- (Qfloor_Z k). apply Qfloor_resp_le. exact H. }
  destruct (Z.eq_dec (Qfloor x) k) as [Ek|Ek]; [|destruct (rne_cases x); lia].
  pose proof (Qfloor_le x). rewrite Ek in H0.
  assert (Hr : x - inject_Z (Qfloor x) == 0) by (rewrite Ek; lra).
  unfold rne. 
  assert (qltb (x - inject_Z (Qfloor x)) (1 # 2) = true) as ->.
  { apply qltb_iff. rewrite Hr. reflexivity. }
  lia.
Qed.

Lemma pow2_opp k : pow2 (- k) == / pow2 k.
Proof. rewrite !pow2_Qpower. apply Qpower_opp. Qed.

Lemma div_pow2 x k : x / pow2 k == x * pow2 (- k).
Proof. unfold Qdiv. rewrite pow2_opp. reflexivity. Qed.

Lemma round64q_parts q :
  ~ q == 0 ->
  exists e, (-1074 <= e)%Z /\ (e <= Z.max (-1074) (flog2 (Qabs q) - 52))%Z /\
    (e = -1074 \/ e = flog2 (Qabs q) - 52)%Z /\
    round64q q = (let r := inject_Z (rne (Qabs q / pow2 e)) * pow2 e in
                  if qltb q 0 then - r else r).
Proof.
  intros Hq. unfold round64q.
  destruct (Qeq_bool q 0) eqn:E; [apply Qeq_bool_iff in E; contradiction|].
  exists (Z.max (-1074) (flog2 (Qabs q) - 52)). repeat split; try lia.
Qed.

Lemma round64q_mag_nonneg q e :
  0 <= inject_Z (rne (Qabs q / pow2 e)) * pow2 e.
Proof.
  apply Qmult_le_0_compat; [|apply Qlt_le_weak, pow2_pos].
  change (inject_Z 0 <= inject_Z (rne (Qabs q / pow2 e))).
  rewrite <- Zle_Qle. apply rne_nonneg.
  apply Qle_shift_div_l; [apply pow2_pos|]. rewrite Qmult_0_l. apply Qabs_nonneg.
Qed.

Lemma round64q_nonneg q : 0 <= q -> 0 <= round64q q.
Proof.
  intros H. destruct (Qeq_dec q 0) as [E|E].
  - unfold round64q. rewrite (Qeq_eq_bool _ _ E). apply Qle_refl.
  - destruct (round64q_parts q E) as [e [_ [_ [_ ->]]]]. cbv zeta.
    assert (qltb q 0 = false) as -> by (apply qltb_false; exact H).
    apply round64q_mag_nonneg.
Qed.

Lemma round64q_le_int q N :
  0 <= q -> q <= inject_Z N -> (N < 2 ^ 53)%Z -> round64q q <= inject_Z N.
Proof.
  intros H0 HN HB. destruct (Qeq_dec q 0) as [E|E].
  - unfold round64q. rewrite (Qeq_eq_bool _ _ E). lra.
  - destruct (round64q_parts q E) as [e [He1 [He2 [He3 ->]]]]. cbv zeta.
    assert (qltb q 0 = false) as -> by (apply qltb_false; exact H0).
    assert (Ha : Qabs q == q) by (apply Qabs_pos; exact H0).
    assert (Hpos : 0 < Qabs q) by (rewrite Ha; apply Qle_lt_or_eq in H0;
                                  destruct H0 as [H0|H0]; [exact H0|];
                                  exfalso; apply E; symmetry; exact H0).
    assert (Hf : (flog2 (Qabs q) <= 52)%Z).
    { destruct (Z.le_gt_cases (flog2 (Qabs q)) 52) as [L|L]; [exact L|].
      exfalso. pose proof (flog2_lower _ Hpos).
      pose proof (pow2_le 53 (flog2 (Qabs q)) ltac:(lia)).
      rewrite pow2_nonneg_Z in H1 by lia.
      assert (inject_Z (2 ^ 53) <= inject_Z N) by lra.
      rewrite <- Zle_Qle in H2. lia. }
    assert (Hle : (rne (Qabs q / pow2 e) <= N * 2 ^ (- e))%Z).
    { apply rne_le_int. rewrite div_pow2, inject_Z_mult.
      rewrite <- pow2_nonneg_Z by lia.
      apply Qmult_le_compat_r; [lra | apply Qlt_le_weak, pow2_pos]. }
    apply Qle_trans with (inject_Z (N * 2 ^ (- e)) * pow2 e).
    + apply Qmult_le_compat_r; [rewrite <- Zle_Qle; exact Hle | apply Qlt_le_weak, pow2_pos].
    + rewrite inject_Z_mult. rewrite <- pow2_nonneg_Z by lia.
      rewrite <- Qmult_assoc, <- pow2_add. replace (- e + e)%Z with 0%Z by lia.
      change (pow2 0) with 1. lra.
Qed.

Lemma round64q_abs_le q : Qabs (round64q q) <= 2 * Qabs q + 1.
Proof.
  destruct (Qeq_dec q 0) as [E|E].
  - unfold round64q. rewrite (Qeq_eq_bool _ _ E). simpl. pose proof (Qabs_nonneg q). lra.
  - destruct (round64q_parts q E) as [e [He1 [He2 [He3 ->]]]]. cbv zeta.
    set (r := inject_Z (rne (Qabs q / pow2 e)) * pow2 e).
    assert (Hr0 : 0 <= r) by apply round64q_mag_nonneg.
    assert (Hpos : 0 < Qabs q).
    { pose proof (Qabs_nonneg q). apply Qle_lt_or_eq in H. destruct H as [H|H]; [exact H|].
      exfalso. apply E. revert H. apply (Qabs_case q (fun a => 0 == a -> q == 0)); intros; lra. }
    assert (Hp : pow2 e <= Qabs q + 1).
    { destruct He3 as [He3|He3]; subst e.
      - pose proof (pow2_le (-1074) 0 ltac:(lia)). change (pow2 0) with 1 in H. lra.
      - pose proof (pow2_le (flog2 (Qabs q) - 52) (flog2 (Qabs q)) ltac:(lia)).
        pose proof (flog2_lower _ Hpos). lra. }
    assert (Hr : r <= Qabs q + pow2 e).
    { unfold r. destruct (rne_bounds (Qabs q / pow2 e)) as [_ Hb].
      apply Qle_trans with ((Qabs q / pow2 e + 1) * pow2 e).
      - apply Qmult_le_compat_r; [exact Hb | apply Qlt_le_weak, pow2_pos].
      - assert (~ pow2 e == 0) by (pose proof (pow2_pos e); intros Hc; rewrite Hc in H; discriminate).
        field_simplify; [lra | exact H]. }
    destruct (qltb q 0); [rewrite Qabs_opp|]; rewrite Qabs_pos by exact Hr0; lra.
Qed.

Lemma round64_range q N :
  0 <= q -> q <= inject_Z N -> (N < 2 ^ 53)%Z ->
  exists r, round64 q = Fin r /\ 0 <= r /\ r <= inject_Z N.
Proof.
  intros H0 H1 HB. pose proof (round64q_nonneg q H0) as R0.
  pose proof (round64q_le_int q N H0 H1 HB) as R1.
  unfold round64. destruct (Qle_bool _ _) eqn:E.
  - exfalso. apply Qle_bool_iff in E. rewrite Qabs_pos in E by exact R0.
    unfold max_float_bound in E.
    assert (inject_Z (2 ^ 1024) <= inject_Z N) by lra.
    rewrite <- Zle_Qle in H. assert (2 ^ 53 < 2 ^ 1024)%Z by (vm_compute; reflexivity). lia.
  - exists (round64q q). auto.
Qed.

Lemma round64_zero q : q == 0 -> round64 q = Fin 0.
Proof.
  intros H. unfold round64, round64q. rewrite (Qeq_eq_bool _ _ H). reflexivity.
Qed.

(** Claim C1 fails: a run where no test passed has a rate of 0 although
    its total is not 0. *)
Lemma pass_rate_zero_with_tests :
  ~ (forall (c : counters) (r : Q), pass_rate c = Some (Fin r) ->
       (0 <= r /\ r <= 100) /\ (r == 0 <-> total_tests c = 0%Z)).
Proof.
  intros H. destruct (H counters_none_passed 0) as [_ [H1 _]].
  - vm_compute. reflexivity.
  - specialize (H1 (Qeq_refl 0)). discriminate H1.
Qed.

(** Claim C1 as the code has it: the rate is 0 when the total is 0 (no
    division takes place) and also when no test passed; whenever
    [0 <= passed <= total] the division and the multiplication are
    defined and the rate lies in [0, 100]; for inconsistent counters it
    can leave that range (2 passed out of 1 gives 200). *)
Theorem pass_rate_spec :
  forall c : counters,
    (total_tests c = 0%Z -> pass_rate c = Some (Fin 0)) /\
    (passed c = 0%Z -> pass_rate c = Some (Fin 0)) /\
    ((0 <= passed c <= total_tests c)%Z ->
       exists r, pass_rate c = Some (Fin r) /\ 0 <= r /\ r <= 100) /\
    (exists r, pass_rate counters_overfull = Some (Fin r) /\ r == 200).
Proof.
  intros c. unfold pass_rate. repeat split.
  - intros H. rewrite H. reflexivity.
  - intros H. destruct (total_tests c =? 0)%Z; [reflexivity|].
    unfold int_truediv. rewrite H.
    rewrite round64_zero by (unfold Qdiv; rewrite Qmult_0_l; reflexivity).
    reflexivity.
  - intros [Hp Ht]. destruct (Z.eqb_spec (total_tests c) 0) as [E|E].
    + exists 0. split; [reflexivity | lra].
    + assert (Htp : 0 < inject_Z (total_tests c)).
      { change 0 with (inject_Z 0). rewrite <- Zlt_Qlt. lia. }
      destruct (round64_range (inject_Z (passed c) / inject_Z (total_tests c)) 1)
        as [r [Er [Hr0 Hr1]]].
      * apply Qle_shift_div_l; [exact Htp|]. rewrite Qmult_0_l.
        change 0 with (inject_Z 0). rewrite <- Zle_Qle. exact Hp.
      * apply Qle_shift_div_r; [exact Htp|]. rewrite Qmult_1_l.
        rewrite <- Zle_Qle. exact Ht.
      * reflexivity.
      * unfold int_truediv. rewrite Er. simpl.
        destruct (round64_range (r * inject_Z 100) 100) as [r' [Er' [H0 H1]]].
        -- apply Qmult_le_0_compat; [exact Hr0 | discriminate].
        -- change (inject_Z 1) with 1 in Hr1. change (inject_Z 100) with (100 # 1). lra.
        -- reflexivity.
        -- exists r'. unfold fmul_int. rewrite Er'. auto.
  - eexists. split; [vm_compute; reflexivity | reflexivity].
Qed.

End Rounding.

Lemma pass_rate_spec_witness :
  exists r, pass_rate counters_none_passed = Some (Fin r) /\ (0 <= r)%Q /\ (r <= 100)%Q.
Proof.
  apply (proj1 (proj2 (proj2 (pass_rate_spec counters_none_passed)))).
  simpl; lia.
Defined.

(* ------------------------------------------------------------------ *)
(** ** Durations *)

Lemma digit_not_space c : is_digit c = true -> is_space c = false.
Proof.
  unfold is_digit, is_space. set (n := nat_of_ascii c).
  destruct (Nat.leb_spec 48 n), (Nat.leb_spec n 57), (Nat.leb_spec 9 n),
    (Nat.leb_spec n 13), (Nat.leb_spec 28 n), (Nat.leb_spec n 32);
    simpl; intros; try discriminate; try reflexivity; lia.
Qed.

Lemma drop_while_head p l :
  match l with c :: _ => p c = false | [] => True end -> drop_while p l = l.
Proof. destruct l as [|c r]; simpl; [reflexivity|]. intros H; rewrite H; reflexivity. Qed.

Lemma strip_no_space l :
  forallb (fun c => negb (is_space c)) l = true -> strip l = l.
Proof.
  intros H. unfold strip.
  rewrite (drop_while_head is_space l).
  - rewrite (drop_while_head is_space (rev l)); [apply rev_involutive|].
    destruct (rev l) as [|c r] eqn:E; [exact I|].
    assert (Hc : In c l) by (apply in_rev; rewrite E; left; reflexivity).
    rewrite forallb_forall in H. specialize (H c Hc). destruct (is_space c); [discriminate|reflexivity].
  - destruct l as [|c r]; [exact I|]. simpl in H.
    destruct (is_space c); [discriminate|reflexivity].
Qed.

Lemma take_sign_digit d r : is_digit d = true -> take_sign (d :: r) = (1%Z, d :: r).
Proof. destruct d as [[] [] [] [] [] [] [] []]; try discriminate; reflexivity. Qed.

Lemma digits_rest_app a t v n :
  all_digits a = true -> (0 <= v)%Z -> stop t ->
  exists v', digits_rest (a ++ t) v n = (v', (n + length a)%nat, t) /\ (0 <= v')%Z.
Proof.
  revert v n. induction a as [|d a IH]; intros v n Ha Hv Ht; simpl.
  - exists v. split; [|exact Hv]. rewrite Nat.add_0_r.
    destruct t as [|c r]; [reflexivity|]. destruct Ht as [H1 H2]. simpl. rewrite H1, H2. reflexivity.
  - simpl in Ha. apply andb_true_iff in Ha as [Hd Ha]. rewrite Hd.
    destruct (IH (v * 10 + digit_val d)%Z (S n) Ha) as [v' [E Hv']]; [unfold digit_val; lia | exact Ht |].
    exists v'. rewrite E. split; [f_equal; f_equal; lia | exact Hv'].
Qed.

Lemma digitpart_opt_app a t :
  all_digits a = true -> stop t ->
  exists iv, digitpart_opt (a ++ t) = (iv, length a, t) /\ (0 <= iv)%Z.
Proof.
  intros Ha Ht. destruct a as [|d a].
  - exists 0%Z. split; [|lia]. destruct t as [|c r]; [reflexivity|].
    destruct Ht as [H1 _]. unfold digitpart_opt, digitpart. simpl. rewrite H1. reflexivity.
  - simpl in Ha. apply andb_true_iff in Ha as [Hd Ha].
    destruct (digits_rest_app a t (digit_val d) 1 Ha) as [v [E Hv]]; [unfold digit_val; lia | exact Ht |].
    exists v. unfold digitpart_opt, digitpart. simpl. rewrite Hd, E. auto.
Qed.

Lemma py_int_digits l :
  unsigned_int_field l = true -> exists v, py_int l = Some v /\ (0 <= v)%Z.
Proof.
  unfold unsigned_int_field. intros H. apply andb_true_iff in H as [Hl Ha].
  destruct l as [|d r]; [discriminate|].
  unfold py_int. rewrite strip_no_space.
  2:{ unfold all_digits in Ha. apply forallb_forall. intros c Hc.
      rewrite forallb_forall in Ha. rewrite (digit_not_space c (Ha c Hc)). reflexivity. }
  simpl in Ha. apply andb_true_iff in Ha as [Hd Ha].
  rewrite (take_sign_digit d r Hd).
  destruct (digits_rest_app r [] (digit_val d) 1 Ha) as [v [E Hv]]; [unfold digit_val; lia | exact I |].
  rewrite app_nil_r in E. exists v. simpl. rewrite Hd, E. split; [destruct v; reflexivity | exact Hv].
Qed.

Lemma lb_digit d x :
  is_digit d = true ->
  ((str (lowers (d :: x)) =? "inf") || (str (lowers (d :: x)) =? "infinity")) = false /\
  (str (lowers (d :: x)) =? "nan") = false.
Proof. destruct d as [[] [] [] [] [] [] [] []]; try discriminate; split; reflexivity. Qed.

Lemma take_drop_while p l : (take_while p l ++ drop_while p l)%list = l.
Proof. induction l as [|c r IH]; simpl; [reflexivity|]. destruct (p c); simpl; congruence. Qed.

Lemma take_while_all p l : forallb p (take_while p l) = true.
Proof. induction l as [|c r IH]; simpl; [reflexivity|]. destruct (p c) eqn:E; simpl; [rewrite E; exact IH | reflexivity]. Qed.

Lemma round64_nnf q : (0 <= q)%Q -> nnf (round64 q).
Proof.
  intros H. unfold round64. destruct (Qle_bool _ _).
  - assert (qltb q 0 = false) as -> by (apply qltb_false; exact H). exact I.
  - apply round64q_nonneg. exact H.
Qed.

Lemma fadd_nnf a b : nnf a -> nnf b -> nnf (fadd a b).
Proof.
  destruct a as [x|[]|], b as [y|[]|]; simpl; try tauto.
  intros. apply round64_nnf. lra.
Qed.

Lemma nnf_fge x : nnf x -> fge x 0 = true.
Proof. destruct x as [r|[]|]; simpl; try tauto. intros H. apply Qle_bool_iff. exact H. Qed.

Lemma py_float_unsigned p :
  unsigned_dec_field p = true -> exists x, py_float p = Some x /\ nnf x.
Proof.
  unfold unsigned_dec_field. intros H. apply andb_true_iff in H as [Hl Ht].
  pose proof (take_drop_while is_digit p) as Ep.
  pose proof (take_while_all is_digit p) as Ha.
  set (a := take_while is_digit p) in *. set (t := drop_while is_digit p) in *.
  assert (Hstop : stop t /\ forallb (fun c => negb (is_space c)) t = true /\
                  (t = [] \/ exists b, t = "."%char :: b /\ all_digits b = true)).
  { destruct t as [|c b]; [split; [exact I|split; [reflexivity|left; reflexivity]]|].
    destruct c as [[] [] [] [] [] [] [] []]; try discriminate.
    split; [split; reflexivity|]. split.
    - simpl. unfold all_digits in Ht. apply forallb_forall. intros c Hc.
      rewrite forallb_forall in Ht. rewrite (digit_not_space c (Ht c Hc)). reflexivity.
    - right. exists b. split; [reflexivity|exact Ht]. }
  destruct Hstop as [Hstop [Hsp Hdot]].
  destruct a as [|d a'] eqn:Ea; [discriminate|].
  simpl in Ha. apply andb_true_iff in Ha as [Hd Ha'].
  rewrite <- Ep. unfold py_float.
  rewrite strip_no_space.
  2:{ rewrite forallb_app, Hsp, andb_true_r. simpl.
      rewrite (digit_not_space d Hd). simpl. apply forallb_forall. intros c Hc.
      unfold all_digits in Ha'. rewrite forallb_forall in Ha'.
      rewrite (digit_not_space c (Ha' c Hc)). reflexivity. }
  simpl app. rewrite (take_sign_digit d _ Hd).
  destruct (lb_digit d (a' ++ t) Hd) as [L1 L2]. rewrite L1, L2.
  destruct (digitpart_opt_app (d :: a') t) as [iv [Eiv Hiv]];
    [simpl; rewrite Hd; exact Ha' | exact Hstop |].
  simpl app in Eiv. rewrite Eiv.
  destruct Hdot as [-> | [b [-> Hb]]].
  - simpl. eexists. split; [reflexivity|].
    apply round64_nnf. rewrite Qmult_1_l.
    rewrite Z.mul_1_r, Z.add_0_r. change (inject_Z 0) with 0%Q. simpl.
    unfold Qle; simpl; lia.
  - destruct (digitpart_opt_app b [] Hb I) as [fv [Efv Hfv]].
    rewrite app_nil_r in Efv. rewrite Efv. simpl.
    eexists. split; [reflexivity|]. apply round64_nnf. rewrite Qmult_1_l.
    pose proof (Z.pow_nonneg 10 (Z.of_nat (length b))).
    pose proof (Z.pow_nonneg 10 (- Z.of_nat (length b))).
    destruct (0 <=? _)%Z.
    + unfold Qle; simpl. nia.
    + unfold Qle; simpl. nia.
Qed.

Lemma parse_duration_unsigned s d :
  unsigned_fields s = true -> parse_duration s = Some d -> nnf d.
Proof.
  unfold unsigned_fields, parse_duration.
  destruct (split_on ":" (chars s)) as [|p0 [|p1 [|p2 rest]]]; try discriminate.
  intros H. apply andb_true_iff in H as [H H2]. apply andb_true_iff in H as [H0 H1].
  destruct (py_int_digits p0 H0) as [h [Eh Hh]].
  destruct (py_int_digits p1 H1) as [m [Em Hm]].
  destruct (py_float_unsigned p2 H2) as [x [Ex Hx]].
  simpl. rewrite Eh, Em, Ex. unfold add_int_float, float_of_int.
  pose proof (round64_nnf (inject_Z (h * 3600 + m * 60))) as Hr.
  destruct (round64 _) as [y|[]|]; intros E; try discriminate.
  injection E as <-. apply (fadd_nnf (Fin y) x); [|exact Hx]. apply Hr.
  apply (Qle_trans _ (inject_Z 0)); [apply Qle_refl|]. rewrite <- Zle_Qle. lia.
Qed.

(** Claim C7 fails: a duration attribute with a sign is accepted and
    gives a negative duration ("-1:00:00" is -3600 seconds). *)
Lemma negative_duration_accepted :
  ~ (forall (r : result_el) (t : Test),
        parse_result r = Some t -> fge (duration_sec t) 0 = true).
Proof.
  intros H. destruct (parse_result negative_duration_result) as [t|] eqn:E.
  - pose proof (H _ _ E) as Ht. vm_compute in E. injection E as <-.
    vm_compute in Ht. discriminate Ht.
  - vm_compute in E. discriminate E.
Qed.

(** Claim C7 as the code has it: the stored duration is [>= 0] whenever
    the first three colon-separated fields of the duration attribute are
    unsigned numerals (the default "00:00:00.0000000" is one, and gives
    0); [int()] and [float()] also accept signs, so "-1:00:00" gives
    -3600. *)
Theorem duration_nonneg_when_unsigned :
  (forall (r : result_el) (t : Test),
     unsigned_fields (get_default (r_attrs r) "duration" "00:00:00.0000000") = true ->
     parse_result r = Some t -> fge (duration_sec t) 0 = true) /\
  unsigned_fields "00:00:00.0000000" = true /\
  parse_duration "00:00:00.0000000" = Some (Fin 0) /\
  (exists r, parse_duration "-1:00:00" = Some (Fin r) /\ (r == -3600)%Q).
Proof.
  split; [|split; [reflexivity | split; [vm_compute; reflexivity|]]].
  2:{ eexists. split; [vm_compute; reflexivity | reflexivity]. }
  intros r t Hu. unfold parse_result.
  destruct (parse_duration _) as [d|] eqn:E; [|discriminate].
  intros Et. injection Et as <-. unfold mk_Test. destruct (rsplit_dot _). simpl.
  apply nnf_fge. exact (parse_duration_unsigned _ _ Hu E).
Qed.

Lemma duration_nonneg_when_unsigned_witness :
  match parse_result plain_result with
  | Some t => fge (duration_sec t) 0 = true
  | None => False
  end.
Proof.
  destruct (parse_result plain_result) as [t|] eqn:E.
  - apply (proj1 duration_nonneg_when_unsigned plain_result t); [vm_compute; reflexivity | exact E].
  - vm_compute in E. discriminate E.
Defined.

(* ------------------------------------------------------------------ *)
(** ** Duration formatting *)

Section Formatting.
Local Open Scope Q_scope.

Lemma qtrunc_spec y : y - 1 < inject_Z (qtrunc y) /\ inject_Z (qtrunc y) < y + 1.
Proof.
  unfold qtrunc. destruct (qltb y 0).
  - pose proof (Qfloor_le (- y)). pose proof (Qlt_floor (- y)).
    rewrite inject_Z_plus in H0. change (inject_Z 1) with 1 in H0.
    rewrite inject_Z_opp. split; lra.
  - pose proof (Qfloor_le y). pose proof (Qlt_floor y).
    rewrite inject_Z_plus in H0. change (inject_Z 1) with 1 in H0. split; lra.
Qed.

Lemma abs_le x B : Qabs x <= B -> - B <= x /\ x <= B.
Proof. apply Qabs_Qle_condition. Qed.

Lemma le_abs x B : - B <= x -> x <= B -> Qabs x <= B.
Proof. intros. apply Qabs_Qle_condition. auto. Qed.

Lemma fmt_dur_seconds q :
  q < 60 -> fmt_dur (Fin q) = Some (fmt_fixed 2 q ++ "s")%string.
Proof.
  intros H. unfold fmt_dur, fge.
  assert (Qle_bool 3600 q = false) as ->.
  { destruct (Qle_bool 3600 q) eqn:E; [apply Qle_bool_iff in E; lra | reflexivity]. }
  assert (Qle_bool 60 q = false) as ->.
  { destruct (Qle_bool 60 q) eqn:E; [apply Qle_bool_iff in E; lra | reflexivity]. }
  reflexivity.
Qed.

Lemma fmt_dur_hours_shape q out :
  3600 <= q -> fmt_dur (Fin q) = Some out ->
  exists h m s, out = (Z_str h ++ "h " ++ fmt_02d m ++ "m " ++ zpad 5 (fmt_float 2 s) ++ "s")%string.
Proof.
  intros H1. unfold fmt_dur. unfold fge at 1. rewrite (proj2 (Qle_bool_iff _ _) H1).
  destruct (int_of_float _) as [h|]; [|discriminate].
  destruct (sub_float_int _ _) as [r|]; [|discriminate].
  destruct (int_of_float _) as [m|]; [|discriminate].
  destruct (sub_float_int _ _) as [s|]; [|discriminate].
  intros E. injection E as <-. exists h, m, s. reflexivity.
Qed.

Lemma Qle_bool_comp a b a' b' : a == a' -> b == b' -> Qle_bool a b = Qle_bool a' b'.
Proof.
  intros Ha Hb. destruct (Qle_bool a b) eqn:E1, (Qle_bool a' b') eqn:E2; auto.
  - apply Qle_bool_iff in E1. rewrite Ha, Hb in E1. apply Qle_bool_iff in E1. congruence.
  - apply Qle_bool_iff in E2. rewrite <- Ha, <- Hb in E2. apply Qle_bool_iff in E2. congruence.
Qed.

Lemma Qeq_bool_comp a b a' b' : a == a' -> b == b' -> Qeq_bool a b = Qeq_bool a' b'.
Proof.
  intros Ha Hb. destruct (Qeq_bool a b) eqn:E1, (Qeq_bool a' b') eqn:E2; auto.
  - apply Qeq_bool_iff in E1. rewrite Ha, Hb in E1. apply Qeq_bool_iff in E1. congruence.
  - apply Qeq_bool_iff in E2. rewrite <- Ha, <- Hb in E2. apply Qeq_bool_iff in E2. congruence.
Qed.

Lemma qltb_comp a b a' b' : a == a' -> b == b' -> qltb a b = qltb a' b'.
Proof. intros Ha Hb. unfold qltb. rewrite (Qle_bool_comp b a b' a' Hb Ha). reflexivity. Qed.

Lemma rne_comp x y : x == y -> rne x = rne y.
Proof.
  intros H. unfold rne. assert (E : Qfloor x = Qfloor y) by (apply Qfloor_comp; exact H).
  rewrite E.
  rewrite (qltb_comp (x - inject_Z (Qfloor y)) (1 # 2) (y - inject_Z (Qfloor y)) (1 # 2))
    by lra.
  rewrite (qltb_comp (1 # 2) (x - inject_Z (Qfloor y)) (1 # 2) (y - inject_Z (Qfloor y)))
    by lra.
  reflexivity.
Qed.

Lemma rne_int n : rne (inject_Z n) = n.
Proof.
  unfold rne. rewrite Qfloor_Z.
  assert (qltb (inject_Z n - inject_Z n) (1 # 2) = true) as -> by (apply qltb_iff; lra).
  reflexivity.
Qed.

Lemma pow2_lt a b : (a < b)%Z -> pow2 a < pow2 b.
Proof.
  intros H. pose proof (pow2_le (a + 1) b ltac:(lia)). rewrite pow2_add in H0.
  change (pow2 1) with 2 in H0. pose proof (pow2_pos a). lra.
Qed.

Lemma flog2_upper q : 0 < q -> q < pow2 (flog2 q + 1).
Proof.
  intros Hq. unfold flog2.
  destruct (Qle_bool (pow2 _) q) eqn:E.
  2:{ replace (_ - 1 + 1)%Z with (Z.log2 (Qnum q) - Z.log2 (Z.pos (Qden q)))%Z by lia.
      apply Qnot_le_lt. intros H. apply Qle_bool_iff in H. congruence. }
  destruct q as [n d]. simpl Qnum; simpl Qden.
  assert (Hn : (0 < n)%Z).
  { unfold Qlt in Hq; simpl in Hq; lia. }
  set (a := Z.log2 n). set (b := Z.log2 (Z.pos d)).
  destruct (Z.log2_spec n Hn) as [_ Ha2].
  destruct (Z.log2_spec (Z.pos d) ltac:(lia)) as [Hb1 _].
  fold a in Ha2. fold b in Hb1.
  assert (Ha0 : (0 <= a)%Z) by (apply Z.log2_nonneg).
  assert (Hb0 : (0 <= b)%Z) by (apply Z.log2_nonneg).
  rewrite Qmake_Qdiv. apply Qlt_shift_div_r; [reflexivity|].
  apply Qlt_le_trans with (pow2 (a - b + 1) * pow2 b).
  - rewrite <- pow2_add. replace (a - b + 1 + b)%Z with (Z.succ a) by lia.
    rewrite pow2_nonneg_Z by lia. rewrite <- Zlt_Qlt. exact Ha2.
  - apply Qmult_le_l; [apply pow2_pos|].
    rewrite pow2_nonneg_Z by lia. rewrite <- Zle_Qle. exact Hb1.
Qed.

Lemma flog2_unique j q : pow2 j <= q -> q < pow2 (j + 1) -> flog2 q = j.
Proof.
  intros H1 H2. assert (Hq : 0 < q) by (pose proof (pow2_pos j); lra).
  pose proof (flog2_lower q Hq). pose proof (flog2_upper q Hq).
  destruct (Z.lt_total (flog2 q) j) as [L|[L|L]]; [|exact L|].
  - pose proof (pow2_le (flog2 q + 1) j ltac:(lia)). lra.
  - pose proof (pow2_le (j + 1) (flog2 q) ltac:(lia)). lra.
Qed.

Lemma flog2_comp x y : 0 < x -> x == y -> flog2 x = flog2 y.
Proof.
  intros Hx H. symmetry. apply flog2_unique; rewrite <- H.
  - apply flog2_lower, Hx.
  - apply flog2_upper, Hx.
Qed.

Lemma round64q_comp x y : x == y -> round64q x = round64q y.
Proof.
  intros H. unfold round64q. rewrite (Qeq_bool_comp x 0 y 0 H (Qeq_refl _)).
  destruct (Qeq_bool y 0) eqn:E; [reflexivity|].
  assert (Hx : 0 < Qabs x).
  { pose proof (Qabs_nonneg x). apply Qle_lt_or_eq in H0. destruct H0 as [H0|H0]; [exact H0|].
    exfalso. assert (Qeq_bool y 0 = true); [|congruence].
    apply Qeq_bool_iff. rewrite <- H. revert H0.
    apply (Qabs_case x (fun a => 0 == a -> x == 0)); intros; lra. }
  assert (Ha : Qabs x == Qabs y) by (apply Qabs_wd; exact H).
  cbv zeta. rewrite (flog2_comp _ _ Hx Ha).
  rewrite (rne_comp (Qabs x / pow2 (Z.max (-1074) (flog2 (Qabs y) - 52)))
                    (Qabs y / pow2 (Z.max (-1074) (flog2 (Qabs y) - 52))))
    by (rewrite Ha; reflexivity).
  rewrite (qltb_comp x 0 y 0 H (Qeq_refl _)). reflexivity.
Qed.

Lemma round64_comp x y : x == y -> round64 x = round64 y.
Proof.
  intros H. unfold round64. rewrite (round64q_comp x y H).
  rewrite (qltb_comp x 0 y 0 H (Qeq_refl _)). reflexivity.
Qed.

Lemma fmt_fixed_comp d x y : x == y -> fmt_fixed d x = fmt_fixed d y.
Proof.
  intros H. unfold fmt_fixed.
  rewrite (rne_comp (Qabs x * _) (Qabs y * _)) by (apply Qmult_comp; [apply Qabs_wd; exact H | reflexivity]).
  rewrite (qltb_comp x 0 y 0 H (Qeq_refl _)). reflexivity.
Qed.

Lemma qtrunc_comp x y : x == y -> qtrunc x = qtrunc y.
Proof.
  intros H. unfold qtrunc. rewrite (qltb_comp x 0 y 0 H (Qeq_refl _)).
  rewrite (Qfloor_comp x y H). rewrite (Qfloor_comp (- x) (- y)) by lra.
  reflexivity.
Qed.

Lemma floordiv_comp x y w : x == y -> floordiv (Fin x) w = floordiv (Fin y) w.
Proof.
  intros H. unfold floordiv.
  rewrite (qtrunc_comp (x / w) (y / w)) by (apply Qdiv_comp; [exact H | reflexivity]).
  set (t := qtrunc (y / w)).
  rewrite (round64q_comp (x - (x - w * inject_Z t)) (y - (y - w * inject_Z t))) by lra.
  rewrite (Qeq_bool_comp (x - w * inject_Z t) 0 (y - w * inject_Z t) 0) by lra.
  rewrite (qltb_comp (x - w * inject_Z t) 0 (y - w * inject_Z t) 0) by lra.
  reflexivity.
Qed.

Lemma sub_float_int_comp x y n : x == y -> sub_float_int (Fin x) n = sub_float_int (Fin y) n.
Proof.
  intros H. unfold sub_float_int. destruct (float_of_int n) as [z|]; [|reflexivity].
  cbn [fsub fneg fadd]. rewrite (round64_comp (x + - z) (y + - z)) by lra.
  reflexivity.
Qed.

Lemma fmt_dur_comp x y : x == y -> fmt_dur (Fin x) = fmt_dur (Fin y).
Proof.
  intros H. unfold fmt_dur, fge.
  rewrite (Qle_bool_comp 3600 x 3600 y (Qeq_refl _) H).
  rewrite (Qle_bool_comp 60 x 60 y (Qeq_refl _) H).
  rewrite (floordiv_comp x y 3600 H), (floordiv_comp x y 60 H).
  destruct (Qle_bool 3600 y).
  - destruct (int_of_float (floordiv (Fin y) 3600)) as [h|]; [|reflexivity].
    rewrite (sub_float_int_comp x y _ H). reflexivity.
  - destruct (Qle_bool 60 y).
    + destruct (int_of_float (floordiv (Fin y) 60)) as [m|]; [|reflexivity].
      rewrite (sub_float_int_comp x y _ H). reflexivity.
    + cbn [fmt_float]. rewrite (fmt_fixed_comp 2 x y H). reflexivity.
Qed.

Lemma is_double_comp x y : x == y -> is_double x -> is_double y.
Proof. intros H (k & e & Hk & He & Hx). exists k, e. split; [exact Hk|]. split; [exact He|]. rewrite <- H. exact Hx. Qed.

Lemma is_double_Z n : (Z.abs n < 2 ^ 53)%Z -> is_double (inject_Z n).
Proof. intros H. exists n, 0%Z. split; [exact H|]. split; [lia|]. change (pow2 0) with 1. ring. Qed.

Lemma Qabs_inject_Z n : Qabs (inject_Z n) = inject_Z (Z.abs n).
Proof. reflexivity. Qed.

Lemma pow2_mul_le a b e : inject_Z a * pow2 e <= inject_Z b * pow2 e -> (a <= b)%Z.
Proof.
  intros H. rewrite Zle_Qle. apply Qmult_le_r with (pow2 e); [apply pow2_pos | exact H].
Qed.

Lemma round64q_double x : is_double x -> round64q x == x.
Proof.
  intros (k & e & Hk & He & Hx). rewrite (round64q_comp x _ Hx), Hx.
  set (y := inject_Z k * pow2 e).
  assert (Hay : Qabs y == inject_Z (Z.abs k) * pow2 e).
  { unfold y. rewrite Qabs_Qmult, Qabs_inject_Z. rewrite (Qabs_pos (pow2 e)) by apply Qlt_le_weak, pow2_pos.
    reflexivity. }
  destruct (Qeq_dec y 0) as [E|E].
  { unfold round64q. rewrite (Qeq_eq_bool _ _ E). rewrite E. reflexivity. }
  destruct (round64q_parts y E) as [e' [He1 [He2 [He3 ->]]]]. cbv zeta.
  assert (Hpos : 0 < Qabs y).
  { pose proof (Qabs_nonneg y). apply Qle_lt_or_eq in H. destruct H as [H|H]; [exact H|].
    exfalso. apply E. revert H. apply (Qabs_case y (fun a => 0 == a -> y == 0)); intros; lra. }
  assert (Hf : (flog2 (Qabs y) < e + 53)%Z).
  { destruct (Z.lt_ge_cases (flog2 (Qabs y)) (e + 53)) as [L|L]; [exact L|]. exfalso.
    pose proof (pow2_le _ _ L). pose proof (flog2_lower _ Hpos).
    assert (Qabs y < pow2 (e + 53)).
    { rewrite Hay, pow2_add. rewrite (Qmult_comm (pow2 e)).
      apply Qmult_lt_r; [apply pow2_pos|]. rewrite pow2_nonneg_Z by lia.
      rewrite <- Zlt_Qlt. exact Hk. }
    lra. }
  assert (Hee : (e' <= e)%Z) by lia.
  assert (Hq : Qabs y / pow2 e' == inject_Z (Z.abs k * 2 ^ (e - e'))).
  { rewrite Hay, inject_Z_mult, <- pow2_nonneg_Z by lia.
    rewrite div_pow2, <- Qmult_assoc, <- pow2_add. replace (e + - e')%Z with (e - e')%Z by lia.
    reflexivity. }
  rewrite (rne_comp _ _ Hq), rne_int.
  assert (Hr : inject_Z (Z.abs k * 2 ^ (e - e')) * pow2 e' == Qabs y).
  { rewrite Hay, inject_Z_mult, <- pow2_nonneg_Z by lia.
    rewrite <- Qmult_assoc, <- pow2_add. replace (e - e' + e')%Z with e by lia. reflexivity. }
  destruct (qltb y 0) eqn:Es; rewrite Hr.
  - apply qltb_iff in Es. rewrite Qabs_neg by lra. ring.
  - apply qltb_false in Es. rewrite Qabs_pos by exact Es. reflexivity.
Qed.

Lemma inject_Z_sub a b : inject_Z (a - b) == inject_Z a - inject_Z b.
Proof. unfold Z.sub. rewrite inject_Z_plus, inject_Z_opp. reflexivity. Qed.

Lemma sterbenz x y :
  is_double x -> is_double y -> 0 <= y -> y <= x -> x <= 2 * y -> is_double (x - y).
Proof.
  intros (kx & ex & Hkx & Hex & Hx) (ky & ey & Hky & Hey & Hy) H0 H1 H2.
  destruct (Z.le_gt_cases ex ey) as [L|L].
  - exists (kx - ky * 2 ^ (ey - ex))%Z, ex. split; [|split; [exact Hex|]].
    2:{ assert (P : pow2 ey == inject_Z (2 ^ (ey - ex)) * pow2 ex)
          by (rewrite <- pow2_nonneg_Z by lia; rewrite <- pow2_add; replace (ey - ex + ex)%Z with ey by lia; reflexivity).
        rewrite Hx, Hy, P, inject_Z_sub, inject_Z_mult. ring. }
    assert (Hd : x - y == inject_Z (kx - ky * 2 ^ (ey - ex)) * pow2 ex).
    { assert (P : pow2 ey == inject_Z (2 ^ (ey - ex)) * pow2 ex)
        by (rewrite <- pow2_nonneg_Z by lia; rewrite <- pow2_add; replace (ey - ex + ex)%Z with ey by lia; reflexivity).
      rewrite Hx, Hy, P, inject_Z_sub, inject_Z_mult. ring. }
    assert (A : (0 <= kx - ky * 2 ^ (ey - ex))%Z).
    { apply (pow2_mul_le 0 _ ex). rewrite <- Hd. change (inject_Z 0) with 0. lra. }
    assert (B : (kx - ky * 2 ^ (ey - ex) <= kx)%Z).
    { apply (pow2_mul_le _ _ ex). rewrite <- Hd, <- Hx. lra. }
    lia.
  - exists (kx * 2 ^ (ex - ey) - ky)%Z, ey. split; [|split; [lia|]].
    2:{ assert (P : pow2 ex == inject_Z (2 ^ (ex - ey)) * pow2 ey)
          by (rewrite <- pow2_nonneg_Z by lia; rewrite <- pow2_add; replace (ex - ey + ey)%Z with ex by lia; reflexivity).
        rewrite Hx, Hy, P, inject_Z_sub, inject_Z_mult. ring. }
    assert (Hd : x - y == inject_Z (kx * 2 ^ (ex - ey) - ky) * pow2 ey).
    { assert (P : pow2 ex == inject_Z (2 ^ (ex - ey)) * pow2 ey)
        by (rewrite <- pow2_nonneg_Z by lia; rewrite <- pow2_add; replace (ex - ey + ey)%Z with ex by lia; reflexivity).
      rewrite Hx, Hy, P, inject_Z_sub, inject_Z_mult. ring. }
    assert (A : (0 <= kx * 2 ^ (ex - ey) - ky)%Z).
    { apply (pow2_mul_le 0 _ ey). rewrite <- Hd. change (inject_Z 0) with 0. lra. }
    assert (B : (kx * 2 ^ (ex - ey) - ky <= ky)%Z).
    { apply (pow2_mul_le _ _ ey). rewrite <- Hd, <- Hy. lra. }
    lia.
Qed.

Lemma is_double_lt x : is_double x -> Qabs x < max_float_bound.
Proof.
  intros (k & e & Hk & He & Hx). rewrite Hx, Qabs_Qmult, Qabs_inject_Z.
  rewrite (Qabs_pos (pow2 e)) by apply Qlt_le_weak, pow2_pos.
  apply Qlt_le_trans with (pow2 53 * pow2 e).
  - apply (proj2 (Qmult_lt_r _ _ _ (pow2_pos e))).
    rewrite pow2_nonneg_Z by lia. rewrite <- Zlt_Qlt. exact Hk.
  - rewrite <- pow2_add. unfold max_float_bound. rewrite <- pow2_nonneg_Z by lia.
    apply pow2_le. lia.
Qed.

Lemma round64_double x : is_double x -> round64 x = Fin (round64q x).
Proof.
  intros H. unfold round64. pose proof (round64q_double x H) as E.
  pose proof (is_double_lt x H) as L.
  destruct (Qle_bool _ _) eqn:B; [|reflexivity].
  apply Qle_bool_iff in B. rewrite E in B. lra.
Qed.

Lemma qtrunc_Z n : (0 <= n)%Z -> qtrunc (inject_Z n) = n.
Proof.
  intros H. unfold qtrunc.
  assert (qltb (inject_Z n) 0 = false) as -> by (apply qltb_false; change 0 with (inject_Z 0); rewrite <- Zle_Qle; exact H).
  apply Qfloor_Z.
Qed.

Lemma floordiv_exact q w wz :
  (wz = 60 \/ wz = 3600)%Z -> w = inject_Z wz -> 0 <= q ->
  (Qfloor (q / w) * wz < 2 ^ 53)%Z ->
  int_of_float (floordiv (Fin q) w) = Some (Qfloor (q / w)).
Proof.
  intros Hwz Hw Hq Ht. set (t := Qfloor (q / w)) in *.
  assert (Hw0 : 0 < w) by (subst w; destruct Hwz as [-> | ->]; reflexivity).
  assert (Hqw : 0 <= q / w) by (apply Qle_shift_div_l; lra).
  assert (Ht0 : (0 <= t)%Z).
  { unfold t. change 0%Z with (Qfloor 0). apply Qfloor_resp_le. exact Hqw. }
  assert (Hy : w * (q / w) == q) by (field; lra).
  pose proof (Qfloor_le (q / w)) as F1. fold t in F1.
  unfold floordiv.
  assert (Etr : qtrunc (q / w) = t).
  { unfold qtrunc. assert (qltb (q / w) 0 = false) as -> by (apply qltb_false; exact Hqw). reflexivity. }
  rewrite Etr.
  assert (Hmd : 0 <= q - w * inject_Z t).
  { assert (w * inject_Z t <= w * (q / w)) by (apply Qmult_le_l; lra). lra. }
  assert (Hwt : is_double (inject_Z (wz * t))).
  { apply is_double_Z. destruct Hwz as [-> | ->]; lia. }
  assert (Ht' : (t < 2 ^ 53)%Z) by (destruct Hwz as [-> | ->]; lia).
  assert (E1 : round64q (q - (q - w * inject_Z t)) == w * inject_Z t).
  { rewrite (round64q_comp _ (inject_Z (wz * t))) by (subst w; rewrite inject_Z_mult; ring).
    rewrite round64q_double by exact Hwt. subst w. rewrite inject_Z_mult. reflexivity. }
  assert (E2 : round64q (q - (q - w * inject_Z t)) / w == inject_Z t) by (rewrite E1; field; lra).
  assert (Ht53 : is_double (inject_Z t)) by (apply is_double_Z; lia).
  set (a2 := round64q (round64q (q - (q - w * inject_Z t)) / w)).
  assert (Ea2 : a2 == inject_Z t).
  { unfold a2. rewrite (round64q_comp _ _ E2). apply round64q_double, Ht53. }
  assert (qltb (q - w * inject_Z t) 0 = false) as -> by (apply qltb_false; exact Hmd).
  rewrite andb_false_r.
  destruct (Qeq_bool a2 0) eqn:Z0.
  - apply Qeq_bool_iff in Z0. rewrite Ea2 in Z0.
    change 0 with (inject_Z 0) in Z0. apply (proj1 (inject_Z_injective _ _)) in Z0. rewrite Z0. reflexivity.
  - assert (Ef : Qfloor a2 = t) by (rewrite (Qfloor_comp _ _ Ea2); apply Qfloor_Z).
    rewrite Ef.
    rewrite (round64q_comp (a2 - inject_Z t) 0) by (rewrite Ea2; ring).
    change (round64q 0) with 0. change (qltb (1 # 2) 0) with false. cbn [int_of_float].
    rewrite qtrunc_Z by exact Ht0. reflexivity.
Qed.

Lemma sub_exact q n :
  (Z.abs n < 2 ^ 53)%Z -> is_double (q - inject_Z n) ->
  exists s, sub_float_int (Fin q) n = Some (Fin s) /\ s == q - inject_Z n.
Proof.
  intros Hn Hd. unfold sub_float_int, float_of_int.
  rewrite round64_double by (apply is_double_Z, Hn).
  cbn [fsub fneg fadd].
  pose proof (round64q_double _ (is_double_Z n Hn)) as En.
  assert (Hd' : is_double (q + - round64q (inject_Z n))) by (apply (is_double_comp (q - inject_Z n)); [rewrite En; ring | exact Hd]).
  rewrite round64_double by exact Hd'.
  eexists. split; [reflexivity|]. rewrite round64q_double by exact Hd'. rewrite En. ring.
Qed.

Lemma round64q_rel x :
  Qabs (round64q x) <= (4503599627370497 # 4503599627370496) * Qabs x + 1.
Proof.
  pose proof (Qabs_nonneg x) as Hx0.
  destruct (Qeq_dec x 0) as [E|E].
  - unfold round64q. rewrite (Qeq_eq_bool _ _ E). simpl. lra.
  - destruct (round64q_parts x E) as [e [He1 [He2 [He3 ->]]]]. cbv zeta.
    set (r := inject_Z (rne (Qabs x / pow2 e)) * pow2 e).
    assert (Hr0 : 0 <= r) by apply round64q_mag_nonneg.
    assert (Hpos : 0 < Qabs x).
    { apply Qle_lt_or_eq in Hx0. destruct Hx0 as [H|H]; [exact H|].
      exfalso. apply E. revert H. apply (Qabs_case x (fun a => 0 == a -> x == 0)); intros; lra. }
    assert (Hp : pow2 e <= (1 # 4503599627370496) * Qabs x + 1).
    { destruct He3 as [He3|He3]; subst e.
      - pose proof (pow2_le (-1074) 0 ltac:(lia)). change (pow2 0) with 1 in H. lra.
      - replace (flog2 (Qabs x) - 52)%Z with (flog2 (Qabs x) + -52)%Z by lia.
        rewrite pow2_add. change (pow2 (-52)) with (1 # 4503599627370496).
        pose proof (flog2_lower _ Hpos). lra. }
    assert (Hr : r <= Qabs x + pow2 e).
    { unfold r. destruct (rne_bounds (Qabs x / pow2 e)) as [_ Hb].
      apply Qle_trans with ((Qabs x / pow2 e + 1) * pow2 e).
      - apply Qmult_le_compat_r; [exact Hb | apply Qlt_le_weak, pow2_pos].
      - assert (~ pow2 e == 0) by (pose proof (pow2_pos e); intros Hc; rewrite Hc in H; discriminate).
        field_simplify; [lra | exact H]. }
    destruct (qltb x 0); [rewrite Qabs_opp|]; rewrite Qabs_pos by exact Hr0; lra.
Qed.

Lemma qtrunc_abs y : Qabs (inject_Z (qtrunc y)) <= Qabs y.
Proof.
  unfold qtrunc. destruct (qltb y 0) eqn:E.
  - apply qltb_iff in E. pose proof (Qfloor_le (- y)).
    assert (0 <= Qfloor (- y))%Z by (change 0%Z with (Qfloor 0); apply Qfloor_resp_le; lra).
    rewrite inject_Z_opp, Qabs_opp, Qabs_pos, (Qabs_neg y) by (lra || (change 0 with (inject_Z 0); rewrite <- Zle_Qle; lia)).
    exact H.
  - apply qltb_false in E. pose proof (Qfloor_le y).
    assert (0 <= Qfloor y)%Z by (change 0%Z with (Qfloor 0); apply Qfloor_resp_le; lra).
    rewrite Qabs_pos, (Qabs_pos y) by (lra || (change 0 with (inject_Z 0); rewrite <- Zle_Qle; lia)).
    exact H.
Qed.

Lemma qtrunc_nonneg y : 0 <= y -> (0 <= qtrunc y)%Z.
Proof.
  intros H. unfold qtrunc. assert (qltb y 0 = false) as -> by (apply qltb_false; exact H).
  change 0%Z with (Qfloor 0). apply Qfloor_resp_le. exact H.
Qed.

Lemma floordiv_mag vx w :
  (w = 60 \/ w = 3600) ->
  exists v, floordiv (Fin vx) w = Fin v /\
    Qabs v <= (4503599627370497 # 4503599627370496) ^ 3 * (Qabs vx / w) + 6 /\
    (0 <= vx -> 0 <= v).
Proof.
  intros Hw. set (E := 4503599627370497 # 4503599627370496).
  assert (Hw1 : 60 <= w /\ w <= 3600) by (destruct Hw as [-> | ->]; split; discriminate).
  unfold floordiv.
  set (t := qtrunc (vx / w)).
  assert (Ht := qtrunc_abs (vx / w)). fold t in Ht.
  assert (Hvw : Qabs (vx / w) == Qabs vx / w).
  { unfold Qdiv. rewrite Qabs_Qmult. rewrite (Qabs_pos (/ w)); [reflexivity|].
    apply Qlt_le_weak, Qinv_lt_0_compat. lra. }
  rewrite Hvw in Ht.
  set (md := vx - w * inject_Z t).
  assert (HX : Qabs (vx - md) <= Qabs vx).
  { assert (vx - md == w * inject_Z t) by (unfold md; ring). rewrite H, Qabs_Qmult, (Qabs_pos w) by lra.
    apply Qle_trans with (w * (Qabs vx / w)); [apply Qmult_le_l; lra|]. assert (w * (Qabs vx / w) == Qabs vx) by (field; lra). lra. }
  set (a1 := round64q (vx - md)).
  assert (Ha1 : Qabs a1 <= E * Qabs vx + 1).
  { pose proof (round64q_rel (vx - md)). fold a1 in H. unfold E in *. lra. }
  set (a2 := round64q (a1 / w)).
  assert (Hdiv : Qabs (a1 / w) <= (E * Qabs vx + 1) / w).
  { unfold Qdiv. rewrite Qabs_Qmult. rewrite (Qabs_pos (/ w)) by (apply Qlt_le_weak, Qinv_lt_0_compat; lra).
    apply Qmult_le_compat_r; [exact Ha1 | apply Qlt_le_weak, Qinv_lt_0_compat; lra]. }
  assert (Hdiv' : (E * Qabs vx + 1) / w <= E * (Qabs vx / w) + 1).
  { assert ((E * Qabs vx + 1) / w == E * (Qabs vx / w) + 1 / w) by (field; lra). rewrite H.
    assert (1 / w <= 1) by (apply Qle_shift_div_r; lra). lra. }
  assert (Ha2 : Qabs a2 <= E * (E * (Qabs vx / w) + 1) + 1).
  { pose proof (round64q_rel (a1 / w)). fold a2 in H. unfold E in *.
    assert (0 <= E) by (unfold E; discriminate). unfold E in H0.
    apply Qle_trans with ((4503599627370497 # 4503599627370496) * Qabs (a1 / w) + 1); [exact H|].
    apply Qplus_le_compat; [|apply Qle_refl]. apply Qmult_le_l; [reflexivity|]. lra. }
  set (dv := if negb (Qeq_bool md 0) && qltb md 0 then round64q (a2 - 1) else a2).
  assert (Hdv : Qabs dv <= E * (Qabs a2 + 1) + 1).
  { unfold dv. destruct (_ && _).
    - pose proof (round64q_rel (a2 - 1)). pose proof (Qabs_triangle a2 (Qopp 1)).
      change (Qabs (Qopp 1)) with 1 in H0. change (a2 + Qopp 1) with (a2 - 1) in H0. unfold E in *. lra.
    - pose proof (Qabs_nonneg a2). unfold E. lra. }
  assert (Hdv' : Qabs dv <= E ^ 3 * (Qabs vx / w) + 5).
  { pose proof (Qabs_nonneg vx). assert (0 <= Qabs vx / w) by (apply Qle_shift_div_l; lra).
    unfold E in *. simpl Qpower. lra. }
  assert (Hnn : 0 <= vx -> 0 <= dv).
  { intros H0. assert (0 <= inject_Z t) by (change 0 with (inject_Z 0); rewrite <- Zle_Qle; apply qtrunc_nonneg, Qle_shift_div_l; lra).
    assert (Hmd : 0 <= md).
    { assert (Hy : Qabs (vx / w) == vx / w) by (apply Qabs_pos, Qle_shift_div_l; lra).
      pose proof (qtrunc_abs (vx / w)) as Ht'. fold t in Ht'. rewrite Hy, Qabs_pos in Ht' by exact H.
      unfold md. assert (w * inject_Z t <= w * (vx / w)) by (apply Qmult_le_l; lra).
      assert (w * (vx / w) == vx) by (field; lra). lra. }
    unfold dv. assert (qltb md 0 = false) as -> by (apply qltb_false; exact Hmd). rewrite andb_false_r.
    unfold a2. apply round64q_nonneg. apply Qle_shift_div_l; [lra|]. rewrite Qmult_0_l.
    unfold a1. apply round64q_nonneg. unfold md.
    assert (0 <= w * inject_Z t) by (apply Qmult_le_0_compat; lra). lra. }
  clearbody dv.
  pose proof (Qfloor_le dv) as F1. pose proof (Qlt_floor dv) as F2.
  rewrite inject_Z_plus in F2. change (inject_Z 1) with 1 in F2.
  apply abs_le in Hdv'.
  destruct (Qeq_bool dv 0).
  - exists 0. split; [reflexivity|]. split; [|intros; lra]. simpl. unfold E.
    pose proof (Qabs_nonneg vx). assert (0 <= Qabs vx / w) by (apply Qle_shift_div_l; lra).
    simpl Qpower. lra.
  - destruct (qltb (1 # 2) _).
    + eexists. split; [reflexivity|]. rewrite inject_Z_plus; change (inject_Z 1) with 1.
      split; [apply le_abs; lra | intros H0; specialize (Hnn H0); lra].
    + eexists. split; [reflexivity|]. split; [apply le_abs; lra | intros H0; specialize (Hnn H0);
      change 0 with (inject_Z 0); rewrite <- Zle_Qle; change 0%Z with (Qfloor 0); apply Qfloor_resp_le; exact Hnn].
Qed.

Lemma round64_small x B :
  Qabs x <= B -> (4503599627370497 # 4503599627370496) * B + 1 < max_float_bound ->
  round64 x = Fin (round64q x) /\
  Qabs (round64q x) <= (4503599627370497 # 4503599627370496) * B + 1.
Proof.
  intros H HM. pose proof (round64q_rel x) as Hr.
  assert (Hb : Qabs (round64q x) <= (4503599627370497 # 4503599627370496) * B + 1) by lra.
  unfold round64. destruct (Qle_bool _ _) eqn:E.
  - apply Qle_bool_iff in E. lra.
  - auto.
Qed.

Lemma fmt_dur_hours_low q :
  3600 <= q -> q <= inject_Z ((2 ^ 53 - 64) * 2 ^ 971) ->
  exists h m s, fmt_dur (Fin q) =
    Some (Z_str h ++ "h " ++ fmt_02d m ++ "m " ++ zpad 5 (fmt_float 2 s) ++ "s")%string.
Proof.
  intros H1 H2.
  assert (EM : max_float_bound == inject_Z (2 ^ 53 * 2 ^ 971)) by reflexivity.
  assert (EB : inject_Z ((2 ^ 53 - 64) * 2 ^ 971) == (9007199254740928 # 9007199254740992) * inject_Z (2 ^ 53 * 2 ^ 971)) by reflexivity.
  set (K := inject_Z (2 ^ 53 * 2 ^ 971)) in *.
  assert (HK : 1267650600228229401496703205376 <= K) by (unfold K, Qle; simpl; lia).
  rewrite EB in H2. clear EB.
  set (E := 4503599627370497 # 4503599627370496).
  assert (Hq : Qabs q == q) by (apply Qabs_pos; lra).
  unfold fmt_dur. unfold fge at 1. rewrite (proj2 (Qle_bool_iff _ _) H1).
  destruct (floordiv_mag q 3600 (or_intror eq_refl)) as [v [Ev [Hv Hv0]]].
  specialize (Hv0 ltac:(lra)). rewrite Hq in Hv.
  rewrite Ev. cbn [int_of_float].
  set (h := qtrunc v).
  assert (Hh0 : 0 <= inject_Z h) by (change 0 with (inject_Z 0); rewrite <- Zle_Qle; apply qtrunc_nonneg, Hv0).
  assert (Hhv : inject_Z h <= v).
  { pose proof (qtrunc_abs v) as A. fold h in A. rewrite !Qabs_pos in A by lra. exact A. }
  assert (Hn1 : Qabs (inject_Z (h * 3600)) <= E * E * E * q + 21600).
  { rewrite inject_Z_mult. change (inject_Z 3600) with 3600.
    rewrite Qabs_pos by lra. pose proof (Qle_Qabs v). simpl Qpower in Hv. change (q / 3600) with (q * (1 # 3600)) in Hv. unfold E. lra. }
  destruct (round64_small _ _ Hn1) as [Ey Hy]; [unfold E; lra|].
  set (y := round64q (inject_Z (h * 3600))) in *.
  assert (Hy0 : 0 <= y) by (apply round64q_nonneg; rewrite inject_Z_mult; change (inject_Z 3600) with 3600; lra).
  unfold sub_float_int at 1, float_of_int at 1. rewrite Ey. cbn [fsub fneg fadd].
  assert (Hd : Qabs (q + - y) <= E * (E * E * E * q + 21600) + 1).
  { rewrite Qabs_pos in Hy by exact Hy0. apply le_abs; unfold E in *; lra. }
  destruct (round64_small _ _ Hd) as [Er Hr]; [unfold E; lra|].
  rewrite Er. set (r := round64q (q + - y)) in *.
  destruct (floordiv_mag r 60 (or_introl eq_refl)) as [v2 [Ev2 [Hv2 _]]].
  rewrite Ev2. cbn [int_of_float].
  set (m := qtrunc v2).
  assert (Hm : Qabs (inject_Z (m * 60)) <= E * E * E * (E * (E * (E * E * E * q + 21600) + 1) + 1) + 360).
  { rewrite inject_Z_mult. change (inject_Z 60) with 60. rewrite Qabs_Qmult. change (Qabs 60) with 60.
    pose proof (qtrunc_abs v2) as A. fold m in A. simpl Qpower in Hv2.
    assert (0 <= Qabs r / 60) by (apply Qle_shift_div_l; [reflexivity|]; rewrite Qmult_0_l; apply Qabs_nonneg).
    assert (Qabs r / 60 <= (E * (E * (E * E * E * q + 21600) + 1) + 1) / 60)
      by (apply Qmult_le_compat_r; [exact Hr | discriminate]).
    assert (Ed : (E * (E * (E * E * E * q + 21600) + 1) + 1) / 60 == (E * (E * (E * E * E * q + 21600) + 1) + 1) * (1 # 60)) by reflexivity.
    rewrite Ed in H0. unfold E in *. lra. }
  destruct (round64_small _ _ Hm) as [Ey2 _]; [unfold E; lra|].
  unfold sub_float_int, float_of_int. rewrite Ey2.
  eexists; eexists; eexists. reflexivity.
Qed.

Lemma top_doubles :
  forallb (fun j => match fmt_dur (Fin (inject_Z (2 ^ 53 - 1 - Z.of_nat j) * pow2 971)) with
                    | Some _ => true | None => false end) (seq 0 64) = true.
Proof. vm_compute. reflexivity. Qed.

Lemma double_top q :
  is_double q -> inject_Z ((2 ^ 53 - 64) * 2 ^ 971) < q ->
  exists j, (j < 64)%nat /\ q == inject_Z (2 ^ 53 - 1 - Z.of_nat j) * pow2 971.
Proof.
  intros (k & e & Hk & He & Hx) Hq.
  assert (He' : e = 971%Z).
  { destruct (Z.eq_dec e 971) as [|L]; [assumption|]. exfalso.
    assert (q <= inject_Z (2 ^ 53) * pow2 970).
    { rewrite Hx. apply Qle_trans with (inject_Z (Z.abs k) * pow2 e).
      - apply Qmult_le_compat_r; [|apply Qlt_le_weak, pow2_pos].
        rewrite <- Zle_Qle. lia.
      - apply Qle_trans with (inject_Z (2 ^ 53) * pow2 e).
        + apply Qmult_le_compat_r; [|apply Qlt_le_weak, pow2_pos]. rewrite <- Zle_Qle. lia.
        + apply Qmult_le_l; [reflexivity|]. apply pow2_le. lia. }
    rewrite pow2_nonneg_Z in H by lia. rewrite <- inject_Z_mult in H.
    assert (inject_Z ((2 ^ 53 - 64) * 2 ^ 971) < inject_Z (2 ^ 53 * 2 ^ 970)) by lra.
    rewrite <- Zlt_Qlt in H0. lia. }
  subst e.
  assert (Hk' : (2 ^ 53 - 64 < k)%Z).
  { rewrite Hx in Hq. rewrite pow2_nonneg_Z in Hq by lia. rewrite <- inject_Z_mult in Hq.
    rewrite <- Zlt_Qlt in Hq. nia. }
  exists (Z.to_nat (2 ^ 53 - 1 - k)). split; [lia|].
  rewrite Hx. rewrite Z2Nat.id by lia. replace (2 ^ 53 - 1 - (2 ^ 53 - 1 - k))%Z with k by lia.
  reflexivity.
Qed.

Lemma fmt_dur_hours_top q :
  is_double q -> inject_Z ((2 ^ 53 - 64) * 2 ^ 971) < q ->
  exists h m s, fmt_dur (Fin q) =
    Some (Z_str h ++ "h " ++ fmt_02d m ++ "m " ++ zpad 5 (fmt_float 2 s) ++ "s")%string.
Proof.
  intros Hd Hq. destruct (double_top q Hd Hq) as [j [Hj Eq]].
  rewrite (fmt_dur_comp _ _ Eq).
  pose proof top_doubles as T. rewrite forallb_forall in T.
  specialize (T j ltac:(apply in_seq; lia)).
  destruct (fmt_dur _) as [out|] eqn:Eo; [|discriminate].
  apply fmt_dur_hours_shape in Eo.
  - destruct Eo as (h & m & s & ->). exists h, m, s. reflexivity.
  - rewrite <- Eq. apply Qle_trans with (inject_Z ((2 ^ 53 - 64) * 2 ^ 971)); [|lra].
    apply Qle_bool_iff. vm_compute. reflexivity.
Qed.

Lemma fmt_dur_hours_all q :
  is_double q -> 3600 <= q ->
  exists h m s, fmt_dur (Fin q) =
    Some (Z_str h ++ "h " ++ fmt_02d m ++ "m " ++ zpad 5 (fmt_float 2 s) ++ "s")%string.
Proof.
  intros Hd Hq. destruct (Qlt_le_dec (inject_Z ((2 ^ 53 - 64) * 2 ^ 971)) q) as [L|L].
  - apply fmt_dur_hours_top; assumption.
  - apply fmt_dur_hours_low; assumption.
Qed.

Lemma floor_div_bounds q w :
  0 < w -> w * inject_Z (Qfloor (q / w)) <= q /\ q < w * inject_Z (Qfloor (q / w)) + w.
Proof.
  intros Hw. pose proof (Qfloor_le (q / w)) as F1. pose proof (Qlt_floor (q / w)) as F2.
  rewrite inject_Z_plus in F2. change (inject_Z 1) with 1 in F2.
  assert (Hy : w * (q / w) == q) by (field; lra).
  split.
  - apply Qle_trans with (w * (q / w)); [apply Qmult_le_l; lra | lra].
  - apply Qlt_le_trans with (w * (inject_Z (Qfloor (q / w)) + 1)); [|lra].
    rewrite <- Hy at 1. apply Qmult_lt_l; lra.
Qed.

Lemma split_exact q n w :
  is_double q -> 0 < w -> inject_Z n == w * inject_Z (Qfloor (q / w)) ->
  (Z.abs n < 2 ^ 53)%Z -> (1 <= Qfloor (q / w))%Z ->
  is_double (q - inject_Z n).
Proof.
  intros Hq Hw En Hn H1. destruct (floor_div_bounds q w Hw) as [B1 B2].
  assert (1 <= inject_Z (Qfloor (q / w))) by (change 1 with (inject_Z 1); rewrite <- Zle_Qle; exact H1).
  assert (w <= w * inject_Z (Qfloor (q / w))).
  { rewrite <- (Qmult_1_r w) at 1. apply Qmult_le_l; lra. }
  apply sterbenz; [exact Hq | apply is_double_Z, Hn | | |]; rewrite En; nra.
Qed.

Lemma fmt_dur_minutes_exact q :
  is_double q -> 60 <= q -> q < 3600 ->
  (1 <= Qfloor (q / 60) < 60)%Z /\ 0 <= q - inject_Z (Qfloor (q / 60) * 60) < 60 /\
  fmt_dur (Fin q) =
    Some (Z_str (Qfloor (q / 60)) ++ "m " ++
          zpad 5 (fmt_fixed 2 (q - inject_Z (Qfloor (q / 60) * 60))) ++ "s")%string.
Proof.
  intros Hq H1 H2. destruct (floor_div_bounds q 60 ltac:(reflexivity)) as [B1 B2].
  set (m := Qfloor (q / 60)) in *.
  assert (Hm : (1 <= m < 60)%Z).
  { assert (L1 : inject_Z 0 < inject_Z m) by (change (inject_Z 0) with 0; lra).
    assert (L2 : inject_Z m < inject_Z 60) by (change (inject_Z 60) with 60; lra).
    rewrite <- Zlt_Qlt in L1, L2. lia. }
  split; [exact Hm|]. split.
  { rewrite inject_Z_mult. change (inject_Z 60) with 60. lra. }
  unfold fmt_dur, fge.
  assert (Qle_bool 3600 q = false) as ->.
  { destruct (Qle_bool 3600 q) eqn:E; [apply Qle_bool_iff in E; lra | reflexivity]. }
  rewrite (proj2 (Qle_bool_iff _ _) H1).
  rewrite (floordiv_exact q 60 60) by (first [lia | reflexivity | lra]); fold m.
  destruct (sub_exact q (m * 60)) as [s [Es Hs]].
  { lia. }
  { apply (split_exact q _ 60); [exact Hq | lra | | lia | exact (proj1 Hm)].
    rewrite inject_Z_mult. fold m. change (inject_Z 60) with 60. ring. }
  rewrite Es. cbn [fmt_float]. rewrite (fmt_fixed_comp 2 _ _ Hs). reflexivity.
Qed.

Lemma fmt_dur_hours_exact q :
  is_double q -> 3600 <= q -> q < inject_Z (2 ^ 53) ->
  let h := Qfloor (q / 3600) in
  let r := q - inject_Z (h * 3600) in
  let m := Qfloor (r / 60) in
  (0 <= m < 60)%Z /\ 0 <= r - inject_Z (m * 60) < 60 /\
  fmt_dur (Fin q) =
    Some (Z_str h ++ "h " ++ fmt_02d m ++ "m " ++
          zpad 5 (fmt_fixed 2 (r - inject_Z (m * 60))) ++ "s")%string.
Proof.
  intros Hq H1 H2 h r m.
  destruct (floor_div_bounds q 3600 ltac:(reflexivity)) as [B1 B2]. fold h in B1, B2.
  assert (Hh : (1 <= h)%Z /\ (h * 3600 < 2 ^ 53)%Z).
  { assert (L1 : inject_Z 0 < inject_Z h) by (change (inject_Z 0) with 0; lra).
    assert (L2 : inject_Z (h * 3600) < inject_Z (2 ^ 53)) by (rewrite inject_Z_mult; change (inject_Z 3600) with 3600; lra).
    rewrite <- Zlt_Qlt in L1, L2. lia. }
  assert (Er : r == q - 3600 * inject_Z h) by (unfold r; rewrite inject_Z_mult; change (inject_Z 3600) with 3600; ring).
  assert (Hr : 0 <= r < 3600) by (rewrite Er; lra).
  assert (Hrd : is_double r).
  { apply (split_exact q _ 3600); [exact Hq | lra | | lia | exact (proj1 Hh)].
    rewrite inject_Z_mult. fold h. change (inject_Z 3600) with 3600. ring. }
  destruct (floor_div_bounds r 60 ltac:(reflexivity)) as [C1 C2]. fold m in C1, C2.
  assert (Hm : (0 <= m < 60)%Z).
  { assert (L1 : inject_Z (-1) < inject_Z m) by (change (inject_Z (-1)) with (-1); lra).
    assert (L2 : inject_Z m < inject_Z 60) by (change (inject_Z 60) with 60; lra).
    rewrite <- Zlt_Qlt in L1, L2. lia. }
  assert (Es : r - inject_Z (m * 60) == r - 60 * inject_Z m) by (rewrite inject_Z_mult; change (inject_Z 60) with 60; ring).
  split; [exact Hm|]. split; [rewrite Es; lra|].
  unfold fmt_dur, fge. rewrite (proj2 (Qle_bool_iff _ _) H1).
  rewrite (floordiv_exact q 3600 3600) by (first [lia | reflexivity | lra]). fold h.
  destruct (sub_exact q (h * 3600)) as [r' [Er' Hr']]; [lia | exact Hrd |]. fold r in Hr'.
  rewrite Er'.
  rewrite (floordiv_comp r' r 60 Hr').
  rewrite (floordiv_exact r 60 60) by (first [lia | reflexivity | lra]). fold m.
  destruct (sub_exact r' (m * 60)) as [s [Es' Hs]]; [lia| |].
  { apply (is_double_comp (r - inject_Z (m * 60))); [rewrite Hr'; reflexivity|].
    destruct (Z.eq_dec m 0) as [M0|M0].
    - apply (is_double_comp r); [rewrite M0; change (inject_Z (0 * 60)) with 0; ring | exact Hrd].
    - apply (split_exact r _ 60); [exact Hrd | lra | | lia | lia].
      rewrite inject_Z_mult. fold m. change (inject_Z 60) with 60. ring. }
  rewrite Es'. cbn [fmt_float]. rewrite (fmt_fixed_comp 2 s (r - inject_Z (m * 60))) by (rewrite Hs, Hr'; reflexivity).
  reflexivity.
Qed.

(** Claim C5: for a non-negative seconds value [x], [fmt_dur] renders
    [x] as ["{x:.2f}s"] when [x < 60]; as [m] minutes and [s] seconds
    when [60 <= x < 3600], with [m = x // 60] (between 1 and 59) and
    [s = x - 60 m] (in [0, 60)); as [h] hours, [m] minutes and [s]
    seconds when [x >= 3600], with [h = x // 3600], [m = (x - 3600 h) // 60]
    (between 0 and 59) and [s = x - 3600 h - 60 m] (in [0, 60)) for every
    float below [2^53], and with an output of that form for every float
    [x >= 3600] up to the largest one; 45.5 renders as "45.50s", 125.3 as
    "2m 05.30s" and 3725.0 as "1h 02m 05.00s". *)
Theorem fmt_dur_rule :
  (forall q : Q, 0 <= q ->
     (q < 60 -> fmt_dur (Fin q) = Some (fmt_fixed 2 q ++ "s")%string) /\
     (is_double q -> 60 <= q -> q < 3600 ->
        let m := Qfloor (q / 60) in
        let s := q - inject_Z (m * 60) in
        (1 <= m < 60)%Z /\ 0 <= s < 60 /\
        fmt_dur (Fin q) = Some (Z_str m ++ "m " ++ zpad 5 (fmt_fixed 2 s) ++ "s")%string) /\
     (is_double q -> 3600 <= q -> q < inject_Z (2 ^ 53) ->
        let h := Qfloor (q / 3600) in
        let r := q - inject_Z (h * 3600) in
        let m := Qfloor (r / 60) in
        let s := r - inject_Z (m * 60) in
        (0 <= m < 60)%Z /\ 0 <= s < 60 /\
        fmt_dur (Fin q) =
          Some (Z_str h ++ "h " ++ fmt_02d m ++ "m " ++ zpad 5 (fmt_fixed 2 s) ++ "s")%string) /\
     (is_double q -> 3600 <= q ->
        exists h m s, fmt_dur (Fin q) =
          Some (Z_str h ++ "h " ++ fmt_02d m ++ "m " ++ zpad 5 (fmt_float 2 s) ++ "s")%string) /\
     (3600 <= q -> forall out, fmt_dur (Fin q) = Some out ->
        exists h m s,
          out = (Z_str h ++ "h " ++ fmt_02d m ++ "m " ++ zpad 5 (fmt_float 2 s) ++ "s")%string)) /\
  fmt_dur (lit_float "45.5") = Some "45.50s" /\
  fmt_dur (lit_float "125.3") = Some "2m 05.30s" /\
  fmt_dur (lit_float "3725.0") = Some "1h 02m 05.00s".
Proof.
  split; [|split; [|split]]; [| vm_compute; reflexivity ..].
  intros q _. split; [apply fmt_dur_seconds|].
  split; [intros Hd H1 H2; apply fmt_dur_minutes_exact; assumption|].
  split; [intros Hd H1 H2; apply fmt_dur_hours_exact; assumption|].
  split; [apply fmt_dur_hours_all | intros H out; apply fmt_dur_hours_shape, H].
Qed.

Lemma fmt_dur_rule_witness :
  is_double 3725 /\ fmt_dur (Fin 3725) = Some "1h 02m 05.00s".
Proof.
  assert (Hd : is_double 3725) by (exists 3725%Z, 0%Z; split; [reflexivity | split; [lia | reflexivity]]).
  split; [exact Hd|].
  destruct (proj1 (proj2 (proj2 (proj1 fmt_dur_rule 3725 ltac:(lra)))) Hd ltac:(lra) ltac:(vm_compute; reflexivity))
    as [_ [_ E]].
  rewrite E. vm_compute. reflexivity.
Defined.

End Formatting.

(* ------------------------------------------------------------------ *)
(** ** Timestamps *)

Section Timestamps.
Local Open Scope list_scope.

Lemma digit_facts c :
  is_digit c = true ->
  Ascii.eqb c ":" = false /\ Ascii.eqb c nl = false /\ Ascii.eqb c "." = false /\ is_sign c = false.
Proof. destruct c as [[] [] [] [] [] [] [] []]; try discriminate; repeat split. Qed.

Lemma take_while_stop p l c r :
  forallb p l = true -> p c = false -> take_while p (l ++ c :: r) = l.
Proof.
  induction l as [|x l IH]; simpl; intros H Hc; [rewrite Hc; reflexivity|].
  apply andb_true_iff in H as [Hx H]. rewrite Hx, IH; auto.
Qed.

Lemma drop_while_stop p l c r :
  forallb p l = true -> p c = false -> drop_while p (l ++ c :: r) = c :: r.
Proof.
  induction l as [|x l IH]; simpl; intros H Hc; [rewrite Hc; reflexivity|].
  apply andb_true_iff in H as [Hx H]. rewrite Hx, IH; auto.
Qed.

Lemma forallb_rev {A} (p : A -> bool) l : forallb p (rev l) = forallb p l.
Proof.
  induction l as [|x l IH]; simpl; [reflexivity|].
  rewrite forallb_app, IH. simpl. rewrite andb_true_r, andb_comm. reflexivity.
Qed.

Lemma frac_match_rev pre run sg a b c d :
  forallb is_digit run = true -> (6 <= length run)%nat -> pre <> [] ->
  forallb (fun x => negb (Ascii.eqb x nl)) pre = true ->
  is_sign sg = true -> is_digit a = true -> is_digit b = true ->
  is_digit c = true -> is_digit d = true ->
  frac_match (rev ([d; c; b; a; sg] ++ run ++ "."%char :: pre)) =
  Some (rev pre ++ ["."%char] ++ firstn 6 (rev run), [sg; a; b; c; d]).
Proof.
  intros Hr Hl Hp Hn Hs Ha Hb Hc Hd. unfold frac_match. rewrite rev_involutive.
  destruct (digit_facts d Hd) as [_ [Hdn _]].
  change ([d; c; b; a; sg] ++ run ++ "."%char :: pre)
    with (d :: c :: b :: a :: sg :: (run ++ "."%char :: pre)).
  cbv beta iota zeta. rewrite Hdn. rewrite Hs, Ha, Hb, Hc, Hd. cbv beta iota.
  rewrite (take_while_stop _ _ "."%char _ Hr eq_refl), (drop_while_stop _ _ "."%char _ Hr eq_refl).
  destruct pre as [|x pre']; [congruence|].
  simpl Ascii.eqb. rewrite (proj2 (Nat.leb_le _ _) Hl). simpl length. simpl negb.
  rewrite Hn. reflexivity.
Qed.

Lemma rev_shape base f6 extra (sfx : list ascii) :
  base ++ "."%char :: f6 ++ extra ++ sfx =
  rev (rev sfx ++ rev (f6 ++ extra) ++ "."%char :: rev base).
Proof.
  rewrite !rev_app_distr. simpl. rewrite !rev_involutive.
  rewrite <- !app_assoc. reflexivity.
Qed.

Lemma normalize_nocolon base f6 extra sg a b c d :
  base <> [] -> forallb (fun x => negb (Ascii.eqb x nl)) base = true ->
  forallb is_digit f6 = true -> length f6 = 6%nat -> forallb is_digit extra = true ->
  is_sign sg = true -> is_digit a = true -> is_digit b = true ->
  is_digit c = true -> is_digit d = true ->
  normalize_ts (base ++ "."%char :: f6 ++ extra ++ [sg; a; b; c; d]) =
  base ++ "."%char :: f6 ++ [sg; a; b; c; d].
Proof.
  intros Hb0 Hbn Hf Hfl He Hs Ha Hb Hc Hd.
  rewrite rev_shape. simpl rev at 2.
  set (R := rev (f6 ++ extra) ++ "."%char :: rev base).
  unfold normalize_ts, tz_colon_search. rewrite rev_involutive.
  destruct (digit_facts b Hb) as [Hbc _]. destruct (digit_facts d Hd) as [_ [Hdn _]].
  assert (Ht : tz_tail ([d; c; b; a; sg] ++ R) = false).
  { unfold R. destruct (rev (f6 ++ extra)) as [|x r]; cbn [app tz_tail]; rewrite Hbc;
      rewrite !andb_false_r; reflexivity. }
  simpl app in Ht |- *. rewrite Ht, Hdn. simpl orb. cbv iota beta.
  change (d :: c :: b :: a :: sg :: R) with ([d; c; b; a; sg] ++ R).
  unfold R. rewrite frac_match_rev; auto.
  - rewrite !rev_involutive. rewrite firstn_app, <- Hfl, firstn_all, Nat.sub_diag.
    simpl. rewrite app_nil_r, <- app_assoc. reflexivity.
  - rewrite forallb_rev, forallb_app, Hf, He. reflexivity.
  - rewrite length_rev, length_app. lia.
  - destruct base; [congruence|]. simpl. intros H. destruct (rev base); discriminate.
  - rewrite forallb_rev. exact Hbn.
Qed.

Lemma normalize_colon base f6 extra sg a b c d :
  base <> [] -> forallb (fun x => negb (Ascii.eqb x nl)) base = true ->
  forallb is_digit f6 = true -> length f6 = 6%nat -> forallb is_digit extra = true ->
  is_sign sg = true -> is_digit a = true -> is_digit b = true ->
  is_digit c = true -> is_digit d = true ->
  normalize_ts (base ++ "."%char :: f6 ++ extra ++ [sg; a; b; ":"%char; c; d]) =
  base ++ "."%char :: f6 ++ [sg; a; b; c; d].
Proof.
  intros Hb0 Hbn Hf Hfl He Hs Ha Hb Hc Hd.
  set (X := base ++ "."%char :: f6 ++ extra).
  assert (EX : base ++ "."%char :: f6 ++ extra ++ [sg; a; b; ":"%char; c; d]
               = X ++ [sg; a; b; ":"%char; c; d])
    by (unfold X; rewrite <- !app_assoc; simpl; rewrite <- !app_assoc; reflexivity).
  rewrite EX.
  assert (Hcol : tz_colon_search (X ++ [sg; a; b; ":"%char; c; d]) = true).
  { unfold tz_colon_search. rewrite rev_app_distr. cbn [rev app tz_tail].
    rewrite Hs, Ha, Hb, Hc, Hd. reflexivity. }
  unfold normalize_ts. rewrite Hcol.
  assert (E1 : drop_last 3 (X ++ [sg; a; b; ":"%char; c; d]) = X ++ [sg; a; b]).
  { unfold drop_last. rewrite length_app. simpl length.
    replace (length X + 6 - 3)%nat with (length X + 3)%nat by lia.
    rewrite firstn_app_2. reflexivity. }
  assert (E2 : take_last 2 (X ++ [sg; a; b; ":"%char; c; d]) = [c; d]).
  { unfold take_last. rewrite length_app. simpl length.
    rewrite skipn_app, skipn_all2 by lia.
    replace (length X + 6 - 2 - length X)%nat with 4%nat by lia. reflexivity. }
  rewrite E1, E2, <- app_assoc. simpl app. unfold X. rewrite <- !app_assoc.
  simpl app.
  pose proof (normalize_nocolon base f6 extra sg a b c d Hb0 Hbn Hf Hfl He Hs Ha Hb Hc Hd) as N.
  unfold normalize_ts in N.
  assert (Hno : tz_colon_search (base ++ "."%char :: f6 ++ extra ++ [sg; a; b; c; d]) = false).
  { clear Hcol E1 E2 EX.
    destruct (tz_colon_search (base ++ "."%char :: f6 ++ extra ++ [sg; a; b; c; d])) eqn:E; [|reflexivity].
    exfalso. revert E. rewrite rev_shape. simpl rev at 2. unfold tz_colon_search.
    rewrite rev_involutive. destruct (digit_facts b Hb) as [Hbc _].
    destruct (digit_facts d Hd) as [_ [Hdn _]].
    destruct (rev (f6 ++ extra)) as [|x r]; cbn [app tz_tail]; rewrite Hbc, !andb_false_r;
      cbn [orb]; rewrite Hdn; discriminate. }
  rewrite Hno in N. rewrite <- app_assoc. exact N.
Qed.

(** Claim C6: [parse_iso_datetime] removes the colon of a [+hh:mm]
    offset and drops the fractional digits after the sixth before
    [strptime]: a timestamp with a colon in its offset and extra
    fractional digits normalises to the same string as the one without
    the colon and with six digits, so both parse to the same result; in
    particular "2024-01-15T10:30:00.1234567+02:00" and
    "2024-01-15T10:30:00.123456+0200" parse to the same datetime, whose
    instant is 2024-01-15T08:30:00.123456 UTC. *)
Theorem timestamp_normalization :
  (forall (base f6 extra : list ascii) (sg a b c d : ascii),
     base <> [] -> forallb (fun x => negb (Ascii.eqb x nl)) base = true ->
     forallb is_digit f6 = true -> length f6 = 6%nat -> forallb is_digit extra = true ->
     is_sign sg = true -> is_digit a = true -> is_digit b = true ->
     is_digit c = true -> is_digit d = true ->
     normalize_ts (base ++ "."%char :: f6 ++ extra ++ [sg; a; b; ":"%char; c; d]) =
       base ++ "."%char :: f6 ++ [sg; a; b; c; d] /\
     normalize_ts (base ++ "."%char :: f6 ++ [sg; a; b; c; d]) =
       base ++ "."%char :: f6 ++ [sg; a; b; c; d] /\
     parse_iso_datetime (str (base ++ "."%char :: f6 ++ extra ++ [sg; a; b; ":"%char; c; d])) =
       parse_iso_datetime (str (base ++ "."%char :: f6 ++ [sg; a; b; c; d]))) /\
  (exists dt,
     parse_iso_datetime "2024-01-15T10:30:00.1234567+02:00" = Some dt /\
     parse_iso_datetime "2024-01-15T10:30:00.123456+0200" = Some dt /\
     instant dt = 63840904200123456%Z).
Proof.
  split.
  - intros base f6 extra sg a b c d Hb0 Hbn Hf Hfl He Hs Ha Hb Hc Hd.
    pose proof (normalize_colon base f6 extra sg a b c d Hb0 Hbn Hf Hfl He Hs Ha Hb Hc Hd) as N1.
    pose proof (normalize_nocolon base f6 [] sg a b c d Hb0 Hbn Hf Hfl eq_refl Hs Ha Hb Hc Hd) as N2.
    simpl app in N2.
    split; [exact N1|]. split; [exact N2|].
    unfold parse_iso_datetime, chars. rewrite !list_ascii_of_string_of_list_ascii.
    rewrite N1, N2. reflexivity.
  - eexists. split; [vm_compute; reflexivity|]. split; vm_compute; reflexivity.
Qed.

Lemma timestamp_normalization_witness :
  parse_iso_datetime (str (chars "2024-01-15T10:30:00" ++ "."%char :: chars "123456"
                           ++ chars "7" ++ ["+"%char; "0"%char; "2"%char; ":"%char; "0"%char; "0"%char]))
  = parse_iso_datetime (str (chars "2024-01-15T10:30:00" ++ "."%char :: chars "123456"
                           ++ ["+"%char; "0"%char; "2"%char; "0"%char; "0"%char])).
Proof.
  refine (proj2 (proj2 (proj1 timestamp_normalization _ _ _ _ _ _ _ _ _ _ _ _ _ _ _ _ _ _)));
    try reflexivity; discriminate.
Defined.

End Timestamps.

(* ------------------------------------------------------------------ *)
(** ** Timestamps without fractional seconds *)

Section Fraction.
Local Open Scope list_scope.

(** The regular-expression matchers only ever consume a prefix of their
    input. *)
Lemma In_mbind {A B} (p : M A) (f : A -> M B) s b r :
  In (b, r) (mbind p f s) -> exists a r1, In (a, r1) (p s) /\ In (b, r) (f a r1).
Proof.
  unfold mbind. intros H. apply in_flat_map in H as [[a r1] [H1 H2]]. eauto.
Qed.

Lemma cp_mret {A} (x : A) : consumes_prefix (mret x).
Proof. intros s a r [H|[]]. injection H as _ <-. exists []. reflexivity. Qed.

Lemma cp_mfail {A} : consumes_prefix (@mfail A).
Proof. intros s a r []. Qed.

Lemma cp_msat p : consumes_prefix (msat p).
Proof.
  intros [|c t] a r H; simpl in H; [contradiction|].
  destruct (p c); [|contradiction]. destruct H as [H|[]]. injection H as _ <-.
  exists [c]. reflexivity.
Qed.

Lemma cp_mbind {A B} (p : M A) (f : A -> M B) :
  consumes_prefix p -> (forall a, consumes_prefix (f a)) -> consumes_prefix (mbind p f).
Proof.
  intros Hp Hf s b r H. apply In_mbind in H as [a [r1 [H1 H2]]].
  destruct (Hp _ _ _ H1) as [pre1 ->]. destruct (Hf _ _ _ _ H2) as [pre2 ->].
  exists (pre1 ++ pre2). apply app_assoc.
Qed.

Lemma cp_malt {A} (p q : M A) :
  consumes_prefix p -> consumes_prefix q -> consumes_prefix (malt p q).
Proof. intros Hp Hq s a r H. apply in_app_or in H as [H|H]; eauto. Qed.

Lemma cp_one p : consumes_prefix (one p).
Proof. apply cp_mbind; [apply cp_msat | intros; apply cp_mret]. Qed.

Lemma cp_mseq ps : Forall consumes_prefix ps -> consumes_prefix (mseq ps).
Proof.
  induction 1 as [|p ps Hp Hps IH]; simpl; [apply cp_mret|].
  apply cp_mbind; [exact Hp|]. intros a. apply cp_mbind; [exact IH|]. intros; apply cp_mret.
Qed.

Lemma cp_malts {A} (ps : list (M A)) : Forall consumes_prefix ps -> consumes_prefix (malts ps).
Proof.
  induction 1 as [|p ps Hp Hps IH]; simpl; [apply cp_mfail|]. apply cp_malt; assumption.
Qed.

Lemma cp_mopt p : consumes_prefix p -> consumes_prefix (mopt p).
Proof. intros H. apply cp_malt; [exact H | apply cp_mret]. Qed.

Lemma cp_mrep n lo p : consumes_prefix p -> consumes_prefix (mrep n lo p).
Proof.
  intros Hp. revert lo. induction n as [|n IH]; intros lo; cbn [mrep].
  - destruct (lo =? 0)%nat; [apply cp_mret | apply cp_mfail].
  - apply cp_malt; [apply cp_mseq; repeat constructor; auto|].
    destruct (lo =? 0)%nat; [apply cp_mret | apply cp_mfail].
Qed.

Ltac cp := repeat first
  [ apply cp_mseq | apply cp_malts | apply cp_mopt | apply cp_one | apply cp_mret
  | apply cp_mrep | apply Forall_cons | apply Forall_nil ].

Lemma cp_dgt : consumes_prefix dgt.
Proof. apply cp_one. Qed.
#[local] Hint Resolve cp_dgt : core.

Lemma cp_re_Y : consumes_prefix re_Y.
Proof. unfold re_Y. cp; auto. Qed.
Lemma cp_re_m : consumes_prefix re_m.
Proof. unfold re_m. cp; auto. Qed.
Lemma cp_re_d : consumes_prefix re_d.
Proof. unfold re_d. cp; auto. Qed.
Lemma cp_re_H : consumes_prefix re_H.
Proof. unfold re_H. cp; auto. Qed.
Lemma cp_re_M : consumes_prefix re_M.
Proof. unfold re_M. cp; auto. Qed.
Lemma cp_re_S : consumes_prefix re_S.
Proof. unfold re_S. cp; auto. Qed.

Lemma one_inv p s a r : In (a, r) (one p s) -> exists c, s = c :: r /\ p c = true.
Proof.
  unfold one. intros H. apply In_mbind in H as [c [r1 [H1 H2]]].
  destruct H2 as [H2|[]]. injection H2 as _ <-.
  destruct s as [|x t]; simpl in H1; [contradiction|].
  destruct (p x) eqn:E; [|contradiction]. destruct H1 as [H1|[]]. injection H1 as <- <-.
  eauto.
Qed.

Lemma re_f_inv s a r : In (a, r) (re_f s) -> exists x t, s = x :: t /\ is_digit x = true.
Proof.
  unfold re_f. simpl mrep. intros H. apply in_app_or in H as [H|[]].
  apply In_mbind in H as [a1 [r1 [H1 _]]].
  destruct (one_inv _ _ _ _ H1) as [c [-> Hc]]. eauto.
Qed.

Lemma hdd_mid l1 d l2 : is_digit d = true -> has_dot_digit (l1 ++ "."%char :: d :: l2) = true.
Proof.
  intros Hd. induction l1 as [|x l1 IH]; simpl.
  - rewrite Hd. reflexivity.
  - destruct (l1 ++ "."%char :: d :: l2) eqn:E; [destruct l1; discriminate|].
    rewrite IH. apply orb_true_r.
Qed.

Lemma hdd_app_r pre r : has_dot_digit r = true -> has_dot_digit (pre ++ r) = true.
Proof.
  intros H. induction pre as [|x pre IH]; simpl; [exact H|].
  destruct (pre ++ r) eqn:E; [destruct pre, r; discriminate|]. rewrite IH. apply orb_true_r.
Qed.

Ltac peel H cpl :=
  let a := fresh "a" in let r1 := fresh "r" in let H1 := fresh "H" in
  apply In_mbind in H as [a [r1 [H1 H]]];
  let pre := fresh "pre" in
  destruct (cpl _ _ _ H1) as [pre ->]; apply hdd_app_r; clear H1.

Lemma re_format_hdd s g r : In (g, r) (re_format s) -> has_dot_digit s = true.
Proof.
  unfold re_format. intros H.
  peel H cp_re_Y. peel H (cp_one (ceq "-")). peel H cp_re_m. peel H (cp_one (ceq "-")).
  peel H cp_re_d. peel H (cp_one (cieq "T")). peel H cp_re_H. peel H (cp_one (ceq ":")).
  peel H cp_re_M. peel H (cp_one (ceq ":")). peel H cp_re_S.
  apply In_mbind in H as [? [? [H1 H]]].
  destruct (one_inv _ _ _ _ H1) as [c [-> Hc]].
  apply In_mbind in H as [? [? [H2 _]]].
  destruct (re_f_inv _ _ _ H2) as [d [t [-> Hx]]].
  unfold ceq in Hc. apply Ascii.eqb_eq in Hc. subst c.
  apply (hdd_mid []). exact Hx.
Qed.

Lemma hdd_char l :
  has_dot_digit l = true -> exists l1 d l2, l = l1 ++ "."%char :: d :: l2 /\ is_digit d = true.
Proof.
  induction l as [|x [|y t] IH]; simpl; try discriminate.
  intros H. apply orb_true_iff in H as [H|H].
  - apply andb_true_iff in H as [Hx Hy]. apply Ascii.eqb_eq in Hx. subst x.
    exists [], y, t. auto.
  - destruct (IH H) as [l1 [d [l2 [E Hd]]]]. exists (x :: l1), d, l2. rewrite E. auto.
Qed.

Lemma hdd_app_l X Y : has_dot_digit X = true -> has_dot_digit (X ++ Y) = true.
Proof.
  intros H. destruct (hdd_char _ H) as [l1 [d [l2 [-> Hd]]]].
  rewrite <- app_assoc. simpl. apply hdd_mid, Hd.
Qed.

Lemma hdd_has_dot l : has_dot_digit l = true -> existsb (fun c => Ascii.eqb c ".") l = true.
Proof.
  induction l as [|x [|y t] IH]; simpl; try discriminate.
  intros H. apply orb_true_iff in H as [H|H].
  - apply andb_true_iff in H as [H _]. rewrite H. reflexivity.
  - simpl in IH. rewrite IH; [apply orb_true_r | exact H].
Qed.

Lemma hdd_app_inv X y Y :
  is_digit y = false -> existsb (fun c => Ascii.eqb c ".") (y :: Y) = false ->
  has_dot_digit (X ++ y :: Y) = true -> has_dot_digit X = true.
Proof.
  intros Hy HY. induction X as [|x X IH]; cbn [app].
  - intros H. apply (hdd_has_dot (y :: Y)) in H. congruence.
  - destruct X as [|x' X'].
    + cbn [app has_dot_digit]. rewrite Hy, andb_false_r. cbn [orb]. intros H.
      apply (hdd_has_dot (y :: Y)) in H. congruence.
    + cbn [app has_dot_digit] in IH |- *. fold (app X' (y :: Y)). intros H.
      apply orb_true_iff in H as [H|H]; [rewrite H; reflexivity|].
      rewrite IH; [apply orb_true_r | exact H].
Qed.

Lemma tz_colon_hdd s0 :
  tz_colon_search s0 = true ->
  has_dot_digit (drop_last 3 s0 ++ take_last 2 s0) = true -> has_dot_digit s0 = true.
Proof.
  unfold tz_colon_search. intros H0. rewrite <- (rev_involutive s0). revert H0.
  generalize (rev s0) as r0. clear s0. intros r0.
  assert (Htz : forall r, tz_tail r = true -> exists sg d1 d2 d3 d4 t,
            r = [d4; d3; ":"%char; d2; d1; sg] ++ t /\ is_sign sg = true /\
            is_digit d1 = true /\ is_digit d2 = true /\ is_digit d3 = true /\ is_digit d4 = true).
  { intros q H. destruct q as [|d4 [|d3 [|c [|d2 [|d1 [|sg t]]]]]]; try discriminate.
    simpl in H. repeat (apply andb_true_iff in H as [H ?]).
    apply Ascii.eqb_eq in H2. subst c. exists sg, d1, d2, d3, d4, t. repeat split; assumption. }
  assert (Hsg : forall sg, is_sign sg = true -> is_digit sg = false /\ Ascii.eqb sg "." = false).
  { intros sg H. destruct sg as [[] [] [] [] [] [] [] []]; try discriminate; split; reflexivity. }
  assert (Hd : forall d, is_digit d = true -> Ascii.eqb d "." = false).
  { intros d H. destruct d as [[] [] [] [] [] [] [] []]; try discriminate; reflexivity. }
  intros H. apply orb_true_iff in H as [H|H].
  - apply Htz in H as [sg [d1 [d2 [d3 [d4 [t [E [Hs [H1 [H2 [H3 H4]]]]]]]]]]].
    rewrite E. simpl rev. rewrite <- !app_assoc. simpl app.
    unfold drop_last, take_last. rewrite length_app. simpl length.
    replace (length (rev t) + 6 - 3)%nat with (length (rev t) + 3)%nat by lia.
    replace (length (rev t) + 6 - 2)%nat with (length (rev t) + 4)%nat by lia.
    rewrite firstn_app_2, skipn_app. rewrite skipn_all2 by lia. rewrite length_rev.
    replace (length t + 4 - length t)%nat with 4%nat by lia. simpl.
    intros Hh. apply hdd_app_l. rewrite <- app_assoc in Hh.
    destruct (Hsg _ Hs) as [Hs1 Hs2].
    apply (hdd_app_inv _ sg [d1; d2; d3; d4]); [exact Hs1| |exact Hh].
    simpl. rewrite Hs2, (Hd _ H1), (Hd _ H2), (Hd _ H3), (Hd _ H4). reflexivity.
  - destruct r0 as [|e r]; [discriminate|].
    apply andb_true_iff in H as [He H]. apply Ascii.eqb_eq in He. subst e.
    apply Htz in H as [sg [d1 [d2 [d3 [d4 [t [E [Hs [H1 [H2 [H3 H4]]]]]]]]]]].
    rewrite E. simpl rev. rewrite <- !app_assoc. simpl app.
    unfold drop_last, take_last. rewrite length_app. simpl length.
    replace (length (rev t) + 7 - 3)%nat with (length (rev t) + 4)%nat by lia.
    replace (length (rev t) + 7 - 2)%nat with (length (rev t) + 5)%nat by lia.
    rewrite firstn_app_2, skipn_app. rewrite skipn_all2 by lia. rewrite length_rev.
    replace (length t + 5 - length t)%nat with 5%nat by lia. simpl.
    intros Hh. apply hdd_app_l. rewrite <- app_assoc in Hh.
    destruct (Hsg _ Hs) as [Hs1 Hs2].
    apply (hdd_app_inv _ sg [d1; d2; ":"%char; d4; nl]); [exact Hs1| |exact Hh].
    simpl. rewrite Hs2, (Hd _ H1), (Hd _ H2), (Hd _ H4). reflexivity.
Qed.

Lemma frac_match_hdd s p : frac_match s = Some p -> has_dot_digit s = true.
Proof.
  unfold frac_match. rewrite <- (rev_involutive s) at 2. generalize (rev s) as r0. clear s.
  intros r0.
  assert (Hcore : forall core,
    match core with
    | d4 :: d3 :: d2 :: d1 :: sg :: rest =>
        if is_sign sg && is_digit d1 && is_digit d2 && is_digit d3 && is_digit d4 then
          match drop_while is_digit rest with
          | c :: pre =>
              if Ascii.eqb c "." && (6 <=? length (take_while is_digit rest))%nat
                 && negb (length pre =? 0)%nat && forallb (fun x => negb (Ascii.eqb x nl)) pre
              then Some ((rev pre ++ ["."%char] ++ firstn 6 (rev (take_while is_digit rest)))%list,
                         [sg; d1; d2; d3; d4])
              else None
          | [] => None
          end
        else None
    | _ => None
    end = Some p -> has_dot_digit (rev core) = true).
  { intros core. destruct core as [|d4 [|d3 [|d2 [|d1 [|sg rest]]]]]; try discriminate.
    destruct (_ && _); [|discriminate].
    destruct (drop_while is_digit rest) as [|c pre] eqn:Ed; [discriminate|].
    destruct (Ascii.eqb c "." && _) eqn:Hc; [|discriminate]. intros _.
    apply andb_true_iff in Hc as [Hc Hl]. apply Ascii.eqb_eq in Hc. subst c.
    apply Nat.leb_le in Hl.
    pose proof (take_drop_while is_digit rest) as Er. rewrite Ed in Er.
    pose proof (take_while_all is_digit rest) as Ha. rewrite <- forallb_rev in Ha.
    destruct (rev (take_while is_digit rest)) as [|y ys] eqn:Ery.
    - apply (f_equal (@length ascii)) in Ery. rewrite length_rev in Ery. simpl in Ery. lia.
    - simpl in Ha. apply andb_true_iff in Ha as [Hy _].
      rewrite <- Er. cbn [rev]. rewrite rev_app_distr, Ery. cbn [rev].
      rewrite <- !app_assoc. cbn [app]. apply hdd_mid, Hy. }
  destruct r0 as [|c r']; [discriminate|].
  cbn [rev]. destruct (Ascii.eqb c nl).
  - intros H. apply hdd_app_l, (Hcore r'), H.
  - intros H. change (rev r' ++ [c]) with (rev (c :: r')). exact (Hcore (c :: r') H).
Qed.

Lemma normalize_ts_hdd s0 :
  has_dot_digit (normalize_ts s0) = true -> has_dot_digit s0 = true.
Proof.
  unfold normalize_ts. intros H.
  assert (H1 : has_dot_digit (if tz_colon_search s0 then (drop_last 3 s0 ++ take_last 2 s0) else s0) = true).
  { destruct (frac_match _) as [p|] eqn:E; [apply (frac_match_hdd _ _ E) | exact H]. }
  destruct (tz_colon_search s0) eqn:T; [apply tz_colon_hdd; assumption | exact H1].
Qed.

Lemma strptime_iso_hdd s dt : strptime_iso s = Some dt -> has_dot_digit s = true.
Proof.
  unfold strptime_iso, re_full_match. destruct (re_format s) as [|[g r] l] eqn:E; [discriminate|].
  destruct r; [|discriminate]. intros _.
  apply (re_format_hdd s g []). rewrite E. left. reflexivity.
Qed.

(** Claim C10: a timestamp without a fractional-seconds part, that is
    whose text has no ["."] followed by a digit anywhere, is rejected by
    [parse_iso_datetime] (the source raises [ValueError]); in particular
    ["2024-01-15T10:30:00+0200"] and ["2024-01-15T10:30:00+02:00"] are
    rejected, while the same instant with the fraction [".0"] parses. *)
Theorem parse_iso_datetime_requires_fraction :
  (forall s, has_dot_digit (chars s) = false -> parse_iso_datetime s = None) /\
  parse_iso_datetime "2024-01-15T10:30:00+0200" = None /\
  parse_iso_datetime "2024-01-15T10:30:00+02:00" = None /\
  (exists dt, parse_iso_datetime "2024-01-15T10:30:00.0+0200" = Some dt).
Proof.
  split; [|split; [|split]].
  - intros s H. unfold parse_iso_datetime.
    destruct (strptime_iso _) as [dt|] eqn:E; [|reflexivity].
    apply strptime_iso_hdd, normalize_ts_hdd in E. congruence.
  - vm_compute. reflexivity.
  - vm_compute. reflexivity.
  - eexists. vm_compute. reflexivity.
Qed.

Lemma parse_iso_datetime_requires_fraction_witness :
  has_dot_digit (chars "2024-01-15T10:30:00+0200") = false /\
  parse_iso_datetime "2024-01-15T10:30:00+0200" = None.
Proof.
  split; [reflexivity|]. apply (proj1 parse_iso_datetime_requires_fraction). reflexivity.
Defined.

End Fraction.

(* ------------------------------------------------------------------ *)
(** ** Order of the class sections *)

Section Ordering.
Local Open Scope list_scope.

Lemma mem_app x l1 l2 : mem x (l1 ++ l2) = mem x l1 || mem x l2.
Proof. unfold mem. apply existsb_app. Qed.

Lemma mem_filter y p l : mem y (filter p l) = mem y l && p y.
Proof.
  unfold mem. induction l as [|x l IH]; simpl; [reflexivity|].
  destruct (String.eqb_spec y x) as [->|Hne].
  - destruct (p x) eqn:E; simpl; [rewrite String.eqb_refl; reflexivity|].
    rewrite IH, andb_false_r. reflexivity.
  - apply String.eqb_neq in Hne.
    destruct (p x); simpl; rewrite ?Hne; exact IH.
Qed.

Lemma mem_In x l : mem x l = true <-> In x l.
Proof.
  unfold mem. rewrite existsb_exists. split.
  - intros [y [Hy E]]. apply String.eqb_eq in E. subst. exact Hy.
  - intros H. exists x. split; [exact H | apply String.eqb_refl].
Qed.

Lemma filter_filter_and (f g : string -> bool) l :
  filter f (filter g l) = filter (fun y => g y && f y) l.
Proof.
  induction l as [|x l IH]; simpl; [reflexivity|].
  destruct (g x); simpl; [destruct (f x)|]; simpl; rewrite ?IH; reflexivity.
Qed.

Lemma first_seen_filter p l : first_seen (filter p l) = filter p (first_seen l).
Proof.
  induction l as [|x l IH]; simpl; [reflexivity|].
  destruct (p x) eqn:Hp; simpl.
  - rewrite IH, !filter_filter_and. f_equal. apply filter_ext. intros y. apply andb_comm.
  - rewrite IH, filter_filter_and. apply filter_ext. intros y.
    destruct (String.eqb_spec y x) as [->|_]; simpl; [rewrite Hp|]; reflexivity.
Qed.

Lemma mem_first_seen y l : mem y (first_seen l) = mem y l.
Proof.
  induction l as [|x l IH]; simpl; [reflexivity|].
  unfold mem in *. simpl. fold (mem y (filter (fun y0 => negb (y0 =? x)%string) (first_seen l))).
  rewrite mem_filter. unfold mem. rewrite IH.
  destruct (String.eqb_spec y x); simpl; [reflexivity|]. apply andb_true_r.
Qed.

Lemma first_seen_idem l : first_seen (first_seen l) = first_seen l.
Proof.
  induction l as [|x l IH]; simpl; [reflexivity|].
  rewrite first_seen_filter, IH, filter_filter_and. f_equal. apply filter_ext.
  intros y. apply andb_diag.
Qed.

Lemma fold_add_new l acc :
  fold_left add_new l acc = acc ++ filter (fun y => negb (mem y acc)) (first_seen l).
Proof.
  revert acc. induction l as [|x l IH]; intros acc; simpl; [rewrite app_nil_r; reflexivity|].
  change (add_new acc x) with (if mem x acc then acc else acc ++ [x]).
  destruct (mem x acc) eqn:Hx; simpl.
  - rewrite IH, filter_filter_and. simpl. f_equal. apply filter_ext. intros y.
    destruct (String.eqb_spec y x) as [->|_]; simpl; [rewrite Hx|]; reflexivity.
  - rewrite IH, <- app_assoc, filter_filter_and. simpl. f_equal. f_equal. apply filter_ext.
    intros y. rewrite mem_app. simpl. rewrite orb_false_r, negb_orb, andb_comm. reflexivity.
Qed.

Lemma filter_all_true (p : string -> bool) l : (forall y, p y = true) -> filter p l = l.
Proof. intros H. induction l as [|x l IH]; simpl; [reflexivity|]. rewrite H, IH. reflexivity. Qed.

Lemma od_get_mem {V} k (d : odict V) : od_mem k d = mem k (map fst d).
Proof.
  unfold od_mem, mem. induction d as [|[k' v] d IH]; simpl; [reflexivity|].
  destruct (k =? k')%string; [reflexivity | exact IH].
Qed.

Lemma keys_od_set {V} k (v : V) d : map fst (od_set k v d) = add_new (map fst d) k.
Proof.
  unfold add_new, mem. induction d as [|[k' v'] d IH]; simpl; [reflexivity|].
  destruct (String.eqb_spec k k') as [->|_]; simpl; [reflexivity|].
  rewrite IH. destruct (existsb _ _); reflexivity.
Qed.

Lemma keys_od_append k t d : map fst (od_append k t d) = add_new (map fst d) k.
Proof.
  unfold add_new, mem. induction d as [|[k' ts] d IH]; simpl; [reflexivity|].
  destruct (String.eqb_spec k k') as [->|_]; simpl; [reflexivity|].
  rewrite IH. destruct (existsb _ _); reflexivity.
Qed.

Lemma keys_group_classes tests :
  map fst (group_classes tests) = first_seen (map class_name tests).
Proof.
  unfold group_classes.
  assert (H : forall ts d, map fst (fold_left (fun d t => od_append (class_name t) t d) ts d)
                           = fold_left add_new (map class_name ts) (map fst d)).
  { induction ts as [|t ts IH]; intros d; simpl; [reflexivity|]. rewrite IH, keys_od_append. reflexivity. }
  rewrite H. rewrite fold_add_new. apply filter_all_true. reflexivity.
Qed.

Lemma keys_sort_classes classes :
  map fst (sort_classes classes) =
  fold_left add_new (map fst classes)
    (fold_left add_new (filter (fun c => mem c (map fst classes)) CLASS_ORDER) []).
Proof.
  unfold sort_classes.
  assert (H1 : forall co acc,
    map fst (fold_left (fun acc c => match od_get c classes with
                                      | Some ts => od_set c ts acc
                                      | None => acc
                                      end) co acc) =
    fold_left add_new (filter (fun c => mem c (map fst classes)) co) (map fst acc)).
  { induction co as [|c co IH]; intros acc; simpl; [reflexivity|].
    rewrite <- od_get_mem. unfold od_mem.
    destruct (od_get c classes); simpl; rewrite IH; [rewrite keys_od_set|]; reflexivity. }
  assert (H2 : forall cl (acc : odict (list Test)),
    map fst (fold_left (fun acc '(c, ts) => if od_mem c acc then acc else od_set c ts acc) cl acc) =
    fold_left add_new (map fst cl) (map fst acc)).
  { induction cl as [|[c ts] cl IH]; intros acc; simpl; [reflexivity|].
    rewrite IH, od_get_mem.
    change (add_new (map fst acc) c) with (if mem c (map fst acc) then map fst acc else map fst acc ++ [c]).
    destruct (mem c (map fst acc)) eqn:E; [reflexivity|].
    rewrite keys_od_set. unfold add_new at 2. rewrite E. reflexivity. }
  rewrite H2, H1. reflexivity.
Qed.

Lemma CLASS_ORDER_first_seen : first_seen CLASS_ORDER = CLASS_ORDER.
Proof. vm_compute. reflexivity. Qed.

(** Claim C4: whatever the order of the results in the document, the
    classes are rendered (in the order of [ordered_classes]) with the
    classes of [CLASS_ORDER] that occur first, in the order of
    [CLASS_ORDER], followed by every other class in the order it is
    first encountered among the results. *)
Theorem ordered_classes_order tests :
  map fst (ordered_classes tests) =
  filter (fun c => mem c (map class_name tests)) CLASS_ORDER ++
  filter (fun c => negb (mem c CLASS_ORDER)) (first_seen (map class_name tests)).
Proof.
  unfold ordered_classes. rewrite keys_sort_classes, keys_group_classes.
  set (names := map class_name tests).
  rewrite (fold_add_new _ []), filter_all_true by reflexivity. rewrite app_nil_l.
  rewrite first_seen_filter, CLASS_ORDER_first_seen.
  assert (Hm : forall c, mem c (first_seen names) = mem c names) by (intros; apply mem_first_seen).
  rewrite (filter_ext _ _ Hm).
  rewrite fold_add_new, first_seen_idem. f_equal. apply filter_ext_in.
  intros y Hy. apply mem_In in Hy. rewrite Hm in Hy. rewrite mem_filter, Hy, andb_true_r. reflexivity.
Qed.

End Ordering.

(* ------------------------------------------------------------------ *)
(** ** Escaping of the text taken from the results *)

Section Escaping.

Lemma chars_app a b : chars (a ++ b) = (chars a ++ chars b)%list.
Proof. induction a as [|c a IH]; simpl; [reflexivity|]. unfold chars in *. simpl. rewrite IH. reflexivity. Qed.

Lemma scan_app k l1 l2 : scan k (l1 ++ l2)%list = scan (scan k l1) l2.
Proof. unfold scan. apply fold_left_app. Qed.

Lemma good_app a b : good a -> good b -> good (a ++ b).
Proof. unfold good. intros Ha Hb. rewrite chars_app, scan_app, Ha. exact Hb. Qed.

Lemma good_empty : good "".
Proof. reflexivity. Qed.

Lemma good_concat l : Forall good l -> good (String.concat "" l).
Proof.
  induction 1 as [|x l Hx Hl IH]; [apply good_empty|].
  destruct l as [|y l]; [exact Hx|]. change (good (x ++ "" ++ String.concat "" (y :: l))).
  apply good_app; [exact Hx|]. exact IH.
Qed.

Lemma no_lt_good s : no_lt s = true -> good s.
Proof.
  unfold no_lt, good, scan. generalize (chars s). clear s. intros l.
  induction l as [|c l IH]; simpl; [reflexivity|].
  intros H. apply andb_true_iff in H as [Hc H].
  unfold scan_step at 2. simpl. destruct (c =? "<")%char; [discriminate|]. apply IH, H.
Qed.

Lemma no_lt_app a b : no_lt (a ++ b) = no_lt a && no_lt b.
Proof. unfold no_lt. rewrite chars_app. apply forallb_app. Qed.

Lemma no_lt_String c s : no_lt (String c s) = negb (c =? "<")%char && no_lt s.
Proof. reflexivity. Qed.

Lemma no_lt_uint d : no_lt (NilEmpty.string_of_uint d) = true.
Proof. induction d; simpl NilEmpty.string_of_uint; rewrite ?no_lt_String; try exact IHd; reflexivity. Qed.

Lemma no_lt_Z_str z : no_lt (Z_str z) = true.
Proof.
  unfold Z_str, NilEmpty.string_of_int. destruct (Z.to_int z); rewrite ?no_lt_String; apply no_lt_uint.
Qed.

Lemma no_lt_repeat c n : (c =? "<")%char = false -> no_lt (repeat_char c n) = true.
Proof. intros Hc. induction n as [|n IH]; simpl; [reflexivity|]. rewrite no_lt_String, Hc, IH. reflexivity. Qed.

Lemma no_lt_zpad w s : no_lt s = true -> no_lt (zpad w s) = true.
Proof.
  intros H. unfold zpad. destruct s as [|c r].
  - rewrite no_lt_app, no_lt_repeat by reflexivity. reflexivity.
  - rewrite no_lt_String in H. apply andb_true_iff in H as [Hc Hr].
    destruct c as [[] [] [] [] [] [] [] []];
      rewrite !no_lt_app, no_lt_repeat by reflexivity;
      cbn [andb]; rewrite ?no_lt_String, ?Hr, ?Hc; reflexivity.
Qed.

Ltac no_lt_tac :=
  repeat first
    [ rewrite no_lt_app
    | rewrite no_lt_Z_str
    | rewrite no_lt_zpad by (rewrite ?no_lt_Z_str; reflexivity)
    | progress cbn [andb] ];
  try reflexivity.

Lemma no_lt_fmt_02d z : no_lt (fmt_02d z) = true.
Proof. unfold fmt_02d. apply no_lt_zpad, no_lt_Z_str. Qed.

Lemma no_lt_fmt_float d x : no_lt (fmt_float d x) = true.
Proof.
  destruct x as [q|[]|]; try reflexivity. unfold fmt_float, fmt_fixed.
  destruct d; rewrite !no_lt_app, no_lt_Z_str; [|rewrite no_lt_zpad by apply no_lt_Z_str];
    destruct (qltb q 0); reflexivity.
Qed.

Lemma no_lt_fmt_dur x s : fmt_dur x = Some s -> no_lt s = true.
Proof.
  unfold fmt_dur. intros H.
  repeat match type of H with
         | context [match ?o with Some _ => _ | None => None end] =>
             destruct o; [|discriminate]
         | context [if ?b then _ else _] => destruct b
         end;
  injection H as <-;
  repeat first [ rewrite no_lt_app | rewrite no_lt_String | rewrite no_lt_Z_str
               | rewrite no_lt_fmt_02d | rewrite no_lt_fmt_float
               | rewrite no_lt_zpad by apply no_lt_fmt_float ];
  reflexivity.
Qed.

Lemma no_lt_escape_char c : no_lt (escape_char c) = true.
Proof.
  unfold escape_char.
  destruct (c =? "&")%char; [reflexivity|]. destruct (c =? "<")%char eqn:E; [reflexivity|].
  destruct (c =? ">")%char; [reflexivity|]. destruct (c =? chr 34)%char; [reflexivity|].
  destruct (c =? "'")%char; [reflexivity|]. rewrite no_lt_String, E. reflexivity.
Qed.

Lemma no_lt_html_escape s : no_lt (html_escape s) = true.
Proof.
  induction s as [|c s IH]; [reflexivity|]. simpl html_escape.
  rewrite no_lt_app, no_lt_escape_char, IH. reflexivity.
Qed.

Lemma no_lt_strftime t : no_lt (strftime_ymd_hms t) = true.
Proof.
  unfold strftime_ymd_hms. cbn [String.concat].
  rewrite !no_lt_app, no_lt_Z_str, !no_lt_fmt_02d. reflexivity.
Qed.

Lemma Some_eq {A} (a b : A) : Some a = Some b -> a = b.
Proof. congruence. Qed.

Ltac piece :=
  lazymatch goal with
  | |- good (String.concat "" _) =>
      apply good_concat; repeat (apply Forall_cons; [piece|]); apply Forall_nil
  | |- good (if ?b then _ else _) => destruct b; piece
  | |- good (match ?o with Some _ => _ | None => _ end) => destruct o; piece
  | |- good (_ ++ _) => apply good_app; piece
  | |- good (Z_str _) => apply no_lt_good, no_lt_Z_str
  | |- good (html_escape _) => apply no_lt_good, no_lt_html_escape
  | |- good (fmt_float _ _) => apply no_lt_good, no_lt_fmt_float
  | |- good (strftime_ymd_hms _) => apply no_lt_good, no_lt_strftime
  | |- good ?x =>
      first [ assumption
            | apply no_lt_good; eapply no_lt_fmt_dur; eassumption
            | vm_compute; reflexivity ]
  end.

Lemma good_table_get tbl k :
  forallb (fun kv => no_lt (snd kv)) tbl = true -> good (table_get tbl k).
Proof.
  intros H. apply no_lt_good. unfold table_get, get_default.
  destruct (attr_get tbl k) as [v|] eqn:E; [|reflexivity].
  induction tbl as [|[k' v'] tbl IH]; simpl in E; [discriminate|].
  simpl in H. apply andb_true_iff in H as [H1 H2].
  destruct (k =? k')%string; [injection E as <-; exact H1 | apply IH; assumption].
Qed.

Lemma CLASS_DESCRIPTIONS_no_lt : forallb (fun kv => no_lt (snd kv)) CLASS_DESCRIPTIONS = true.
Proof. vm_compute. reflexivity. Qed.

Lemma good_test_row ci i t s : test_row ci i t = Some s -> good s.
Proof.
  unfold test_row. destruct (fmt_dur (duration_sec t)) as [dur|] eqn:E; [|discriminate].
  intros H. apply Some_eq in H. subst s. piece.
Qed.

Lemma good_test_rows ci i l s : test_rows ci i l = Some s -> good s.
Proof.
  revert i s. induction l as [|t l IH]; intros i s; simpl.
  - intros H. apply Some_eq in H. subst s. apply good_empty.
  - destruct (test_row ci i t) as [row|] eqn:E1; [|discriminate].
    destruct (test_rows ci (i + 1) l) as [rest|] eqn:E2; [|discriminate].
    intros H. apply Some_eq in H. subst s.
    apply good_app; [apply (good_test_row _ _ _ _ E1) | apply (IH _ _ E2)].
Qed.

Lemma good_class_table ci c l s : class_table ci c l = Some s -> good s.
Proof.
  unfold class_table.
  destruct (test_rows ci 1 (sort_by_method l)) as [rows|] eqn:E1; [|discriminate].
  destruct (fmt_dur (fsum (map duration_sec l))) as [total_s|] eqn:E2; [|discriminate].
  intros H. apply Some_eq in H. subst s.
  pose proof (good_test_rows _ _ _ _ E1).
  pose proof (good_table_get CLASS_DESCRIPTIONS c CLASS_DESCRIPTIONS_no_lt).
  piece.
Qed.

Lemma good_class_tables idx cls s : class_tables idx cls = Some s -> good s.
Proof.
  revert idx s. induction cls as [|[c ts] cls IH]; intros idx s; simpl.
  - intros H. apply Some_eq in H. subst s. apply good_empty.
  - destruct (class_table idx c ts) as [x|] eqn:E1; [|discriminate].
    destruct (class_tables (idx + 1) cls) as [rest|] eqn:E2; [|discriminate].
    intros H. apply Some_eq in H. subst s.
    apply good_app; [apply (good_class_table _ _ _ _ E1) | apply (IH _ _ E2)].
Qed.

Lemma good_stat_card label value sub accent :
  good label -> good value -> good sub -> good accent -> good (stat_card label value sub accent).
Proof. intros. unfold stat_card. piece. Qed.

Lemma scan_7 l : scan 7 l = 7%nat.
Proof. unfold scan. induction l as [|c l IH]; [reflexivity|]. exact IH. Qed.

Lemma skipn_script_tag k :
  (k < 7)%nat -> skipn k script_tag = nth k script_tag " "%char :: skipn (S k) script_tag.
Proof. intros Hk. do 7 (destruct k as [|k]; [reflexivity|]). lia. Qed.

Lemma step_letter k c :
  (1 <= k <= 6)%nat -> Ascii.eqb (lower c) (nth k script_tag " "%char) = true ->
  scan_step k c = S k.
Proof.
  intros Hk Hc. unfold scan_step.
  destruct (c =? "<")%char eqn:E.
  - apply Ascii.eqb_eq in E. subst c.
    do 7 (destruct k as [|k]; [try lia; discriminate|]). lia.
  - replace (k =? 7)%nat with false by (symmetry; apply Nat.eqb_neq; lia).
    replace (1 <=? k)%nat with true by (symmetry; apply Nat.leb_le; lia).
    rewrite Hc. reflexivity.
Qed.

Lemma ci_prefix_scan k l :
  (1 <= k <= 7)%nat -> ci_prefix (skipn k script_tag) l = true -> scan k l = 7%nat.
Proof.
  revert k. induction l as [|c l IH]; intros k Hk H.
  - destruct (Nat.eq_dec k 7) as [->|Hne]; [reflexivity|].
    rewrite skipn_script_tag in H by lia. discriminate.
  - destruct (Nat.eq_dec k 7) as [->|Hne]; [apply scan_7|].
    rewrite skipn_script_tag in H by lia. cbn [ci_prefix] in H.
    apply andb_true_iff in H as [Hc H].
    change (scan (scan_step k c) l = 7%nat). rewrite step_letter by (assumption || lia).
    apply IH; [lia | exact H].
Qed.

Lemma contains_script_scan l k : contains_script l = true -> scan k l = 7%nat.
Proof.
  revert k. induction l as [|c l IH]; intros k; [discriminate|].
  intros H. change (scan (scan_step k c) l = 7%nat).
  cbn [contains_script] in H. apply orb_true_iff in H as [H|H]; [|apply IH, H].
  unfold script_tag in H. cbn [chars list_ascii_of_string ci_prefix] in H.
  apply andb_true_iff in H as [Hc H]. apply Ascii.eqb_eq in Hc.
  assert (c = "<"%char) as ->.
  { destruct c as [[] [] [] [] [] [] [] []]; try discriminate; reflexivity. }
  unfold scan_step. destruct (k =? 7)%nat; [apply scan_7|]. rewrite Ascii.eqb_refl.
  apply ci_prefix_scan; [lia | exact H].
Qed.

Lemma good_no_script s : good s -> contains_script (chars s) = false.
Proof.
  unfold good. intros H. destruct (contains_script (chars s)) eqn:E; [|reflexivity].
  apply (contains_script_scan _ 0) in E. congruence.
Qed.

Lemma good_html_doc doc out : html_doc doc = Some out -> good out.
Proof.
  unfold html_doc. cbv zeta. intros H.
  repeat match type of H with
    | context [match ?o with Some _ => _ | None => None end] =>
        let E := fresh "E" in destruct o eqn:E; [|discriminate]
    end.
  apply Some_eq in H. subst out.
  repeat match goal with
    | E : fmt_dur _ = Some ?v |- _ => pose proof (no_lt_good _ (no_lt_fmt_dur _ _ E)); clear E
    | E : class_tables _ _ = Some _ |- _ => pose proof (good_class_tables _ _ _ E); clear E
    | E : Some ?a = Some ?v |- _ => apply Some_eq in E; subst v
    | E : (match ?o with Some _ => _ | None => _ end) = Some _ |- _ => destruct o
    end.
  all: unfold stat_card, summary_bg; piece.
Qed.

Lemma html_escape_markup s :
  forallb (fun c => negb (markup_char c)) (chars (html_escape s)) = true.
Proof.
  induction s as [|c s IH]; [reflexivity|]. simpl html_escape. rewrite chars_app, forallb_app, IH.
  rewrite andb_true_r. unfold escape_char.
  destruct (c =? "&")%char eqn:E1; [reflexivity|]. destruct (c =? "<")%char eqn:E2; [reflexivity|].
  destruct (c =? ">")%char eqn:E3; [reflexivity|]. destruct (c =? chr 34)%char eqn:E4; [reflexivity|].
  destruct (c =? "'")%char eqn:E5; [reflexivity|].
  cbn. unfold markup_char. rewrite E2, E3, E4, E5. reflexivity.
Qed.

(** Claim C8: text taken from the test results reaches the report only
    through [html.escape]. Whatever the document, a report that is
    produced contains no script element opening ["<script"] in any letter
    case; the escaped text has none of the characters [<], [>], the
    double quote and the single quote; and a test named ["Suite.<script>alert(1)</script>"] with the
    output ["<SCRIPT>x</SCRIPT>"] appears in the report in escaped
    form. *)
Theorem html_doc_escapes_test_text :
  (forall doc out, html_doc doc = Some out -> contains_script (chars out) = false) /\
  (forall s, forallb (fun c => negb (markup_char c)) (chars (html_escape s)) = true) /\
  (exists out m n, html_doc script_doc = Some out /\
                   String.index 0 "&lt;script&gt;alert(1)&lt;/script&gt;" out = Some m /\
                   String.index 0 "&lt;SCRIPT&gt;x&lt;/SCRIPT&gt;" out = Some n).
Proof.
  split; [|split].
  - intros doc out H. apply good_no_script, (good_html_doc doc), H.
  - apply html_escape_markup.
  - vm_compute. do 3 eexists. split; [reflexivity|]. split; reflexivity.
Qed.

Lemma html_doc_escapes_test_text_witness :
  exists out, html_doc script_doc = Some out /\ contains_script (chars out) = false.
Proof.
  exists (match html_doc script_doc with Some o => o | None => EmptyString end).
  split; [vm_compute; reflexivity|].
  apply (proj1 html_doc_escapes_test_text script_doc). vm_compute. reflexivity.
Defined.

End Escaping.

(* ================================================================== *)
(** * Further properties of the script *)

Section Results_and_classes.
Local Open Scope list_scope.

Lemma chars_str l : chars (str l) = l.
Proof. apply list_ascii_of_string_of_list_ascii. Qed.

Lemma str_chars s : str (chars s) = s.
Proof. apply string_of_list_ascii_of_string. Qed.

Lemma str_app a b : str (a ++ b) = (str a ++ str b)%string.
Proof. induction a as [|c a IH]; simpl; [reflexivity|]. unfold str in *. simpl. rewrite IH. reflexivity. Qed.

Lemma existsb_rev {A} (p : A -> bool) l : existsb p (rev l) = existsb p l.
Proof.
  apply Bool.eq_iff_eq_true. rewrite !existsb_exists.
  split; intros [x [Hx Hp]]; exists x; (split; [|exact Hp]).
  - apply in_rev in Hx. exact Hx.
  - apply in_rev. rewrite rev_involutive. exact Hx.
Qed.

Lemma drop_while_split p l : exists pre, l = pre ++ drop_while p l /\ forallb p pre = true.
Proof.
  induction l as [|c l IH]; simpl; [exists []; auto|].
  destruct (p c) eqn:E.
  - destruct IH as [pre [H1 H2]]. exists (c :: pre). simpl. rewrite E, <- H1. auto.
  - exists []. auto.
Qed.

Lemma drop_while_nodot l :
  existsb is_dot l = true ->
  exists rest, drop_while (fun c => negb (is_dot c)) l = "."%char :: rest.
Proof.
  induction l as [|c l IH]; simpl; [discriminate|].
  destruct (is_dot c) eqn:E; simpl.
  - intros _. exists l. unfold is_dot in E. apply Ascii.eqb_eq in E. subst. reflexivity.
  - exact IH.
Qed.

Lemma forallb_negb {A} (p : A -> bool) l : forallb (fun x => negb (p x)) l = negb (existsb p l).
Proof. induction l as [|x l IH]; simpl; [reflexivity|]. rewrite IH, negb_orb. reflexivity. Qed.

(** The decomposition behind [rsplit_dot]: a name with a dot is its
    part before the last dot, the dot, and a dot-free last part. *)
Lemma rsplit_dot_shape l :
  existsb is_dot l = true ->
  l = fst (rsplit_dot l) ++ "."%char :: snd (rsplit_dot l) /\
  existsb is_dot (snd (rsplit_dot l)) = false.
Proof.
  intros H. unfold rsplit_dot. rewrite H. cbn [fst snd].
  rewrite <- existsb_rev in H.
  destruct (drop_while_nodot _ H) as [rest E]. rewrite E. cbn [tl].
  pose proof (take_drop_while (fun c => negb (is_dot c)) (rev l)) as T. rewrite E in T.
  pose proof (take_while_all (fun c => negb (is_dot c)) (rev l)) as A.
  set (tw := take_while (fun c => negb (is_dot c)) (rev l)) in *.
  split.
  - rewrite <- (rev_involutive l) at 1. rewrite <- T, rev_app_distr. simpl.
    rewrite <- app_assoc. reflexivity.
  - rewrite existsb_rev. rewrite forallb_negb in A.
    destruct (existsb is_dot tw); [discriminate|reflexivity].
Qed.

Lemma split_on_nonempty sep l : split_on sep l <> [].
Proof.
  destruct l as [|c l]; simpl; [discriminate|].
  destruct (c =? sep)%char; [discriminate|]. destruct (split_on sep l); discriminate.
Qed.

Lemma split_on_nosep sep l :
  forallb (fun c => negb (c =? sep)%char) l = true -> split_on sep l = [l].
Proof.
  induction l as [|c l IH]; simpl; [reflexivity|].
  intros H. apply andb_true_iff in H as [Hc H]. destruct (c =? sep)%char; [discriminate|].
  rewrite IH by exact H. reflexivity.
Qed.

Lemma split_on_app sep a b :
  split_on sep (a ++ sep :: b) = split_on sep a ++ split_on sep b.
Proof.
  induction a as [|c a IH]; simpl.
  - rewrite Ascii.eqb_refl. reflexivity.
  - destruct (c =? sep)%char; [rewrite IH; reflexivity|].
    rewrite IH. pose proof (split_on_nonempty sep a) as N.
    destruct (split_on sep a); [congruence|]. reflexivity.
Qed.

Lemma loop_method_name_rsplit l : loop_method_name l = snd (rsplit_dot l).
Proof.
  unfold loop_method_name. destruct (existsb is_dot l) eqn:H.
  - destruct (rsplit_dot_shape l H) as [E N].
    rewrite E at 1. rewrite split_on_app, (split_on_nosep _ (snd (rsplit_dot l))).
    + rewrite last_last. reflexivity.
    + change (fun c => negb (c =? ".")%char) with (fun c => negb (is_dot c)).
      rewrite forallb_negb, N. reflexivity.
  - unfold rsplit_dot. rewrite H. reflexivity.
Qed.

(** [Test.__init__]: the method name never contains a dot; a full name
    with a dot is the class name, a dot and the method name (split at the
    last dot); a full name without a dot gives an empty class name and is
    the method name. *)
Theorem mk_Test_names full o d desc out :
  let t := mk_Test full o d desc out in
  existsb is_dot (chars (method_name t)) = false /\
  (if existsb is_dot (chars full)
   then full = (class_name t ++ "." ++ method_name t)%string
   else class_name t = "" /\ method_name t = full).
Proof.
  cbv zeta. unfold mk_Test.
  destruct (existsb is_dot (chars full)) eqn:H.
  - destruct (rsplit_dot_shape _ H) as [E N].
    destruct (rsplit_dot (chars full)) as [c m]. cbn [class_name method_name fst snd] in *.
    rewrite chars_str. split; [exact N|].
    rewrite <- (str_chars full), E, str_app. reflexivity.
  - unfold rsplit_dot. rewrite H. cbn [class_name method_name].
    rewrite chars_str, H, str_chars. auto.
Qed.

(** The results loop: the method name used for the description lookup
    ([split] at the dots, last piece) is the one the test stores, and the
    stored description is the [TEST_DESCRIPTIONS] entry of that method
    name (empty when absent). *)
Theorem parse_result_description r t :
  parse_result r = Some t ->
  loop_method_name (chars (full_name t)) = chars (method_name t) /\
  description t = table_get TEST_DESCRIPTIONS (method_name t).
Proof.
  unfold parse_result. destruct (parse_duration _) as [dur|]; [|discriminate].
  intros H. apply Some_eq in H. subst t. unfold mk_Test.
  destruct (rsplit_dot (chars (get_default (r_attrs r) "testName" ""))) as [c m] eqn:E.
  cbn [full_name method_name description snd].
  rewrite loop_method_name_rsplit, E, chars_str. auto.
Qed.

Lemma parse_result_description_witness :
  exists t, parse_result logged_result = Some t /\
    loop_method_name (chars (full_name t)) = chars (method_name t) /\
    description t = table_get TEST_DESCRIPTIONS (method_name t).
Proof.
  exists (match parse_result logged_result with Some t => t | None => mk_Test "" "" PNaN "" "" end).
  split; [vm_compute; reflexivity|].
  apply (parse_result_description logged_result). vm_compute. reflexivity.
Defined.

Lemma drop_while_head_false p l c r : drop_while p l = c :: r -> p c = false.
Proof.
  induction l as [|x l IH]; simpl; [discriminate|].
  destruct (p x) eqn:E; [exact IH|]. intros H. injection H as <- <-. exact E.
Qed.

Lemma strip_ends l :
  match strip l with [] => True | c :: _ => is_space c = false end /\
  match rev (strip l) with [] => True | c :: _ => is_space c = false end.
Proof.
  unfold strip. rewrite rev_involutive. split.
  - set (X := drop_while is_space l).
    assert (HX : match X with [] => True | c :: _ => is_space c = false end).
    { destruct X as [|c r] eqn:E; [exact I|]. exact (drop_while_head_false _ _ _ _ E). }
    destruct (drop_while_split is_space (rev X)) as [pre [E _]].
    set (D := drop_while is_space (rev X)) in *.
    assert (EX : X = rev D ++ rev pre) by (rewrite <- rev_app_distr, <- E, rev_involutive; reflexivity).
    destruct (rev D) as [|c r]; [exact I|]. rewrite EX in HX. exact HX.
  - destruct (drop_while is_space _) as [|c r] eqn:E; [exact I|].
    exact (drop_while_head_false _ _ _ _ E).
Qed.

(** The results loop: the stored log never starts or ends with a
    whitespace character ([strip]). *)
Theorem parse_result_stdout_stripped r t :
  parse_result r = Some t ->
  match chars (stdout t) with [] => True | c :: _ => is_space c = false end /\
  match rev (chars (stdout t)) with [] => True | c :: _ => is_space c = false end.
Proof.
  unfold parse_result. destruct (parse_duration _) as [dur|]; [|discriminate].
  intros H. apply Some_eq in H. subst t. unfold mk_Test.
  destruct (rsplit_dot _) as [c m]. cbn [stdout].
  destruct (r_stdout r) as [x|]; [|split; exact I].
  destruct (String.eqb x ""); [split; exact I|].
  rewrite chars_str. apply strip_ends.
Qed.

Lemma parse_result_stdout_stripped_witness :
  exists t, parse_result logged_result = Some t /\ stdout t = "log line" /\
    match chars (stdout t) with [] => True | c :: _ => is_space c = false end /\
    match rev (chars (stdout t)) with [] => True | c :: _ => is_space c = false end.
Proof.
  exists (match parse_result logged_result with Some t => t | None => mk_Test "" "" PNaN "" "" end).
  split; [vm_compute; reflexivity|]. split; [vm_compute; reflexivity|].
  apply (parse_result_stdout_stripped logged_result). vm_compute. reflexivity.
Defined.

Lemma parse_duration_default : parse_duration "00:00:00.0000000" = Some (Fin 0).
Proof. vm_compute. reflexivity. Qed.

(** The results loop: a result entry without a duration attribute is
    never rejected; it gets a duration of 0 seconds, and its test name and
    outcome are read with their defaults. *)
Theorem parse_result_missing_duration r :
  attr_get (r_attrs r) "duration" = None ->
  exists t, parse_result r = Some t /\ duration_sec t = Fin 0 /\
            full_name t = get_default (r_attrs r) "testName" "" /\
            outcome t = get_default (r_attrs r) "outcome" "Unknown".
Proof.
  intros H. unfold parse_result.
  replace (get_default (r_attrs r) "duration" "00:00:00.0000000") with "00:00:00.0000000"
    by (unfold get_default; rewrite H; reflexivity).
  rewrite parse_duration_default. eexists. split; [reflexivity|].
  unfold mk_Test. destruct (rsplit_dot _). auto.
Qed.

Lemma parse_result_missing_duration_witness :
  attr_get (r_attrs undated_result) "duration" = None /\
  exists t, parse_result undated_result = Some t /\ duration_sec t = Fin 0 /\
            full_name t = get_default (r_attrs undated_result) "testName" "" /\
            outcome t = get_default (r_attrs undated_result) "outcome" "Unknown".
Proof.
  split; [reflexivity|]. apply (parse_result_missing_duration undated_result). reflexivity.
Defined.

Lemma od_set_get {V} (k : string) (v : V) (d : odict V) k' :
  od_get k' (od_set k v d) = if String.eqb k' k then Some v else od_get k' d.
Proof.
  induction d as [|[k0 v0] d IH]; simpl; [reflexivity|].
  destruct (String.eqb_spec k k0) as [->|Hne]; simpl.
  + destruct (String.eqb k' k0); reflexivity.
  + rewrite IH. destruct (String.eqb_spec k' k0) as [->|]; [|reflexivity].
    apply String.eqb_neq in Hne. rewrite String.eqb_sym, Hne. reflexivity.
Qed.

Lemma od_append_get k t d k' :
  od_get k' (od_append k t d) =
  if String.eqb k' k
  then Some (match od_get k d with Some ts => ts ++ [t] | None => [t] end)
  else od_get k' d.
Proof.
  induction d as [|[k0 v0] d IH]; simpl; [reflexivity|].
  destruct (String.eqb_spec k k0) as [->|Hne]; simpl.
  + destruct (String.eqb k' k0); reflexivity.
  + rewrite IH. destruct (String.eqb_spec k' k0) as [->|]; [|reflexivity].
    apply String.eqb_neq in Hne. rewrite String.eqb_sym, Hne. reflexivity.
Qed.

Lemma fold_group_get c ts d :
  od_get c (fold_left (fun d t => od_append (class_name t) t d) ts d) =
  match od_get c d with
  | Some a => Some (a ++ filter (of_class c) ts)
  | None => match filter (of_class c) ts with [] => None | f => Some f end
  end.
Proof.
  revert d. induction ts as [|t ts IH]; intros d; simpl.
  - destruct (od_get c d); rewrite ?app_nil_r; reflexivity.
  - rewrite IH, od_append_get.
    destruct (String.eqb_spec c (class_name t)) as [Hc|Hc].
    + assert (Ht : of_class c t = true) by (unfold of_class; rewrite Hc; apply String.eqb_refl).
      rewrite Ht, <- Hc. destruct (od_get c d); rewrite <- ?app_assoc; reflexivity.
    + assert (Ht : of_class c t = false) by (unfold of_class; apply String.eqb_neq; congruence).
      rewrite Ht. reflexivity.
Qed.

(** Grouping by class: the list of a class is exactly the tests of that
    class in their order among all tests, and a class without tests has
    no entry. *)
Theorem group_classes_lookup tests c :
  od_get c (group_classes tests) =
  match filter (fun t => String.eqb (class_name t) c) tests with
  | [] => None
  | ts => Some ts
  end.
Proof. unfold group_classes. rewrite fold_group_get. reflexivity. Qed.

Lemma NoDup_add_new ks x : NoDup ks -> NoDup (add_new ks x).
Proof.
  unfold add_new. destruct (mem x ks) eqn:E; [auto|]. intros H.
  apply Permutation_NoDup with (x :: ks); [apply Permutation_cons_append|].
  constructor; [|exact H]. intros Hin. apply mem_In in Hin. congruence.
Qed.

Lemma NoDup_od_set {V} k (v : V) d : NoDup (map fst d) -> NoDup (map fst (od_set k v d)).
Proof. rewrite keys_od_set. apply NoDup_add_new. Qed.

Lemma NoDup_group tests : NoDup (map fst (group_classes tests)).
Proof.
  unfold group_classes.
  assert (H : forall ts d, NoDup (map fst d) ->
            NoDup (map fst (fold_left (fun d t => od_append (class_name t) t d) ts d))).
  { induction ts as [|t ts IH]; intros d Hd; simpl; [exact Hd|].
    apply IH. rewrite keys_od_append. apply NoDup_add_new, Hd. }
  apply H. constructor.
Qed.

Lemma sort_classes_get classes k : od_get k (sort_classes classes) = od_get k classes.
Proof.
  unfold sort_classes.
  assert (H1 : forall co acc,
    (forall k, od_get k acc = None \/ od_get k acc = od_get k classes) ->
    forall k,
      od_get k (fold_left (fun acc c => match od_get c classes with
                                        | Some ts => od_set c ts acc
                                        | None => acc
                                        end) co acc) = None \/
      od_get k (fold_left (fun acc c => match od_get c classes with
                                        | Some ts => od_set c ts acc
                                        | None => acc
                                        end) co acc) = od_get k classes).
  { induction co as [|c co IH]; intros acc Hacc; simpl; [exact Hacc|]. apply IH.
    intros k'. destruct (od_get c classes) as [ts|] eqn:Ec; [|apply Hacc].
    rewrite od_set_get. destruct (String.eqb_spec k' c) as [->|]; [right; symmetry; exact Ec | apply Hacc]. }
  assert (H2 : forall (L acc : odict (list Test)),
    (forall k, od_get k acc = None \/ od_get k acc = od_get k classes) ->
    (forall k, od_get k acc = None -> od_get k L = od_get k classes) ->
    forall k, od_get k (fold_left (fun acc '(c, ts) => if od_mem c acc then acc else od_set c ts acc)
                                  L acc) = od_get k classes).
  { induction L as [|[c ts] L IH]; intros acc I1 I2 k'; simpl.
    - destruct (I1 k') as [E|E]; [rewrite E, <- (I2 k' E); reflexivity | exact E].
    - destruct (od_mem c acc) eqn:Em; unfold od_mem in Em; destruct (od_get c acc) eqn:Ea;
        try discriminate.
      + apply IH; [exact I1|]. intros k'' Hk. rewrite <- (I2 k'' Hk). simpl.
        destruct (String.eqb_spec k'' c) as [->|]; [congruence | reflexivity].
      + apply IH.
        * intros k''. rewrite od_set_get. destruct (String.eqb_spec k'' c) as [->|]; [|apply I1].
          right. rewrite <- (I2 c Ea). simpl. rewrite String.eqb_refl. reflexivity.
        * intros k'' Hk. rewrite od_set_get in Hk.
          destruct (String.eqb_spec k'' c) as [|Hne]; [discriminate|].
          rewrite <- (I2 k'' Hk). simpl. apply String.eqb_neq in Hne. rewrite Hne. reflexivity. }
  apply H2; [apply H1; intros; left; reflexivity | reflexivity].
Qed.

Lemma NoDup_sort_classes classes : NoDup (map fst (sort_classes classes)).
Proof.
  unfold sort_classes.
  assert (H1 : forall co acc, NoDup (map fst acc) ->
    NoDup (map fst (fold_left (fun acc c => match od_get c classes with
                                            | Some ts => od_set c ts acc
                                            | None => acc
                                            end) co acc))).
  { induction co as [|c co IH]; intros acc Hacc; simpl; [exact Hacc|]. apply IH.
    destruct (od_get c classes); [apply NoDup_od_set|]; exact Hacc. }
  assert (H2 : forall (L acc : odict (list Test)), NoDup (map fst acc) ->
    NoDup (map fst (fold_left (fun acc '(c, ts) => if od_mem c acc then acc else od_set c ts acc)
                              L acc))).
  { induction L as [|[c ts] L IH]; intros acc Hacc; simpl; [exact Hacc|]. apply IH.
    destruct (od_mem c acc); [|apply NoDup_od_set]; exact Hacc. }
  apply H2, H1. constructor.
Qed.

Lemma od_get_In {V} (d : odict V) k v :
  NoDup (map fst d) -> (In (k, v) d <-> od_get k d = Some v).
Proof.
  induction d as [|[k0 v0] d IH]; simpl; intros H; [split; [contradiction | discriminate]|].
  inversion H as [|? ? Hn Hd]; subst.
  destruct (String.eqb_spec k k0) as [->|Hne].
  - split.
    + intros [E|Hin]; [congruence|]. exfalso. apply Hn. apply in_map_iff. exists (k0, v). auto.
    + intros E. injection E as ->. left. reflexivity.
  - rewrite <- IH by exact Hd. split; [intros [E|Hin]; [congruence | exact Hin] | intros; right; assumption].
Qed.

Lemma od_perm {V} (d1 d2 : odict V) :
  NoDup (map fst d1) -> NoDup (map fst d2) -> (forall k, od_get k d1 = od_get k d2) ->
  Permutation d1 d2.
Proof.
  intros N1 N2 H. apply NoDup_Permutation.
  - apply (NoDup_map_inv fst), N1.
  - apply (NoDup_map_inv fst), N2.
  - intros [k v]. rewrite !od_get_In by assumption. rewrite H. reflexivity.
Qed.

Lemma perm_concat_snd (L1 L2 : odict (list Test)) :
  Permutation L1 L2 -> Permutation (concat (map snd L1)) (concat (map snd L2)).
Proof.
  induction 1 as [| x l l' _ IH | x y l | l l' l'' _ IH1 _ IH2]; simpl.
  - apply Permutation_refl.
  - apply Permutation_app_head, IH.
  - rewrite !app_assoc. apply Permutation_app_tail, Permutation_app_comm.
  - eapply Permutation_trans; eassumption.
Qed.

Lemma concat_od_append k t d :
  Permutation (concat (map snd (od_append k t d))) (concat (map snd d) ++ [t]).
Proof.
  induction d as [|[k0 ts] d IH]; simpl; [apply Permutation_refl|].
  destruct (String.eqb k k0); simpl.
  - rewrite <- !app_assoc. apply Permutation_app_head, Permutation_app_comm.
  - rewrite <- app_assoc. apply Permutation_app_head, IH.
Qed.

Lemma concat_group tests : Permutation (concat (map snd (group_classes tests))) tests.
Proof.
  unfold group_classes.
  assert (H : forall ts d,
    Permutation (concat (map snd (fold_left (fun d t => od_append (class_name t) t d) ts d)))
                (concat (map snd d) ++ ts)).
  { induction ts as [|t ts IH]; intros d; simpl; [rewrite app_nil_r; apply Permutation_refl|].
    eapply Permutation_trans; [apply IH|].
    eapply Permutation_trans; [apply Permutation_app_tail, concat_od_append|].
    rewrite <- app_assoc. apply Permutation_refl. }
  apply H.
Qed.

(** Sorting the classes: every class appears once, with the same list of
    tests as before sorting, and the class sections together hold every
    test exactly once. *)
Theorem ordered_classes_sections tests :
  NoDup (map fst (ordered_classes tests)) /\
  (forall c, od_get c (ordered_classes tests) = od_get c (group_classes tests)) /\
  Permutation (ordered_classes tests) (group_classes tests) /\
  Permutation (concat (map snd (ordered_classes tests))) tests.
Proof.
  unfold ordered_classes.
  assert (Hg : forall c, od_get c (sort_classes (group_classes tests)) = od_get c (group_classes tests))
    by (intros; apply sort_classes_get).
  assert (HP : Permutation (sort_classes (group_classes tests)) (group_classes tests))
    by (apply od_perm; [apply NoDup_sort_classes | apply NoDup_group | exact Hg]).
  split; [apply NoDup_sort_classes|]. split; [exact Hg|]. split; [exact HP|].
  eapply Permutation_trans; [apply perm_concat_snd, HP | apply concat_group].
Qed.

Lemma str_lt_trans a b c :
  String.compare a b = Lt -> String.compare b c = Lt -> String.compare a c = Lt.
Proof.
  revert b c. induction a as [|x a IH]; intros [|y b] [|z c]; simpl; try congruence.
  unfold Ascii.compare.
  destruct (N.compare_spec (N_of_ascii x) (N_of_ascii y)) as [Exy|Exy|Exy];
  destruct (N.compare_spec (N_of_ascii y) (N_of_ascii z)) as [Eyz|Eyz|Eyz];
  destruct (N.compare_spec (N_of_ascii x) (N_of_ascii z)) as [Exz|Exz|Exz];
  try congruence; try lia; eauto.
Qed.

Lemma str_lt_le a b c :
  String.compare a b = Lt -> String.compare b c <> Gt -> String.compare a c = Lt.
Proof.
  intros H1 H2. destruct (String.compare b c) eqn:E; [|eapply str_lt_trans; eassumption | congruence].
  apply String.compare_eq_iff in E. subst. exact H1.
Qed.

Lemma str_le_trans a b c :
  String.compare a b <> Gt -> String.compare b c <> Gt -> String.compare a c <> Gt.
Proof.
  intros H1 H2. destruct (String.compare a b) eqn:E.
  - apply String.compare_eq_iff in E. subst. exact H2.
  - rewrite (str_lt_le _ _ _ E H2). discriminate.
  - congruence.
Qed.

Lemma method_le_iff a b : method_le a b <-> String.compare (method_name a) (method_name b) <> Gt.
Proof. unfold method_le, String.leb. destruct (String.compare _ _); split; congruence. Qed.

Lemma not_ltb_le t u :
  String.ltb (method_name t) (method_name u) = false -> method_le u t.
Proof.
  unfold String.ltb. intros H. apply method_le_iff. rewrite String.compare_antisym.
  destruct (String.compare (method_name t) (method_name u)); simpl; congruence.
Qed.

Lemma ltb_le t u :
  String.ltb (method_name t) (method_name u) = true -> method_le t u.
Proof.
  unfold String.ltb. intros H. apply method_le_iff.
  destruct (String.compare (method_name t) (method_name u)); congruence.
Qed.

Lemma insert_perm t l : Permutation (insert_by_method t l) (t :: l).
Proof.
  induction l as [|u l IH]; simpl; [apply Permutation_refl|].
  destruct (String.ltb _ _); [apply Permutation_refl|].
  eapply Permutation_trans; [apply perm_skip, IH | apply perm_swap].
Qed.

Lemma insert_sorted t l : Sorted method_le l -> Sorted method_le (insert_by_method t l).
Proof.
  induction l as [|u l IH]; simpl; intros H; [repeat constructor|].
  destruct (String.ltb (method_name t) (method_name u)) eqn:E.
  - constructor; [exact H|]. constructor. apply ltb_le, E.
  - apply Sorted_inv in H as [Hl Hh]. constructor; [apply IH, Hl|].
    destruct l as [|w l]; simpl.
    + constructor. apply not_ltb_le, E.
    + destruct (String.ltb (method_name t) (method_name w)); constructor;
        [apply not_ltb_le, E | inversion Hh; assumption].
Qed.

Lemma sort_by_method_perm l : Permutation (sort_by_method l) l.
Proof.
  unfold sort_by_method. rewrite <- (rev_involutive l) at 2. generalize (rev l). clear l.
  intros l. induction l as [|t l IH]; simpl; [apply Permutation_refl|].
  eapply Permutation_trans; [apply insert_perm|].
  eapply Permutation_trans; [apply perm_skip, IH | apply Permutation_cons_append].
Qed.

Lemma insert_filter_other m t l :
  String.eqb (method_name t) m = false ->
  filter (fun u => String.eqb (method_name u) m) (insert_by_method t l) =
  filter (fun u => String.eqb (method_name u) m) l.
Proof.
  intros Ht. induction l as [|u l IH]; simpl; [rewrite Ht; reflexivity|].
  destruct (String.ltb _ _); simpl; rewrite ?Ht, ?IH; reflexivity.
Qed.

Lemma str_compare_refl s : String.compare s s = Eq.
Proof.
  induction s as [|x s IH]; simpl; [reflexivity|]. unfold Ascii.compare. rewrite N.compare_refl. exact IH.
Qed.

Lemma filter_none {A} (p : A -> bool) L : (forall w, In w L -> p w = false) -> filter p L = [].
Proof.
  induction L as [|x L IH]; simpl; intros H; [reflexivity|].
  rewrite H by (left; reflexivity). apply IH. intros w Hw. apply H. right. exact Hw.
Qed.

Lemma filter_cons_eq {A} (p : A -> bool) x L :
  filter p (x :: L) = if p x then x :: filter p L else filter p L.
Proof. reflexivity. Qed.

Lemma insert_filter_same m t l :
  StronglySorted method_le l -> method_name t = m ->
  filter (fun u => String.eqb (method_name u) m) (insert_by_method t l) =
  filter (fun u => String.eqb (method_name u) m) l ++ [t].
Proof.
  intros H Ht. induction l as [|u l IH]; cbn [insert_by_method];
    [rewrite filter_cons_eq, Ht, String.eqb_refl; reflexivity|].
  apply StronglySorted_inv in H as [Hl Hu].
  destruct (String.ltb (method_name t) (method_name u)) eqn:E.
  - assert (Hlt : String.compare m (method_name u) = Lt).
    { rewrite <- Ht. unfold String.ltb in E. destruct (String.compare _ _); congruence. }
    assert (Hf : filter (fun u => String.eqb (method_name u) m) (u :: l) = []).
    { apply filter_none. intros w Hw. apply String.eqb_neq. intros Ew.
      assert (Hc : String.compare m (method_name w) = Lt).
      { destruct Hw as [<-|Hw]; [exact Hlt|].
        rewrite Forall_forall in Hu. apply (str_lt_le _ _ _ Hlt), method_le_iff, Hu, Hw. }
      rewrite Ew, str_compare_refl in Hc. discriminate. }
    rewrite filter_cons_eq, Hf, Ht, String.eqb_refl. reflexivity.
  - rewrite filter_cons_eq, filter_cons_eq, IH by exact Hl.
    destruct (String.eqb (method_name u) m); reflexivity.
Qed.

Lemma sorted_strongly l : Sorted method_le l -> StronglySorted method_le l.
Proof.
  apply Sorted_StronglySorted. intros a b c H1 H2.
  apply method_le_iff. apply method_le_iff in H1, H2. eapply str_le_trans; eassumption.
Qed.

Lemma sort_by_method_snoc l x :
  sort_by_method (l ++ [x]) = insert_by_method x (sort_by_method l).
Proof. unfold sort_by_method. rewrite rev_app_distr. reflexivity. Qed.

Lemma sort_by_method_Sorted l : Sorted method_le (sort_by_method l).
Proof.
  unfold sort_by_method. generalize (rev l). clear l.
  intros l. induction l as [|t l IH]; simpl; [constructor|]. apply insert_sorted, IH.
Qed.

(** The sort of a class table is stable: tests with the same method name
    keep their relative order. *)
Theorem sort_by_method_stable l m :
  filter (fun t => String.eqb (method_name t) m) (sort_by_method l) =
  filter (fun t => String.eqb (method_name t) m) l.
Proof.
  induction l as [|x l IH] using rev_ind; [reflexivity|].
  rewrite sort_by_method_snoc, filter_app. cbn [filter].
  destruct (String.eqb (method_name x) m) eqn:E.
  - apply String.eqb_eq in E.
    rewrite insert_filter_same by (apply sorted_strongly, sort_by_method_Sorted || exact E).
    rewrite IH. reflexivity.
  - rewrite insert_filter_other by exact E. rewrite IH, app_nil_r. reflexivity.
Qed.

(** The rows of a class table are a reordering of the class's tests,
    sorted by method name. *)
Theorem sort_by_method_sorted l :
  Permutation (sort_by_method l) l /\ Sorted method_le (sort_by_method l).
Proof.
  split; [apply sort_by_method_perm | apply sort_by_method_Sorted].
Qed.

End Results_and_classes.

Section Output.

Lemma sapp_assoc a b c : (a ++ b) ++ c = a ++ (b ++ c).
Proof. induction a as [|x a IH]; simpl; [reflexivity|]. rewrite IH. reflexivity. Qed.

Lemma html_escape_app a b : html_escape (a ++ b) = html_escape a ++ html_escape b.
Proof.
  induction a as [|c a IH]; [reflexivity|]. simpl. rewrite IH, sapp_assoc. reflexivity.
Qed.

Lemma escape_char_plain c :
  negb (markup_char c || Ascii.eqb c "&") = true -> escape_char c = String c "".
Proof.
  unfold markup_char, escape_char. intros H.
  destruct (c =? "&")%char, (c =? "<")%char, (c =? ">")%char, (c =? chr 34)%char, (c =? "'")%char;
    try discriminate; reflexivity.
Qed.

Lemma escape_char_cases c :
  (c = "&"%char /\ escape_char c = "&amp;") \/ (c = "<"%char /\ escape_char c = "&lt;") \/
  (c = ">"%char /\ escape_char c = "&gt;") \/ (c = chr 34 /\ escape_char c = "&quot;") \/
  (c = "'"%char /\ escape_char c = "&#x27;") \/
  (escape_char c = String c "" /\ c <> "&"%char /\ c <> "<"%char /\ c <> ">"%char /\
   c <> chr 34 /\ c <> "'"%char).
Proof.
  unfold escape_char.
  destruct (Ascii.eqb_spec c "&") as [->|N1]; [left; auto|].
  destruct (Ascii.eqb_spec c "<") as [->|N2]; [right; left; auto|].
  destruct (Ascii.eqb_spec c ">") as [->|N3]; [right; right; left; auto|].
  destruct (Ascii.eqb_spec c (chr 34)) as [->|N4]; [right; right; right; left; auto|].
  destruct (Ascii.eqb_spec c "'") as [->|N5]; [right; right; right; right; left; auto|].
  right; right; right; right; right. auto 7.
Qed.

Lemma escape_char_inj c c' x y :
  escape_char c ++ x = escape_char c' ++ y -> c = c' /\ x = y.
Proof.
  intros H.
  destruct (escape_char_cases c) as [[-> E]|[[-> E]|[[-> E]|[[-> E]|[[-> E]|[E N]]]]]];
  destruct (escape_char_cases c') as [[-> E']|[[-> E']|[[-> E']|[[-> E']|[[-> E']|[E' N']]]]]];
  rewrite E in H; try rewrite E' in H; simpl in H; injection H; intros; subst; try discriminate; try tauto.
Qed.

Lemma html_escape_inj a b : html_escape a = html_escape b -> a = b.
Proof.
  revert b. induction a as [|c a IH]; intros [|c' b] H; simpl in H.
  - reflexivity.
  - destruct (escape_char_cases c') as [[_ E]|[[_ E]|[[_ E]|[[_ E]|[[_ E]|[E _]]]]]];
      rewrite E in H; discriminate.
  - destruct (escape_char_cases c) as [[_ E]|[[_ E]|[[_ E]|[[_ E]|[[_ E]|[E _]]]]]];
      rewrite E in H; discriminate.
  - apply escape_char_inj in H as [-> H]. f_equal. apply IH, H.
Qed.

Lemma html_escape_plain s :
  forallb (fun c => negb (markup_char c || Ascii.eqb c "&")) (chars s) = true -> html_escape s = s.
Proof.
  induction s as [|c s IH]; [reflexivity|]. cbn [chars forallb list_ascii_of_string]. intros H.
  apply andb_true_iff in H as [Hc Hs]. simpl. rewrite escape_char_plain by exact Hc. rewrite IH by exact Hs.
  reflexivity.
Qed.

(** [html.escape] (character by character): escaping distributes over
    concatenation, two different texts never escape to the same text, and
    a text without [&], [<], [>] and quotes is left unchanged. *)
Theorem html_escape_props a b s :
  html_escape (a ++ b) = html_escape a ++ html_escape b /\
  (html_escape a = html_escape b -> a = b) /\
  (forallb (fun c => negb (markup_char c || Ascii.eqb c "&")) (chars s) = true -> html_escape s = s).
Proof.
  split; [apply html_escape_app|]. split; [apply html_escape_inj|apply html_escape_plain].
Qed.

Lemma html_escape_props_witness :
  html_escape "Login_Works" = "Login_Works".
Proof.
  apply (proj2 (proj2 (html_escape_props "" "" "Login_Works"))). vm_compute. reflexivity.
Defined.

Lemma prefix_app p r : String.prefix p (p ++ r) = true.
Proof.
  induction p as [|c p IH]; [destruct r; reflexivity|]. simpl.
  destruct (ascii_dec c c) as [_|N]; [exact IH|congruence].
Qed.

Lemma substring_all s m : (String.length s <= m)%nat -> substring 0 m s = s.
Proof.
  revert m. induction s as [|c s IH]; intros [|m] H; simpl in *; try reflexivity; try lia.
  rewrite IH by lia. reflexivity.
Qed.

Lemma slength_app a b : String.length (a ++ b) = (String.length a + String.length b)%nat.
Proof. induction a as [|c a IH]; simpl; [reflexivity|]. rewrite IH. reflexivity. Qed.

Lemma substring_app p r m : substring (String.length p) m (p ++ r) = substring 0 m r.
Proof.
  induction p as [|c p IH]; [reflexivity|]. cbn [String.length append].
  destruct m; exact IH.
Qed.

(** [short_class] removes the namespace prefix [TestIT.ApiTests.Tests.]
    once, and leaves a name without that prefix unchanged. *)
Theorem short_class_prefix r name :
  short_class (CLASS_PREFIX ++ r) = r /\
  (String.prefix CLASS_PREFIX name = false -> short_class name = name).
Proof.
  unfold short_class. split.
  - rewrite prefix_app, substring_app. apply substring_all.
    rewrite slength_app. lia.
  - intros H. rewrite H. reflexivity.
Qed.

Lemma short_class_prefix_witness :
  short_class "Other.Tests.Case" = "Other.Tests.Case".
Proof.
  apply (proj2 (short_class_prefix "" "Other.Tests.Case")). vm_compute. reflexivity.
Defined.

(** [outcome_badge] never produces a script element, whatever the
    outcome text. *)
Theorem outcome_badge_no_script o : contains_script (chars (outcome_badge o)) = false.
Proof.
  apply good_no_script. unfold outcome_badge.
  destruct (String.eqb_spec o "Passed") as [->|_]; [vm_compute; reflexivity|].
  apply good_concat. repeat constructor; apply no_lt_good;
    try apply no_lt_html_escape; vm_compute; reflexivity.
Qed.

Lemma fgtb_irrefl x : fgtb x x = false.
Proof. destruct x as [q|[]|]; try reflexivity. apply qltb_false, Qle_refl. Qed.

Lemma fgtb_max_step a b c : fgtb a b = false -> fgtb c b = true -> fgtb a c = false.
Proof.
  destruct a as [x|[]|], b as [y|[]|], c as [z|[]|]; simpl; intros H1 H2;
    try discriminate; try reflexivity.
  apply qltb_false in H1. apply qltb_iff in H2. apply qltb_false. lra.
Qed.

Lemma fgtb_min_step a b c : fgtb b a = false -> fgtb b c = true -> fgtb c a = false.
Proof.
  destruct a as [x|[]|], b as [y|[]|], c as [z|[]|]; simpl; intros H1 H2;
    try discriminate; try reflexivity.
  apply qltb_false in H1. apply qltb_iff in H2. apply qltb_false. lra.
Qed.

Lemma fold_max_inv r m S :
  In m S -> (forall u, In u S -> fgtb (duration_sec u) (duration_sec m) = false) ->
  In (fold_left (fun m u => if fgtb (duration_sec u) (duration_sec m) then u else m) r m) (S ++ r) /\
  (forall u, In u (S ++ r) -> fgtb (duration_sec u)
     (duration_sec (fold_left (fun m u => if fgtb (duration_sec u) (duration_sec m) then u else m) r m)) = false).
Proof.
  revert m S. induction r as [|x r IH]; intros m S Hm HS.
  - rewrite app_nil_r. auto.
  - cbn [fold_left]. replace (S ++ x :: r)%list with ((S ++ [x]) ++ r)%list by (rewrite <- app_assoc; reflexivity).
    apply IH.
    + destruct (fgtb (duration_sec x) (duration_sec m)); apply in_or_app; [right; left; reflexivity|left; exact Hm].
    + intros u Hu. apply in_app_or in Hu.
      destruct (fgtb (duration_sec x) (duration_sec m)) eqn:E.
      * destruct Hu as [Hu|[<-|[]]]; [apply (fgtb_max_step _ _ _ (HS u Hu) E)|apply fgtb_irrefl].
      * destruct Hu as [Hu|[<-|[]]]; [apply HS, Hu|exact E].
Qed.

Lemma fold_min_inv r m S :
  In m S -> (forall u, In u S -> fgtb (duration_sec m) (duration_sec u) = false) ->
  In (fold_left (fun m u => if fgtb (duration_sec m) (duration_sec u) then u else m) r m) (S ++ r) /\
  (forall u, In u (S ++ r) -> fgtb
     (duration_sec (fold_left (fun m u => if fgtb (duration_sec m) (duration_sec u) then u else m) r m))
     (duration_sec u) = false).
Proof.
  revert m S. induction r as [|x r IH]; intros m S Hm HS.
  - rewrite app_nil_r. auto.
  - cbn [fold_left]. replace (S ++ x :: r)%list with ((S ++ [x]) ++ r)%list by (rewrite <- app_assoc; reflexivity).
    apply IH.
    + destruct (fgtb (duration_sec m) (duration_sec x)); apply in_or_app; [right; left; reflexivity|left; exact Hm].
    + intros u Hu. apply in_app_or in Hu.
      destruct (fgtb (duration_sec m) (duration_sec x)) eqn:E.
      * destruct Hu as [Hu|[<-|[]]]; [apply (fgtb_min_step _ _ _ (HS u Hu) E)|apply fgtb_irrefl].
      * destruct Hu as [Hu|[<-|[]]]; [apply HS, Hu|exact E].
Qed.

(** [max] and [min] by duration: there is a slowest and a fastest test
    exactly when there are tests; each is one of the tests, no test is
    strictly slower than the slowest one, and none is strictly faster than
    the fastest one. *)
Theorem slowest_fastest l :
  (max_by_duration l = None <-> l = []) /\ (min_by_duration l = None <-> l = []) /\
  (forall s, max_by_duration l = Some s ->
     In s l /\ forall u, In u l -> fgtb (duration_sec u) (duration_sec s) = false) /\
  (forall f, min_by_duration l = Some f ->
     In f l /\ forall u, In u l -> fgtb (duration_sec f) (duration_sec u) = false).
Proof.
  destruct l as [|t r].
  - repeat split; try reflexivity; intros; discriminate.
  - split; [split; discriminate|]. split; [split; discriminate|].
    split; intros x H; apply Some_eq in H; subst x.
    + apply (fold_max_inv r t [t]); [left; reflexivity|].
      intros u [<-|[]]. apply fgtb_irrefl.
    + apply (fold_min_inv r t [t]); [left; reflexivity|].
      intros u [<-|[]]. apply fgtb_irrefl.
Qed.

Lemma slowest_fastest_witness :
  max_by_duration timed_tests = Some (nth 1 timed_tests (mk_Test "" "" PNaN "" "")) /\
  forall u, In u timed_tests ->
    fgtb (duration_sec u) (duration_sec (nth 1 timed_tests (mk_Test "" "" PNaN "" ""))) = false.
Proof.
  assert (H : max_by_duration timed_tests = Some (nth 1 timed_tests (mk_Test "" "" PNaN "" "")))
    by (vm_compute; reflexivity).
  split; [exact H|]. apply (proj1 (proj2 (proj2 (slowest_fastest timed_tests))) _ H).
Defined.

(** [fmt_dur] below 60 seconds, negative values included, prints the
    value with two decimals and [s]; it raises on plus infinity (the
    integer part of [inf // 3600] is taken), prints minus infinity as
    [-infs] and NaN as [nans]. *)
Theorem fmt_dur_edges q :
  q < 60 ->
  fmt_dur (Fin q) = Some (fmt_fixed 2 q ++ "s") /\
  fmt_dur (PInf false) = None /\ fmt_dur (PInf true) = Some "-infs" /\ fmt_dur PNaN = Some "nans".
Proof.
  intros H. split; [apply fmt_dur_seconds, H|]. repeat split.
Qed.

Lemma fmt_dur_edges_witness :
  -5 < 60 /\ fmt_dur (Fin (-5)) = Some (fmt_fixed 2 (-5) ++ "s")%string.
Proof.
  split; [vm_compute; reflexivity|]. apply (fmt_dur_edges (-5)). vm_compute. reflexivity.
Defined.

(** [parse_duration] raises when the text has fewer than three fields
    separated by colons, and ignores whatever follows a third colon. *)
Theorem parse_duration_fields s t :
  ((length (split_on ":" (chars s)) < 3)%nat -> parse_duration s = None) /\
  (length (split_on ":" (chars s)) = 3%nat -> parse_duration (s ++ ":" ++ t) = parse_duration s).
Proof.
  split; intros H; unfold parse_duration; cbv zeta.
  - rewrite (proj2 (nth_error_None (split_on ":" (chars s)) 2) ltac:(lia)).
    destruct (nth_error (split_on ":" (chars s)) 0), (nth_error (split_on ":" (chars s)) 1); reflexivity.
  - rewrite chars_app. change (chars (":" ++ t)) with (":"%char :: chars t).
    rewrite split_on_app, !nth_error_app1 by lia. reflexivity.
Qed.

Lemma parse_duration_fields_witness :
  parse_duration ("00:01:02.5" ++ ":" ++ "9") = parse_duration "00:01:02.5".
Proof.
  apply (proj2 (parse_duration_fields "00:01:02.5" "9")). vm_compute. reflexivity.
Defined.

Lemma parse_results_none rs r : In r rs -> parse_result r = None -> parse_results rs = None.
Proof.
  induction rs as [|r' rs IH]; intros Hin Hr; [destruct Hin|].
  cbn [parse_results]. destruct Hin as [<-|Hin]; [rewrite Hr; reflexivity|].
  destruct (parse_result r'); [|reflexivity]. rewrite IH by assumption. reflexivity.
Qed.

Lemma parse_results_in rs ts r :
  parse_results rs = Some ts -> In r rs -> exists t, parse_result r = Some t /\ In t ts.
Proof.
  revert ts. induction rs as [|r' rs IH]; intros ts H Hin; [destruct Hin|].
  cbn [parse_results] in H.
  destruct (parse_result r') as [t'|] eqn:E1; [|discriminate].
  destruct (parse_results rs) as [ts'|] eqn:E2; [|discriminate].
  apply Some_eq in H. subst ts.
  destruct Hin as [<-|Hin].
  - exists t'. split; [exact E1|left; reflexivity].
  - destruct (IH ts' eq_refl Hin) as [t [Ht Hin']]. exists t. split; [exact Ht|right; exact Hin'].
Qed.

Lemma test_rows_none ci i l t :
  In t l -> fmt_dur (duration_sec t) = None -> test_rows ci i l = None.
Proof.
  revert i. induction l as [|u l IH]; intros i Hin Hd; [destruct Hin|].
  cbn [test_rows]. destruct Hin as [<-|Hin].
  - unfold test_row at 1. rewrite Hd. reflexivity.
  - destruct (test_row ci i u); [|reflexivity]. rewrite IH by assumption. reflexivity.
Qed.

Lemma class_table_none ci c ts t :
  In t ts -> fmt_dur (duration_sec t) = None -> class_table ci c ts = None.
Proof.
  intros Hin Hd. unfold class_table.
  rewrite (test_rows_none ci 1 (sort_by_method ts) t); [reflexivity| |exact Hd].
  apply (Permutation_in t (Permutation_sym (sort_by_method_perm ts)) Hin).
Qed.

Lemma class_tables_none idx cls c ts t :
  In (c, ts) cls -> In t ts -> fmt_dur (duration_sec t) = None -> class_tables idx cls = None.
Proof.
  revert idx. induction cls as [|[c' ts'] cls IH]; intros idx Hc Hin Hd; [destruct Hc|].
  cbn [class_tables]. destruct Hc as [E|Hc].
  - injection E as -> ->. rewrite (class_table_none idx c ts t Hin Hd). reflexivity.
  - destruct (class_table idx c' ts'); [|reflexivity]. rewrite IH by assumption. reflexivity.
Qed.

Lemma ordered_classes_concat_perm tests :
  Permutation (concat (map snd (ordered_classes tests))) tests.
Proof.
  unfold ordered_classes.
  assert (HP : Permutation (sort_classes (group_classes tests)) (group_classes tests))
    by (apply od_perm; [apply NoDup_sort_classes | apply NoDup_group | intros; apply sort_classes_get]).
  eapply Permutation_trans; [apply perm_concat_snd, HP | apply concat_group].
Qed.

Lemma html_doc_some doc out :
  html_doc doc = Some out ->
  exists times cattrs tests s,
    times_el doc = Some times /\ attr_get times "start" <> None /\
    attr_get times "finish" <> None /\ counters_el doc = Some cattrs /\
    parse_results (results doc) = Some tests /\ class_tables 1 (ordered_classes tests) = Some s.
Proof.
  unfold html_doc. cbv zeta. intros H.
  repeat match type of H with
    | context [match ?o with Some _ => _ | None => None end] =>
        let E := fresh "E" in destruct o eqn:E; [|discriminate]
    end.
  do 4 eexists. repeat split; try eassumption; congruence.
Qed.

(** No report is produced when the Times element or its start or finish
    attribute is missing, when the Counters element is missing, when one
    result entry cannot be parsed, or when one result has a duration of
    plus infinity (its row cannot be formatted). *)
Theorem html_doc_errors doc :
  (times_el doc = None -> html_doc doc = None) /\
  (forall times, times_el doc = Some times -> attr_get times "start" = None -> html_doc doc = None) /\
  (forall times, times_el doc = Some times -> attr_get times "finish" = None -> html_doc doc = None) /\
  (counters_el doc = None -> html_doc doc = None) /\
  (forall r, In r (results doc) -> parse_result r = None -> html_doc doc = None) /\
  (forall r, In r (results doc) ->
     parse_duration (get_default (r_attrs r) "duration" "00:00:00.0000000") = Some (PInf false) ->
     html_doc doc = None).
Proof.
  destruct (html_doc doc) as [out|] eqn:H;
    [|repeat split; intros; reflexivity].
  destruct (html_doc_some doc out H) as [times [cattrs [tests [s [E1 [E2 [E3 [E4 [E5 E6]]]]]]]]].
  repeat split; intros; try congruence.
  - rewrite (parse_results_none _ r) in E5 by assumption. discriminate.
  - rename H0 into Hin, H1 into Hd.
    destruct (parse_results_in _ _ r E5 Hin) as [t [Ht Hint]].
    assert (Hdt : duration_sec t = PInf false).
    { unfold parse_result in Ht. cbv zeta in Ht. rewrite Hd in Ht.
      apply Some_eq in Ht. rewrite <- Ht. unfold mk_Test. destruct (rsplit_dot _). reflexivity. }
    apply (Permutation_in t (Permutation_sym (ordered_classes_concat_perm tests))) in Hint.
    apply in_concat in Hint as [ts [Hts Hint]]. apply in_map_iff in Hts as [[c ts'] [Ec Hc]].
    cbn [snd] in Ec. subst ts'.
    rewrite (class_tables_none 1 _ c ts t Hc Hint) in E6 by (rewrite Hdt; reflexivity).
    discriminate.
Qed.

Lemma html_doc_errors_witness : html_doc infinite_doc = None.
Proof.
  apply (proj2 (proj2 (proj2 (proj2 (proj2 (html_doc_errors infinite_doc))))) infinite_result).
  - left. reflexivity.
  - vm_compute. reflexivity.
Defined.

Lemma counted_of attrs k n :
  py_int (chars (get_default attrs k "0")) = Some n -> counted attrs k n.
Proof.
  unfold get_default, counted. destruct (attr_get attrs k); [auto|].
  intros H. vm_compute in H. congruence.
Qed.

Lemma counter_fails attrs k :
  py_int (chars (get_default attrs k "0")) = None ->
  exists v, attr_get attrs k = Some v /\ py_int (chars v) = None.
Proof.
  unfold get_default. destruct (attr_get attrs k) as [v|]; [eauto|].
  intros H. vm_compute in H. discriminate.
Qed.

(** The counters: each attribute is read on its own, a missing one
    counting as 0 whatever the others are and a present one as its
    integer value; the script fails exactly when a present attribute is
    not an integer. *)
Theorem parse_counters_fields attrs :
  (forall c, parse_counters attrs = Some c ->
     counted attrs "total" (total_tests c) /\ counted attrs "passed" (passed c) /\
     counted attrs "failed" (failed c) /\ counted attrs "error" (errors c) /\
     counted attrs "notExecuted" (skipped c)) /\
  (parse_counters attrs = None <->
   exists k v, In k ["total"; "passed"; "failed"; "error"; "notExecuted"] /\
     attr_get attrs k = Some v /\ py_int (chars v) = None).
Proof.
  split; [|split].
  - intros c. unfold parse_counters.
    destruct (py_int (chars (get_default attrs "total" "0"))) as [t|] eqn:Et; [|discriminate].
    destruct (py_int (chars (get_default attrs "passed" "0"))) as [p|] eqn:Ep; [|discriminate].
    destruct (py_int (chars (get_default attrs "failed" "0"))) as [f|] eqn:Ef; [|discriminate].
    destruct (py_int (chars (get_default attrs "error" "0"))) as [e|] eqn:Ee; [|discriminate].
    destruct (py_int (chars (get_default attrs "notExecuted" "0"))) as [s|] eqn:Es; [|discriminate].
    intros H. injection H as <-. cbn.
    repeat split; apply counted_of; assumption.
  - unfold parse_counters.
    destruct (py_int (chars (get_default attrs "total" "0"))) as [t|] eqn:Et;
      [|intros _; destruct (counter_fails _ _ Et) as [v [Hv Hp]]; exists "total"%string, v; simpl; tauto].
    destruct (py_int (chars (get_default attrs "passed" "0"))) as [p|] eqn:Ep;
      [|intros _; destruct (counter_fails _ _ Ep) as [v [Hv Hp]]; exists "passed"%string, v; simpl; tauto].
    destruct (py_int (chars (get_default attrs "failed" "0"))) as [f|] eqn:Ef;
      [|intros _; destruct (counter_fails _ _ Ef) as [v [Hv Hp]]; exists "failed"%string, v; simpl; tauto].
    destruct (py_int (chars (get_default attrs "error" "0"))) as [e|] eqn:Ee;
      [|intros _; destruct (counter_fails _ _ Ee) as [v [Hv Hp]]; exists "error"%string, v; simpl; tauto].
    destruct (py_int (chars (get_default attrs "notExecuted" "0"))) as [s|] eqn:Es;
      [|intros _; destruct (counter_fails _ _ Es) as [v [Hv Hp]]; exists "notExecuted"%string, v; simpl; tauto].
    discriminate.
  - intros (k & v & Hk & Hv & Hp).
    assert (Hg : get_default attrs k "0" = v) by (unfold get_default; rewrite Hv; reflexivity).
    unfold parse_counters.
    destruct Hk as [<-|[<-|[<-|[<-|[<-|[]]]]]]; rewrite Hg, Hp;
      repeat (destruct (py_int _); try reflexivity).
Qed.

Lemma parse_counters_fields_witness :
  parse_counters partial_counters =
    Some {| total_tests := 3; passed := 2; failed := 1; errors := 0; skipped := 0 |} /\
  attr_get partial_counters "notExecuted" = None /\
  counted partial_counters "notExecuted" 0%Z.
Proof.
  assert (E : parse_counters partial_counters =
    Some {| total_tests := 3; passed := 2; failed := 1; errors := 0; skipped := 0 |})
    by (vm_compute; reflexivity).
  split; [exact E|]. split; [vm_compute; reflexivity|].
  exact (proj2 (proj2 (proj2 (proj2 (proj1 (parse_counters_fields partial_counters) _ E))))).
Defined.

End Output.
